(** * Dengue forecast dashboard: the chart timeline and the entry form

    A shallow embedding of the row computation of [ForecastChart]
    (the [useMemo] body of components/ForecastChart.tsx), of the records of
    types/forecast.ts it consumes, of the response normalisation of
    [fetchForecast] (components/DistrictDetailPanel.tsx) that produces them,
    and of the manual entry form of the same panel: its row handlers, its
    week and date conversions, its ready counter, its submit handler and
    its list of recorded observations.

    Conventions of the embedding.
    - A JavaScript [number] is an IEEE-754 double: Rocq's primitive [float].
      The chart never does arithmetic on a case count; it copies it, tests it
      against [null] and asks [Number.isFinite].
    - [number | null] and optional fields are [option]; [null] and
      [undefined] are both [None] (the code only ever tests them with
      [== null], [!= null], [??], [typeof x === 'number'] and truthiness,
      which agree on the two).
    - The two window sizes are integers ([Z]); reading a property of a
      missing array element is the [TypeError] of [result].
    - [new Date(s).getTime()] is a parameter [getTime : string -> option Z]:
      the time value in milliseconds, [None] for the NaN of an invalid date.
      Time values are integers of magnitude at most 8.64e15, so they and the
      sign of their difference are exact in doubles.
    - The [Map] is an association list in insertion order; arrays are lists,
      indexed by stdpp's lookup, with what JavaScript does out of range
      written out. *)

From Stdlib Require Import ZArith Ascii String.
From Stdlib Require Import Floats.PrimFloat Floats.SpecFloat Floats.FloatOps.
From stdpp Require Import base option list sorting strings.

Local Open Scope Z_scope.

(** ** Numbers *)

Definition number : Type := float.

(** [Number.isFinite] on a value that is already a number. *)
Definition isFinite (x : number) : bool := PrimFloat.is_finite x.

(** [a ?? b] *)
Definition nullish {A} (a b : option A) : option A :=
  match a with
  | Some _ => a
  | None => b
  end.

(** [x != null] *)
Definition notNull {A} (a : option A) : bool :=
  match a with
  | Some _ => true
  | None => false
  end.

(** ** types/forecast.ts *)

Inductive HistorySource := observed | manual | synthetic | seasonal_clone.

Module HistoryPoint.
Record t := mk { ds : string; y : number; source : HistorySource }.
End HistoryPoint.

Module ForecastPoint.
Record t := mk { ds : string; horizon : number; y_pred : number; actual : option number }.
End ForecastPoint.

Module PendingWeek.
Record t := mk { ds : string; prediction : number }.
End PendingWeek.

(** The chart reads only the three collections of a [ForecastResponse]; the
    remaining fields (cut date, district, coordinates, the four date stamps)
    are carried to other components and are left out here. *)
Module ForecastResponse.
Record t := mk {
  history : list HistoryPoint.t;
  forecast : list ForecastPoint.t;
  pending_weeks : list PendingWeek.t
}.
End ForecastResponse.

(** ** ForecastChart.tsx: rows *)

(** ['synthetic' | 'seasonal_clone' | 'pending'] *)
Inductive FillSource := fill_synthetic | fill_seasonal_clone | fill_pending.

Record ChartRow := mkRow {
  date : string;
  actualReal : option number;
  filledValue : option number;
  filledLineValue : option number;
  forecastValue : option number;
  actualSource : option HistorySource;
  filledSource : option FillSource;
  hasHistory : bool;
  hasForecast : bool;
  isPending : option bool;
  manualConnector : option number
}.

(** Field assignments [row.f = v]. *)
Definition set_actualReal (v : option number) (r : ChartRow) : ChartRow :=
  mkRow (date r) v (filledValue r) (filledLineValue r) (forecastValue r)
    (actualSource r) (filledSource r) (hasHistory r) (hasForecast r)
    (isPending r) (manualConnector r).
Definition set_filledValue (v : option number) (r : ChartRow) : ChartRow :=
  mkRow (date r) (actualReal r) v (filledLineValue r) (forecastValue r)
    (actualSource r) (filledSource r) (hasHistory r) (hasForecast r)
    (isPending r) (manualConnector r).
Definition set_filledLineValue (v : option number) (r : ChartRow) : ChartRow :=
  mkRow (date r) (actualReal r) (filledValue r) v (forecastValue r)
    (actualSource r) (filledSource r) (hasHistory r) (hasForecast r)
    (isPending r) (manualConnector r).
Definition set_forecastValue (v : option number) (r : ChartRow) : ChartRow :=
  mkRow (date r) (actualReal r) (filledValue r) (filledLineValue r) v
    (actualSource r) (filledSource r) (hasHistory r) (hasForecast r)
    (isPending r) (manualConnector r).
Definition set_actualSource (v : option HistorySource) (r : ChartRow) : ChartRow :=
  mkRow (date r) (actualReal r) (filledValue r) (filledLineValue r) (forecastValue r)
    v (filledSource r) (hasHistory r) (hasForecast r)
    (isPending r) (manualConnector r).
Definition set_filledSource (v : option FillSource) (r : ChartRow) : ChartRow :=
  mkRow (date r) (actualReal r) (filledValue r) (filledLineValue r) (forecastValue r)
    (actualSource r) v (hasHistory r) (hasForecast r)
    (isPending r) (manualConnector r).
Definition set_hasHistory (v : bool) (r : ChartRow) : ChartRow :=
  mkRow (date r) (actualReal r) (filledValue r) (filledLineValue r) (forecastValue r)
    (actualSource r) (filledSource r) v (hasForecast r)
    (isPending r) (manualConnector r).
Definition set_hasForecast (v : bool) (r : ChartRow) : ChartRow :=
  mkRow (date r) (actualReal r) (filledValue r) (filledLineValue r) (forecastValue r)
    (actualSource r) (filledSource r) (hasHistory r) v
    (isPending r) (manualConnector r).
Definition set_isPending (v : option bool) (r : ChartRow) : ChartRow :=
  mkRow (date r) (actualReal r) (filledValue r) (filledLineValue r) (forecastValue r)
    (actualSource r) (filledSource r) (hasHistory r) (hasForecast r)
    v (manualConnector r).
Definition set_manualConnector (v : option number) (r : ChartRow) : ChartRow :=
  mkRow (date r) (actualReal r) (filledValue r) (filledLineValue r) (forecastValue r)
    (actualSource r) (filledSource r) (hasHistory r) (hasForecast r)
    (isPending r) v.

(** The object literal of [getRow]: [isPending] and the two source tags are
    not set, so they are [undefined]. *)
Definition newRow (d : string) : ChartRow :=
  mkRow d None None None None None None false false None None.

(** ** The [Map<string, ChartRow>] *)

Abbreviation RowsMap := (list (string * ChartRow)).

Definition mapHas (k : string) (m : RowsMap) : bool :=
  bool_decide (k ∈ m.*1).

Fixpoint mapGet (k : string) (m : RowsMap) : option ChartRow :=
  match m with
  | [] => None
  | (k', r) :: m' => if decide (k' = k) then Some r else mapGet k m'
  end.

(** [Map.prototype.set]: an existing key keeps its position. *)
Fixpoint mapSet (k : string) (v : ChartRow) (m : RowsMap) : RowsMap :=
  match m with
  | [] => [(k, v)]
  | (k', r) :: m' =>
      if decide (k' = k) then (k, v) :: m' else (k', r) :: mapSet k v m'
  end.

(** [Array.from(rowsMap.values())] *)
Definition mapValues (m : RowsMap) : list ChartRow := m.*2.

(** [getRow] returns a reference to the row object stored under [date],
    adding a fresh one first when the key is missing. The reference is the
    key; [getRow] gives the map in which the key is present, and
    [writeRow] is a sequence of field assignments through the reference. *)
Definition getRow (d : string) (m : RowsMap) : RowsMap :=
  if mapHas d m then m else mapSet d (newRow d) m.

Fixpoint writeRow (k : string) (f : ChartRow → ChartRow) (m : RowsMap) : RowsMap :=
  match m with
  | [] => []
  | (k', r) :: m' =>
      if decide (k' = k) then (k', f r) :: m' else (k', r) :: writeRow k f m'
  end.

(** Body of [data.history.forEach]. *)
Definition historyWrite (point : HistoryPoint.t) (row : ChartRow) : ChartRow :=
  let row := set_hasHistory true row in
  match HistoryPoint.source point with
  | observed | manual =>
      set_actualSource (Some (HistoryPoint.source point))
        (set_actualReal (Some (HistoryPoint.y point)) row)
  | synthetic =>
      set_filledSource (Some fill_synthetic)
        (set_filledLineValue (Some (HistoryPoint.y point))
          (set_filledValue (Some (HistoryPoint.y point)) row))
  | seasonal_clone =>
      set_filledSource (Some fill_seasonal_clone)
        (set_filledLineValue (Some (HistoryPoint.y point))
          (set_filledValue (Some (HistoryPoint.y point)) row))
  end.

(** Body of [data.pending_weeks.forEach]. *)
Definition pendingWrite (point : PendingWeek.t) (row : ChartRow) : ChartRow :=
  set_isPending (Some true)
    (set_filledSource (Some fill_pending)
      (set_filledLineValue (Some (PendingWeek.prediction point))
        (set_filledValue (Some (PendingWeek.prediction point)) row))).

(** Body of [data.forecast.forEach]. [typeof point.actual === 'number']
    is the [Some] case. *)
Definition forecastWrite (point : ForecastPoint.t) (row : ChartRow) : ChartRow :=
  let row := set_forecastValue (Some (ForecastPoint.y_pred point))
               (set_hasForecast true row) in
  match actualReal row, ForecastPoint.actual point with
  | None, Some a =>
      if isFinite a
      then set_actualSource (Some observed) (set_actualReal (Some a) row)
      else row
  | _, _ => row
  end.

Definition historyStep (m : RowsMap) (point : HistoryPoint.t) : RowsMap :=
  writeRow (HistoryPoint.ds point) (historyWrite point)
    (getRow (HistoryPoint.ds point) m).

Definition pendingStep (m : RowsMap) (point : PendingWeek.t) : RowsMap :=
  writeRow (PendingWeek.ds point) (pendingWrite point)
    (getRow (PendingWeek.ds point) m).

Definition forecastStep (m : RowsMap) (point : ForecastPoint.t) : RowsMap :=
  writeRow (ForecastPoint.ds point) (forecastWrite point)
    (getRow (ForecastPoint.ds point) m).

(** The map after the three [forEach] loops. *)
Definition rowsMap (data : ForecastResponse.t) : RowsMap :=
  foldl forecastStep
    (foldl pendingStep
      (foldl historyStep [] (ForecastResponse.history data))
      (ForecastResponse.pending_weeks data))
    (ForecastResponse.forecast data).

(** ** [Array.prototype.sort] *)

(** A stable sort by a comparator; the array is sorted when the comparator
    is consistent, and in that case every stable sort returns this list.
    [insertSorted x l] puts [x], which stood before the elements of [l] in
    the array, before the first element it does not exceed. *)
Fixpoint insertSorted {A} (cmp : A → A → Z) (x : A) (l : list A) : list A :=
  match l with
  | [] => [x]
  | y :: l' => if 0 <? cmp x y then y :: insertSorted cmp x l' else x :: y :: l'
  end.

Fixpoint sortBy {A} (cmp : A → A → Z) (l : list A) : list A :=
  match l with
  | [] => []
  | x :: l' => insertSorted cmp x (sortBy cmp l')
  end.

(** ** The manual-connector pass *)

(** [rows[i]] for a JavaScript index: [undefined] below 0 and past the end. *)
Definition rowAt (rows : list ChartRow) (i : Z) : option ChartRow :=
  if i <? 0 then None else rows !! Z.to_nat i.

(** [row.actualSource === 'manual' && row.actualReal != null] *)
Definition isManual (row : ChartRow) : bool :=
  match actualSource row with
  | Some manual => notNull (actualReal row)
  | _ => false
  end.

(** [neighbor.actualReal ?? neighbor.filledValue ?? neighbor.forecastValue] *)
Definition bestValue (row : ChartRow) : option number :=
  nullish (nullish (actualReal row) (filledValue row)) (forecastValue row).

Definition linkNeighbor (rows : list ChartRow) (neighborIdx : Z)
    (suppressForwardFill : bool) : list ChartRow :=
  match rowAt rows neighborIdx with
  | None => rows
  | Some neighbor =>
      if notNull (manualConnector neighbor) then rows
      else
        match bestValue neighbor with
        | None => rows
        | Some value =>
            let neighbor := set_manualConnector (Some value) neighbor in
            let neighbor :=
              if suppressForwardFill && notNull (filledLineValue neighbor)
              then set_filledLineValue None neighbor
              else neighbor in
            <[Z.to_nat neighborIdx := neighbor]> rows
        end
  end.

(** The callback of [rows.forEach((row, idx) => ...)] on the array as it is
    when index [idx] is visited. *)
Definition visitRow (rows : list ChartRow) (idx : nat) : list ChartRow :=
  match rows !! idx with
  | None => rows
  | Some row =>
      if isManual row then
        let row := set_filledLineValue None
                     (set_manualConnector (actualReal row) row) in
        let rows := <[idx := row]> rows in
        let rows := linkNeighbor rows (Z.of_nat idx - 1) false in
        linkNeighbor rows (Z.of_nat idx + 1) true
      else rows
  end.

(** The array after the callback ran on indices [0 .. k-1]. *)
Definition passPrefix (k : nat) (rows : list ChartRow) : list ChartRow :=
  foldl visitRow rows (seq 0 k).

Definition connectorPass (rows : list ChartRow) : list ChartRow :=
  passPrefix (length rows) rows.

(** ** The three loops as keyed writes

    Each loop iteration is one write [(key, assignments)] to the map. The
    definitions below are the vocabulary of the theorems; [rowsMap_writes]
    relates them to the loops. *)

Abbreviation Write := (string * (ChartRow → ChartRow))%type.

Definition writeStep (m : RowsMap) (w : Write) : RowsMap :=
  writeRow w.1 w.2 (getRow w.1 m).

Definition historyWrites (history : list HistoryPoint.t) : list Write :=
  (λ point, (HistoryPoint.ds point, historyWrite point)) <$> history.

Definition pendingWrites (pending : list PendingWeek.t) : list Write :=
  (λ point, (PendingWeek.ds point, pendingWrite point)) <$> pending.

Definition forecastWrites (forecast : list ForecastPoint.t) : list Write :=
  (λ point, (ForecastPoint.ds point, forecastWrite point)) <$> forecast.

Definition writesOf (data : ForecastResponse.t) : list Write :=
  historyWrites (ForecastResponse.history data)
  ++ pendingWrites (ForecastResponse.pending_weeks data)
  ++ forecastWrites (ForecastResponse.forecast data).

(** What the writes addressed to key [k] make of a row. *)
Definition applyTo (k : string) (ws : list Write) (r : ChartRow) : ChartRow :=
  foldl (λ r (w : Write), if decide (w.1 = k) then w.2 r else r) r ws.

(** The row the three loops leave under date [d]. *)
Definition rowOf (data : ForecastResponse.t) (d : string) : ChartRow :=
  applyTo d (writesOf data) (newRow d).

(** Every date of the three collections, in the order the loops meet them. *)
Definition inputDates (data : ForecastResponse.t) : list string :=
  (HistoryPoint.ds <$> ForecastResponse.history data)
  ++ (PendingWeek.ds <$> ForecastResponse.pending_weeks data)
  ++ (ForecastPoint.ds <$> ForecastResponse.forecast data).

(** ** The connector pass, row by row

    [selfRow] and [linkRow] are what a visit does to the visited row and to
    a neighbour; [settle rows k j] is row [j] once indices below [k] have
    been visited, read off the array [rows] the pass started from. *)

Definition selfRow (row : ChartRow) : ChartRow :=
  set_filledLineValue None (set_manualConnector (actualReal row) row).

Definition linkRow (suppressForwardFill : bool) (neighbor : ChartRow) : ChartRow :=
  if notNull (manualConnector neighbor) then neighbor
  else
    match bestValue neighbor with
    | None => neighbor
    | Some value =>
        let neighbor := set_manualConnector (Some value) neighbor in
        if suppressForwardFill && notNull (filledLineValue neighbor)
        then set_filledLineValue None neighbor
        else neighbor
    end.

Definition manualAt (rows : list ChartRow) (i : Z) : bool :=
  from_option isManual false (rowAt rows i).

(** Index [i] holds a manual row and has been visited. *)
Definition claimed (rows : list ChartRow) (k : nat) (i : Z) : bool :=
  manualAt rows i && (i <? Z.of_nat k).

Definition settleWith (prev self next : bool) (r : ChartRow) : ChartRow :=
  let r1 :=
    if prev || self || next then set_manualConnector (bestValue r) r else r in
  if self || (prev && notNull (bestValue r))
  then set_filledLineValue None r1
  else r1.

Definition settle (rows : list ChartRow) (k : nat) (j : nat) (r : ChartRow)
    : ChartRow :=
  settleWith (claimed rows k (Z.of_nat j - 1)) (claimed rows k (Z.of_nat j))
    (claimed rows k (Z.of_nat j + 1)) r.

(** A row without its two line channels, the only fields the connector pass
    assigns. *)
Definition dataOf (r : ChartRow) : ChartRow :=
  set_manualConnector None (set_filledLineValue None r).


(** A channel holds no value or a finite one; in particular no NaN. *)
Definition finiteOrNull (v : option number) : Prop :=
  match v with
  | Some x => isFinite x = true
  | None => True
  end.

Definition channelsFinite (row : ChartRow) : Prop :=
  finiteOrNull (actualReal row) ∧ finiteOrNull (filledValue row)
  ∧ finiteOrNull (filledLineValue row) ∧ finiteOrNull (forecastValue row)
  ∧ finiteOrNull (manualConnector row).

(** ** A reader of date-only ISO strings

    [YYYY-MM-DD] is the one date form every engine must read the same way
    (ECMAScript, Date Time String Format): midnight UTC of that day. It is
    the instance of [getTime] used on concrete inputs. *)
Module IsoDate.

Definition digit (c : ascii) : option Z :=
  let n := Z.of_nat (nat_of_ascii c) in
  if (48 <=? n) && (n <=? 57) then Some (n - 48) else None.

Definition isLeap (y : Z) : bool :=
  ((y mod 4 =? 0) && negb (y mod 100 =? 0)) || (y mod 400 =? 0).

Definition daysInMonth (y m : Z) : Z :=
  if m =? 2 then (if isLeap y then 29 else 28)
  else if (m =? 4) || (m =? 6) || (m =? 9) || (m =? 11) then 30
  else 31.

(** Days since 1970-01-01 in the proleptic Gregorian calendar. *)
Definition daysFromCivil (y m d : Z) : Z :=
  let y := if m <=? 2 then y - 1 else y in
  let era := y / 400 in
  let yoe := y - era * 400 in
  let mp := (m + 9) mod 12 in
  let doy := (153 * mp + 2) / 5 + d - 1 in
  let doe := yoe * 365 + yoe / 4 - yoe / 100 + doy in
  era * 146097 + doe - 719468.

Definition number2 (a b : ascii) : option Z :=
  match digit a, digit b with
  | Some x, Some y => Some (10 * x + y)
  | _, _ => None
  end.

Definition getTime (s : string) : option Z :=
  match s with
  | String y1 (String y2 (String y3 (String y4 (String "-"
      (String m1 (String m2 (String "-"
        (String d1 (String d2 EmptyString))))))))) =>
      match number2 y1 y2, number2 y3 y4, number2 m1 m2, number2 d1 d2 with
      | Some yh, Some yl, Some m, Some d =>
          let y := 100 * yh + yl in
          if (1 <=? m) && (m <=? 12) && (1 <=? d) && (d <=? daysInMonth y m)
          then Some (daysFromCivil y m d * 86400000)
          else None
      | _, _, _, _ => None
      end
  | _ => None
  end.

End IsoDate.

(** ** Values of the parsed response body *)

(** What [response.json()] can put in a field, by [typeof]: a missing field
    is [undefined]; arrays and objects are [JsObject]. *)
Inductive JsValue :=
  | JsUndefined
  | JsNull
  | JsBoolean (b : bool)
  | JsNumber (n : number)
  | JsString (s : string)
  | JsObject.

Module ApiHistoryItem.
Record t := mk { ds : string; cases : JsValue; source : option HistorySource }.
End ApiHistoryItem.

Module ApiForecastItem.
Record t := mk { ds : string; h : JsValue; prediction : JsValue; actual : JsValue }.
End ApiForecastItem.

Module ApiPendingItem.
Record t := mk { ds : string; prediction : JsValue }.
End ApiPendingItem.

(** The three collections of [apiData]; [None] is a field for which
    [Array.isArray] is false. *)
Module ApiData.
Record t := mk {
  history : option (list ApiHistoryItem.t);
  forecast : option (list ApiForecastItem.t);
  pending_weeks : option (list ApiPendingItem.t)
}.
End ApiData.

(** A call either returns or throws a [TypeError] (a property read on
    [undefined]). *)
Inductive result (A : Type) :=
  | Returns (a : A)
  | TypeError.
Arguments Returns {A} a.
Arguments TypeError {A}.

(** A call either returns or throws a [RangeError] ([toISOString] of an
    invalid date). *)
Inductive completion (A : Type) :=
  | Normal (a : A)
  | RangeError.
Arguments Normal {A} a.
Arguments RangeError {A}.

(** ** Text and dates of the engine, as the entry form uses them

    [isoWeekToDate] and [dateToIsoWeek] are calls of [String.prototype.split],
    [Date.UTC] and the UTC getters and setters of [Date]. They are written
    out here after ECMA-262 (Date objects: [Day], [TimeWithinDay],
    [WeekDay], [MakeDay], [MakeDate], [TimeClip]). A time value is an
    integer number of milliseconds or NaN: [option Z], as for [getTime].
    Where the code does arithmetic on doubles before it hands the result to
    a setter, the arithmetic is that of the primitive floats. *)

Module JsString.

Fixpoint startsWith (sep s : string) : bool :=
  match sep, s with
  | EmptyString, _ => true
  | String a sep', String b s' => Ascii.eqb a b && startsWith sep' s'
  | String _ _, EmptyString => false
  end.

(** [split] scans the text from the left; [skip] counts the characters of
    a separator just found that are still to be passed over, [piece] is the
    text since the last separator. *)
Fixpoint splitFrom (sep : string) (skip : nat) (piece s : string)
    : list string :=
  match s with
  | EmptyString => [piece]
  | String c s' =>
      match skip with
      | S k => splitFrom sep k piece s'
      | O =>
          if startsWith sep s
          then piece :: splitFrom sep (String.length sep - 1) EmptyString s'
          else splitFrom sep 0 (piece +:+ String c EmptyString) s'
      end
  end.

(** [s.split(sep)] for a separator that is not empty. *)
Definition split (sep s : string) : list string :=
  splitFrom sep 0 EmptyString s.

Definition digitChar (d : Z) : ascii := ascii_of_nat (48 + Z.to_nat d).

(** The last [width] decimal digits of a natural number, zero-padded: the
    fixed-width fields of [toISOString], and [padStart(width, '0')] of a
    number with at most [width] digits. *)
Fixpoint pad (width : nat) (z : Z) : string :=
  match width with
  | O => EmptyString
  | S w => String (digitChar ((z / 10 ^ Z.of_nat w) mod 10)) (pad w z)
  end.

(** The decimal digits of a natural number, written before [acc];
    [fuel] bounds their count. *)
Fixpoint digitsOf (fuel : nat) (z : Z) (acc : string) : string :=
  match fuel with
  | O => acc
  | S fuel' =>
      let acc' := String (digitChar (z mod 10)) acc in
      if z <? 10 then acc' else digitsOf fuel' (z / 10) acc'
  end.

(** [String(z)] of an integer. *)
Definition ofInteger (z : Z) : string :=
  if z <? 0
  then String "-" (digitsOf (S (Z.to_nat (Z.log2 (- z)))) (- z) EmptyString)
  else digitsOf (S (Z.to_nat (Z.log2 z))) z EmptyString.

(** [s.padStart(width, c)] *)
Definition padStart (width : nat) (c : ascii) (s : string) : string :=
  string_of_list_ascii (replicate (width - String.length s) c) +:+ s.

End JsString.

Module JsDate.

Definition msPerDay : Z := 86400000.

(** [ToIntegerOrInfinity] of a finite number: the integer it truncates to.
    [None] for NaN and the infinities, for which the operations below
    answer NaN. *)
Definition truncate (x : number) : option Z :=
  match Prim2SF x with
  | S754_zero _ => Some 0
  | S754_finite s m e =>
      let v := if 0 <=? e then Z.pos m * 2 ^ e else Z.pos m / 2 ^ (- e) in
      Some (if s then - v else v)
  | S754_infinity _ | S754_nan => None
  end.

(** The number of an integer: the nearest double. *)
Definition ofZ (z : Z) : number :=
  SF2Prim (binary_normalize prec emax z 0 false).

(** [a || b] on numbers: [b] when [a] is 0 or NaN. *)
Definition orElse (a b : number) : number :=
  if PrimFloat.is_zero a || PrimFloat.is_nan a then b else a.

(** Year, month (1 to 12) and day of the month of a day number, in the
    proleptic Gregorian calendar: the inverse of [IsoDate.daysFromCivil]. *)
Definition civilFromDays (z : Z) : Z * Z * Z :=
  let z := z + 719468 in
  let era := z / 146097 in
  let doe := z - era * 146097 in
  let yoe := (doe - doe / 1460 + doe / 36524 - doe / 146096) / 365 in
  let doy := doe - (365 * yoe + yoe / 4 - yoe / 100) in
  let mp := (5 * doy + 2) / 153 in
  let d := doy - (153 * mp + 2) / 5 + 1 in
  let m := if mp <? 10 then mp + 3 else mp - 9 in
  let y := yoe + era * 400 in
  (if m <=? 2 then y + 1 else y, m, d).

Definition Day (t : Z) : Z := t / msPerDay.

Definition TimeWithinDay (t : Z) : Z := t mod msPerDay.

(** 0 is Sunday; day 0 (1970-01-01) is a Thursday. *)
Definition WeekDay (t : Z) : Z := (Day t + 4) mod 7.

Definition YearFromTime (t : Z) : Z := (civilFromDays (Day t)).1.1.

(** 0 is January. *)
Definition MonthFromTime (t : Z) : Z := (civilFromDays (Day t)).1.2 - 1.

Definition DateFromTime (t : Z) : Z := (civilFromDays (Day t)).2.

(** The day number of day [date] of month [month] (0 is January; months
    and days outside their range carry over) of [year]. *)
Definition MakeDay (year month date : Z) : Z :=
  IsoDate.daysFromCivil (year + month / 12) (month mod 12 + 1) 1 + date - 1.

Definition MakeDate (day time : Z) : Z := day * msPerDay + time.

Definition TimeClip (t : Z) : option Z :=
  if Z.abs t <=? 8640000000000000 then Some t else None.

(** [Date.UTC(year, month, date)] for integers [month] and [date]. A year
    that truncates to 0..99 means 1900..1999. *)
Definition UTC (year : number) (month date : Z) : option Z :=
  match truncate year with
  | None => None
  | Some yi =>
      let yr := if (0 <=? yi) && (yi <=? 99) then 1900 + yi else yi in
      TimeClip (MakeDate (MakeDay yr month date) 0)
  end.

Definition getUTCDay (t : option Z) : number :=
  match t with
  | Some t => ofZ (WeekDay t)
  | None => nan
  end.

Definition getUTCDate (t : option Z) : number :=
  match t with
  | Some t => ofZ (DateFromTime t)
  | None => nan
  end.

(** The time value [setUTCDate(date)] leaves in a date object of time
    value [t]. *)
Definition setUTCDate (t : option Z) (date : number) : option Z :=
  match t, truncate date with
  | Some t, Some dt =>
      TimeClip (MakeDate (MakeDay (YearFromTime t) (MonthFromTime t) dt)
                  (TimeWithinDay t))
  | _, _ => None
  end.

(** [toISOString]: four digits for the years 0 to 9999, a sign and six
    digits for the others; a [RangeError] for an invalid date. *)
Definition toISOString (t : option Z) : completion string :=
  match t with
  | None => RangeError
  | Some t =>
      let '(y, m, d) := civilFromDays (Day t) in
      let ms := TimeWithinDay t in
      let year :=
        if (0 <=? y) && (y <=? 9999) then JsString.pad 4 y
        else (if y <? 0 then "-" else "+") +:+ JsString.pad 6 (Z.abs y) in
      Normal (year +:+ "-" +:+ JsString.pad 2 m +:+ "-" +:+ JsString.pad 2 d
              +:+ "T" +:+ JsString.pad 2 (ms / 3600000)
              +:+ ":" +:+ JsString.pad 2 (ms / 60000 mod 60)
              +:+ ":" +:+ JsString.pad 2 (ms / 1000 mod 60)
              +:+ "." +:+ JsString.pad 3 (ms mod 1000) +:+ "Z")
  end.

(** [a % b] for operands that are integers; NaN when one is not finite
    or [b] is 0. *)
Definition remainder (a b : number) : number :=
  match truncate a, truncate b with
  | Some x, Some y => if y =? 0 then nan else ofZ (Z.rem x y)
  | _, _ => nan
  end.

(** [Math.round]: the nearest integer, halves upwards. *)
Definition round (x : number) : number :=
  match Prim2SF x with
  | S754_finite s m e =>
      let n := if s then Z.neg m else Z.pos m in
      if 0 <=? e then x
      else ofZ ((2 * n + 2 ^ (- e)) / 2 ^ (- e + 1))
  | _ => x
  end.

(** [String(x)] of a number that is an integer or NaN. *)
Definition toText (x : number) : string :=
  match truncate x with
  | Some z => JsString.ofInteger z
  | None => "NaN"
  end.

Definition valueOf (t : option Z) : number :=
  match t with
  | Some t => ofZ t
  | None => nan
  end.

Definition getUTCFullYear (t : option Z) : number :=
  match t with
  | Some t => ofZ (YearFromTime t)
  | None => nan
  end.

(** The time value [setUTCMonth(month, date)] leaves in a date object of
    time value [t], for integers [month] and [date]. *)
Definition setUTCMonth (t : option Z) (month date : Z) : option Z :=
  match t with
  | Some t =>
      TimeClip (MakeDate (MakeDay (YearFromTime t) month date)
                  (TimeWithinDay t))
  | None => None
  end.

End JsDate.

(** ** The manual entry form (components/DistrictDetailPanel.tsx) *)

Module ManualEntryRow.
Record t := mk { id : string; isoWeek : string; cases : string }.
End ManualEntryRow.

(** [keyof ManualEntryRow] *)
Inductive ManualEntryField := field_id | field_isoWeek | field_cases.

(** [{ ...row, [field]: value }] *)
Definition setField (field : ManualEntryField) (value : string)
    (row : ManualEntryRow.t) : ManualEntryRow.t :=
  match field with
  | field_id =>
      ManualEntryRow.mk value (ManualEntryRow.isoWeek row)
        (ManualEntryRow.cases row)
  | field_isoWeek =>
      ManualEntryRow.mk (ManualEntryRow.id row) value (ManualEntryRow.cases row)
  | field_cases =>
      ManualEntryRow.mk (ManualEntryRow.id row) (ManualEntryRow.isoWeek row)
        value
  end.

(** [createManualEntryRow]; [randomId] is the text that
    [Math.random().toString(36).slice(2)] drew. *)
Definition createManualEntryRow (randomId : string) : ManualEntryRow.t :=
  ManualEntryRow.mk randomId EmptyString EmptyString.

(** The pieces of component state the row handlers write. *)
Record ManualForm := mkForm {
  manualRows : list ManualEntryRow.t;
  manualSubmitMessage : option string;
  manualSubmitError : option string
}.

Definition resetManualFeedback (st : ManualForm) : ManualForm :=
  mkForm (manualRows st) None None.

(** [setManualRows((rows) => f(rows))] *)
Definition setManualRows
    (f : list ManualEntryRow.t → list ManualEntryRow.t) (st : ManualForm)
    : ManualForm :=
  mkForm (f (manualRows st)) (manualSubmitMessage st) (manualSubmitError st).

Definition addManualRow (randomId : string) (st : ManualForm) : ManualForm :=
  setManualRows (λ rows, rows ++ [createManualEntryRow randomId])
    (resetManualFeedback st).

Definition updateManualRow (id : string) (field : ManualEntryField)
    (value : string) (st : ManualForm) : ManualForm :=
  setManualRows
    (λ rows,
       (λ row, if decide (ManualEntryRow.id row = id)
               then setField field value row else row) <$> rows)
    (resetManualFeedback st).

Definition removeManualRow (id : string) (st : ManualForm) : ManualForm :=
  setManualRows
    (λ rows,
       if bool_decide (length rows ≤ 1)%nat then rows
       else filter (λ row, ManualEntryRow.id row ≠ id) rows)
    (resetManualFeedback st).

(** The clicks and keystrokes that reach the three handlers, and the state
    after a sequence of them. The form only ever edits the week and the
    count of a row ([updateManualRow(row.id, 'isoWeek', ...)] and
    [updateManualRow(row.id, 'cases', ...)]). *)
Inductive FormEdit :=
  | AddRow (randomId : string)
  | EditWeek (id value : string)
  | EditCases (id value : string)
  | RemoveRow (id : string).

Definition edit (st : ManualForm) (e : FormEdit) : ManualForm :=
  match e with
  | AddRow randomId => addManualRow randomId st
  | EditWeek id value => updateManualRow id field_isoWeek value st
  | EditCases id value => updateManualRow id field_cases value st
  | RemoveRow id => removeManualRow id st
  end.

Definition edits (st : ManualForm) (es : list FormEdit) : ManualForm :=
  foldl edit st es.

(** types/forecast.ts *)
Module ManualObservation.
Record t := mk {
  district_id : string;
  week_start : string;
  cases : number;
  created_at : string
}.
End ManualObservation.

(** An element of [entries] in the body of the POST request. *)
Module ManualEntry.
Record t := mk { week_start : string; cases : number }.
End ManualEntry.

(** What [handleManualSubmit] does before it awaits the request: it sets
    an error message and returns, or it sends the entries. *)
Inductive SubmitOutcome :=
  | Rejected (manualSubmitError : string)
  | Posted (entries : list ManualEntry.t).

(** ** Sample inputs

    The inputs on which the theorems are instantiated and the code is
    evaluated: the two examples of the specification, the data of
    [fetchMockForecast] extended to thirty weeks, and small responses. *)
Module Samples.

(** Two observed weeks and one forecast week. *)
Definition twoWeeksAndForecast : ForecastResponse.t :=
  ForecastResponse.mk
    [HistoryPoint.mk "2024-01-01" 3%float observed;
     HistoryPoint.mk "2024-01-08" 5%float observed]
    [ForecastPoint.mk "2024-01-15" 1%float 9%float None]
    [].

(** A manual correction between two observed weeks. *)
Definition manualWeek : ForecastResponse.t :=
  ForecastResponse.mk
    [HistoryPoint.mk "2024-01-01" 3%float observed;
     HistoryPoint.mk "2024-01-08" 6%float manual;
     HistoryPoint.mk "2024-01-15" 4%float observed]
    []
    [].

(** A forecast week that is also an observed week, out of date order. *)
Definition overlap : ForecastResponse.t :=
  ForecastResponse.mk
    [HistoryPoint.mk "2024-01-08" 5%float observed;
     HistoryPoint.mk "2024-01-01" 3%float observed]
    [ForecastPoint.mk "2024-01-15" 2%float 11%float None;
     ForecastPoint.mk "2024-01-08" 1%float 9%float (Some 7%float)]
    [PendingWeek.mk "2024-01-22" 4%float].

(** [overlap] with each array in another order. *)
Definition overlapPermuted : ForecastResponse.t :=
  ForecastResponse.mk
    [HistoryPoint.mk "2024-01-01" 3%float observed;
     HistoryPoint.mk "2024-01-08" 5%float observed]
    [ForecastPoint.mk "2024-01-08" 1%float 9%float (Some 7%float);
     ForecastPoint.mk "2024-01-15" 2%float 11%float None]
    [PendingWeek.mk "2024-01-22" 4%float].

(** A synthetic week that is also pending, right after a manual week. *)
Definition pendingAfterManual : ForecastResponse.t :=
  ForecastResponse.mk
    [HistoryPoint.mk "2024-01-01" 6%float manual;
     HistoryPoint.mk "2024-01-08" 2%float synthetic]
    []
    [PendingWeek.mk "2024-01-08" 7%float].

(** Nothing but one forecast week. *)
Definition forecastOnly : ForecastResponse.t :=
  ForecastResponse.mk
    []
    [ForecastPoint.mk "2024-01-15" 1%float 9%float None]
    [].

(** Thirty observed weeks and three forecast weeks. *)
Definition thirtyWeeks : ForecastResponse.t :=
  ForecastResponse.mk
    [HistoryPoint.mk "2024-01-01" 3%float observed;
     HistoryPoint.mk "2024-01-08" 4%float observed;
     HistoryPoint.mk "2024-01-15" 5%float observed;
     HistoryPoint.mk "2024-01-22" 6%float observed;
     HistoryPoint.mk "2024-01-29" 7%float observed;
     HistoryPoint.mk "2024-02-05" 3%float observed;
     HistoryPoint.mk "2024-02-12" 4%float observed;
     HistoryPoint.mk "2024-02-19" 5%float observed;
     HistoryPoint.mk "2024-02-26" 6%float observed;
     HistoryPoint.mk "2024-03-04" 7%float observed;
     HistoryPoint.mk "2024-03-11" 3%float observed;
     HistoryPoint.mk "2024-03-18" 4%float observed;
     HistoryPoint.mk "2024-03-25" 5%float observed;
     HistoryPoint.mk "2024-04-01" 6%float observed;
     HistoryPoint.mk "2024-04-08" 7%float observed;
     HistoryPoint.mk "2024-04-15" 3%float observed;
     HistoryPoint.mk "2024-04-22" 4%float observed;
     HistoryPoint.mk "2024-04-29" 5%float observed;
     HistoryPoint.mk "2024-05-06" 6%float observed;
     HistoryPoint.mk "2024-05-13" 7%float observed;
     HistoryPoint.mk "2024-05-20" 3%float observed;
     HistoryPoint.mk "2024-05-27" 4%float observed;
     HistoryPoint.mk "2024-06-03" 5%float observed;
     HistoryPoint.mk "2024-06-10" 6%float observed;
     HistoryPoint.mk "2024-06-17" 7%float observed;
     HistoryPoint.mk "2024-06-24" 3%float observed;
     HistoryPoint.mk "2024-07-01" 4%float observed;
     HistoryPoint.mk "2024-07-08" 5%float observed;
     HistoryPoint.mk "2024-07-15" 6%float observed;
     HistoryPoint.mk "2024-07-22" 7%float observed]
    [ForecastPoint.mk "2024-07-29" 1%float 9%float None;
     ForecastPoint.mk "2024-08-05" 2%float 10%float None;
     ForecastPoint.mk "2024-08-12" 3%float 11%float None]
    [].

(** One week reported three times: observed, then corrected by hand, then
    filled. *)
Definition repeatedWeek : ForecastResponse.t :=
  ForecastResponse.mk
    [HistoryPoint.mk "2024-01-01" 3%float observed;
     HistoryPoint.mk "2024-01-01" 6%float manual;
     HistoryPoint.mk "2024-01-01" 2%float synthetic]
    [ForecastPoint.mk "2024-01-01" 1%float 9%float (Some 7%float)]
    [].

(** A response whose first case count overflowed to [Infinity] (the JSON
    text [1e999]) and whose second is [null]. *)
Definition invalidCounts : ApiData.t :=
  ApiData.mk
    (Some [ApiHistoryItem.mk "2024-01-01" (JsNumber infinity) None;
           ApiHistoryItem.mk "2024-01-08" JsNull (Some manual)])
    None
    None.

(** A response with two forecast items whose horizon is no finite number:
    [Infinity], and a text that is no numeric literal. *)
Definition invalidHorizon : ApiData.t :=
  ApiData.mk
    None
    (Some [ApiForecastItem.mk "2024-01-15" (JsNumber infinity)
             (JsNumber 9%float) JsNull;
           ApiForecastItem.mk "2024-01-22" (JsString "abc")
             (JsNumber 11%float) JsNull])
    None.

(** A response whose forecast item has the empty text for its actual
    value. *)
Definition emptyActual : ApiData.t :=
  ApiData.mk
    None
    (Some [ApiForecastItem.mk "2024-01-15" (JsNumber 1%float)
             (JsNumber 9%float) (JsString EmptyString)])
    None.

(** [Number] on the values of the samples, which hold no text and no
    object: exact on numbers, [null], booleans and [undefined]; NaN
    elsewhere, as [Number] answers for text that is no numeric literal. *)
Definition Number (v : JsValue) : number :=
  match v with
  | JsNumber n => n
  | JsNull => 0%float
  | JsBoolean b => if b then 1%float else 0%float
  | JsUndefined | JsString _ | JsObject => nan
  end.

(** [Number] on the texts of the entry form samples: a run of decimal
    digits is the number it writes and the empty text is 0, as [Number]
    answers; other text is taken for no numeric literal. *)
Fixpoint digitsValue (acc : Z) (s : string) : option Z :=
  match s with
  | EmptyString => Some acc
  | String c s' =>
      match IsoDate.digit c with
      | Some d => digitsValue (10 * acc + d) s'
      | None => None
      end
  end.

Definition decimalNumber (v : JsValue) : number :=
  match v with
  | JsString s =>
      match digitsValue 0 s with
      | Some z => JsDate.ofZ z
      | None => nan
      end
  | _ => Number v
  end.

(** [trim] on the texts of the entry form samples, whose only white space
    is the space character. *)
Fixpoint trimStart (s : string) : string :=
  match s with
  | String " " s' => trimStart s'
  | _ => s
  end.

Definition trimSpaces (s : string) : string :=
  String.rev (trimStart (String.rev (trimStart s))).

(** A form of two rows, the first one complete. *)
Definition twoRows : list ManualEntryRow.t :=
  [ManualEntryRow.mk "k3x9" "2024-W05" " 12 ";
   ManualEntryRow.mk "p7q2" "2024-W06" ""].

(** Three recorded observations, not in date order. *)
Definition threeObservations : list ManualObservation.t :=
  [ManualObservation.mk "1001" "2024-01-08" 4%float "2024-01-10T08:00:00Z";
   ManualObservation.mk "1001" "2024-01-22" 9%float "2024-01-23T08:00:00Z";
   ManualObservation.mk "1001" "2024-01-15" 6%float "2024-01-16T08:00:00Z"].

End Samples.

Section Dashboard.

(** [new Date(s).getTime()], [None] for NaN. *)
Variable getTime : string → option Z.

(** The built-in [Number] called as a function. *)
Variable Number : JsValue → number.

(** *** Sorting by date *)

Definition timeOf (row : ChartRow) : option Z := getTime (date row).

(** [(a, b) => new Date(a.date).getTime() - new Date(b.date).getTime()];
    a NaN result is read as [+0] by [sort]. *)
Definition byDate (a b : ChartRow) : Z :=
  match timeOf a, timeOf b with
  | Some x, Some y => x - y
  | _, _ => 0
  end.

(** [rows] before the connector pass. *)
Definition sortedRows (data : ForecastResponse.t) : list ChartRow :=
  sortBy byDate (mapValues (rowsMap data)).

(** [allRows]: the merged timeline. *)
Definition allRows (data : ForecastResponse.t) : list ChartRow :=
  connectorPass (sortedRows data).

(** *** The compact window *)

(** Comparisons of two time values; false as soon as one is NaN. *)
Definition timeGe (a b : option Z) : bool :=
  match a, b with
  | Some x, Some y => y <=? x
  | _, _ => false
  end.
Definition timeLe (a b : option Z) : bool :=
  match a, b with
  | Some x, Some y => x <=? y
  | _, _ => false
  end.
Definition timeGt (a b : option Z) : bool :=
  match a, b with
  | Some x, Some y => y <? x
  | _, _ => false
  end.

(** [row.hasHistory || row.isPending] as a condition. *)
Definition isTimelineRow (row : ChartRow) : bool :=
  hasHistory row || from_option id false (isPending row).

Definition timelineRows (rows : list ChartRow) : list ChartRow :=
  filter (λ row, isTimelineRow row) rows.

Definition inWindow (windowStartTime windowEndTime : option Z)
    (row : ChartRow) : bool :=
  timeGe (timeOf row) windowStartTime && timeLe (timeOf row) windowEndTime.

Definition compactBase (windowStartTime windowEndTime : option Z)
    (rows : list ChartRow) : list ChartRow :=
  filter (λ row, inWindow windowStartTime windowEndTime row) rows.

(** The callback of the second [rows.forEach], on the pair
    [(forecastIncluded, forecastTail)]. *)
Definition tailStep (windowEndTime : option Z) (forecastWindow : Z)
    (acc : Z * list ChartRow) (row : ChartRow) : Z * list ChartRow :=
  if timeGt (timeOf row) windowEndTime && notNull (forecastValue row)
     && (acc.1 <? forecastWindow)
  then (acc.1 + 1, acc.2 ++ [row])
  else acc.

Definition forecastTail (windowEndTime : option Z) (forecastWindow : Z)
    (rows : list ChartRow) : list ChartRow :=
  (foldl (tailStep windowEndTime forecastWindow) (0, []) rows).2.

(** [timelineRows[...]] of the window start. *)
Definition windowStartRow (timeline : list ChartRow) (historyWindow : Z)
    : option ChartRow :=
  if historyWindow <? Z.of_nat (length timeline)
  then rowAt timeline (Z.of_nat (length timeline) - historyWindow)
  else rowAt timeline 0.

(** [compactRows] from [rows]; the window sizes are integers. Reading
    [.date] of a missing element throws. *)
Definition selectWindow (rows : list ChartRow)
    (historyWindow forecastWindow : Z) : result (list ChartRow) :=
  let timeline := timelineRows rows in
  if bool_decide (length timeline = 0%nat) then Returns rows
  else
    match rowAt timeline (Z.of_nat (length timeline) - 1),
          windowStartRow timeline historyWindow with
    | Some lastRow, Some startRow =>
        let windowStartTime := timeOf startRow in
        let windowEndTime := timeOf lastRow in
        let compact :=
          compactBase windowStartTime windowEndTime rows
          ++ forecastTail windowEndTime forecastWindow rows in
        Returns (if bool_decide (length compact = 0%nat) then rows else compact)
    | _, _ => TypeError
    end.

Definition compactRows (data : ForecastResponse.t)
    (historyWindow forecastWindow : Z) : result (list ChartRow) :=
  selectWindow (allRows data) historyWindow forecastWindow.

(** [chartData = showFullRange ? allRows : compactRows]; both come out of
    one [useMemo], so a throw in the window computation loses both. *)
Definition chartData (data : ForecastResponse.t) (showFullRange : bool)
    (historyWindow forecastWindow : Z) : result (list ChartRow) :=
  match compactRows data historyWindow forecastWindow with
  | Returns compact => Returns (if showFullRange then allRows data else compact)
  | TypeError => TypeError
  end.

(** *** fetchForecast: normalising the response *)

Definition toNumeric (value : JsValue) : option number :=
  let parsed :=
    match value with
    | JsString _ => JsNumber (Number value)
    | _ => value
    end in
  match parsed with
  | JsNumber n => if isFinite n then Some n else None
  | _ => None
  end.

(** [toNumeric(v) ?? 0] *)
Definition numericOrZero (value : JsValue) : number :=
  default 0%float (toNumeric value).

Definition historyOfApi (item : ApiHistoryItem.t) : HistoryPoint.t :=
  HistoryPoint.mk (ApiHistoryItem.ds item)
    (numericOrZero (ApiHistoryItem.cases item))
    (default observed (ApiHistoryItem.source item)).

Definition forecastOfApi (item : ApiForecastItem.t) : ForecastPoint.t :=
  ForecastPoint.mk (ApiForecastItem.ds item)
    (Number match ApiForecastItem.h item with
            | JsUndefined | JsNull => JsNumber 0%float
            | v => v
            end)
    (numericOrZero (ApiForecastItem.prediction item))
    (toNumeric (ApiForecastItem.actual item)).

Definition pendingOfApi (item : ApiPendingItem.t) : PendingWeek.t :=
  PendingWeek.mk (ApiPendingItem.ds item)
    (numericOrZero (ApiPendingItem.prediction item)).

(** [transformed], the value stored as [forecast.data] and handed to the
    chart. *)
Definition transformed (apiData : ApiData.t) : ForecastResponse.t :=
  ForecastResponse.mk
    match ApiData.history apiData with
    | Some items => historyOfApi <$> items
    | None => []
    end
    match ApiData.forecast apiData with
    | Some items => forecastOfApi <$> items
    | None => []
    end
    match ApiData.pending_weeks apiData with
    | Some items => pendingOfApi <$> items
    | None => []
    end.


(** *** The manual entry form *)

Section EntryForm.

(** [String.prototype.trim]. *)
Variable trim : string → string.

(** The district record of data/districts; the entry form only asks
    whether one is selected. *)
Variable District : Type.

(** A text that may be [undefined], as an argument of [Number]. *)
Definition jsText (s : option string) : JsValue :=
  match s with
  | Some s => JsString s
  | None => JsUndefined
  end.

(** [isoWeekToDate]: the date (YYYY-MM-DD) of the Monday of an ISO week
    written [YYYY-Www]. [new Date(t)] of a time value and of a date object
    keeps the time value. *)
Definition isoWeekToDate (value : string) : completion (option string) :=
  if decide (value = EmptyString) then Normal None
  else
    let parts := JsString.split "-W" value in
    let year := Number (jsText (parts !! 0%nat)) in
    let week := Number (jsText (parts !! 1%nat)) in
    if negb (isFinite year) || negb (isFinite week) then Normal None
    else
      let firstThursday := JsDate.UTC year 0 4 in
      let day := JsDate.orElse (JsDate.getUTCDay firstThursday) 7%float in
      let weekStart :=
        JsDate.setUTCDate firstThursday
          (JsDate.getUTCDate firstThursday - day + 1 + (week - 1) * 7)%float in
      match JsDate.toISOString weekStart with
      | Normal s => Normal (Some (substring 0 10 s))
      | RangeError => RangeError
      end.

(** [dateToIsoWeek]: the ISO week [YYYY-Www] of a date. The date getters
    of the valid date [target] are integers. *)
Definition dateToIsoWeek (value : string) : string :=
  match getTime value with
  | None => value
  | Some target =>
      let date :=
        JsDate.UTC (JsDate.ofZ (JsDate.YearFromTime target))
          (JsDate.MonthFromTime target) (JsDate.DateFromTime target) in
      let dayNumber :=
        JsDate.remainder (JsDate.getUTCDay date + 6)%float 7%float in
      let date :=
        JsDate.setUTCDate date
          (JsDate.getUTCDate date - dayNumber + 3)%float in
      let firstThursday := JsDate.valueOf date in
      let date := JsDate.setUTCMonth date 0 4 in
      let weekNumber :=
        (1 + JsDate.round
               ((firstThursday - JsDate.valueOf date) / 604800000))%float in
      JsDate.toText (JsDate.getUTCFullYear date) +:+ "-W"
      +:+ JsString.padStart 2 "0" (JsDate.toText weekNumber)
  end.

(** A [string | null] used as a condition. *)
Definition truthy (s : option string) : bool :=
  match s with
  | Some s => negb (String.eqb s EmptyString)
  | None => false
  end.

(** The callback of [manualRows.reduce] in [manualRowsReadyCount]. *)
Definition readyStep (count : Z) (row : ManualEntryRow.t) : completion Z :=
  match isoWeekToDate (ManualEntryRow.isoWeek row) with
  | RangeError => RangeError
  | Normal weekStart =>
      let trimmed := trim (ManualEntryRow.cases row) in
      let casesValue := Number (JsString trimmed) in
      let hasValue :=
        negb (String.eqb trimmed EmptyString) && isFinite casesValue in
      Normal (if truthy weekStart && hasValue then count + 1 else count)
  end.

Definition manualRowsReadyCount (rows : list ManualEntryRow.t) : completion Z :=
  foldl (λ acc row,
           match acc with
           | Normal count => readyStep count row
           | RangeError => RangeError
           end)
    (Normal 0) rows.

(** [manualSubmitting || manualRowsReadyCount === 0]; the count is computed
    first, while the component renders. *)
Definition manualSubmitDisabled (manualSubmitting : bool)
    (rows : list ManualEntryRow.t) : completion bool :=
  match manualRowsReadyCount rows with
  | Normal count => Normal (manualSubmitting || (count =? 0))
  | RangeError => RangeError
  end.

(** The callback of [manualRows.map] in [handleManualSubmit]. *)
Definition entryOf (row : ManualEntryRow.t)
    : completion (option ManualEntry.t) :=
  match isoWeekToDate (ManualEntryRow.isoWeek row) with
  | RangeError => RangeError
  | Normal weekStart =>
      let trimmed := trim (ManualEntryRow.cases row) in
      let casesValue := Number (JsString trimmed) in
      if negb (truthy weekStart) || String.eqb trimmed EmptyString
         || negb (isFinite casesValue)
      then Normal None
      else Normal ((λ w, ManualEntry.mk w casesValue) <$> weekStart)
  end.

(** [rows.map(f)] for a callback that may throw. *)
Fixpoint mapRows {A B} (f : A → completion B) (rows : list A)
    : completion (list B) :=
  match rows with
  | [] => Normal []
  | row :: rows' =>
      match f row with
      | RangeError => RangeError
      | Normal b =>
          match mapRows f rows' with
          | RangeError => RangeError
          | Normal bs => Normal (b :: bs)
          end
      end
  end.

(** [manualRows.map(...).filter(Boolean)] *)
Definition entries (rows : list ManualEntryRow.t)
    : completion (list ManualEntry.t) :=
  match mapRows entryOf rows with
  | RangeError => RangeError
  | Normal items => Normal (omap id items)
  end.

Definition handleManualSubmit (district : option District)
    (apiBaseUrl : string) (rows : list ManualEntryRow.t)
    : completion SubmitOutcome :=
  match district with
  | None => Normal (Rejected "กรุณาเลือกอำเภอก่อนบันทึก")
  | Some _ =>
      if decide (apiBaseUrl = EmptyString)
      then Normal (Rejected "กรุณาตั้งค่า API URL ก่อน")
      else
        match entries rows with
        | RangeError => RangeError
        | Normal items =>
            if bool_decide (length items = 0%nat)
            then Normal (Rejected
                   "กรุณาเลือกสัปดาห์และระบุจำนวนผู้ป่วยอย่างน้อย 1 แถว")
            else Normal (Posted items)
        end
  end.

End EntryForm.

Arguments handleManualSubmit trim {District} district apiBaseUrl rows.

(** The comparator of [manualObservationsSorted]: later weeks first. *)
Definition byWeekStart (a b : ManualObservation.t) : Z :=
  match getTime (ManualObservation.week_start b),
        getTime (ManualObservation.week_start a) with
  | Some x, Some y => x - y
  | _, _ => 0
  end.

Definition manualObservationsSorted (records : list ManualObservation.t)
    : list ManualObservation.t :=
  sortBy byWeekStart records.

(** [manualObservationsSorted[0] ?? null] *)
Definition lastManualObservation (records : list ManualObservation.t)
    : option ManualObservation.t :=
  head (manualObservationsSorted records).

(** *** Vocabulary of the theorems *)

(** Order of two rows by calendar date; no row with an invalid date is
    before or after another. *)
Definition dateLe (a b : ChartRow) : Prop :=
  match timeOf a, timeOf b with
  | Some x, Some y => x ≤ y
  | _, _ => False
  end.

Definition dateLt (a b : ChartRow) : Prop :=
  match timeOf a, timeOf b with
  | Some x, Some y => x < y
  | _, _ => False
  end.

(** The strings are calendar dates in one encoding: each one denotes a
    date, and two of them denote the same date only if they are the same
    string. *)
Definition CalendarDates (ds : list string) : Prop :=
  (∀ d, d ∈ ds → is_Some (getTime d))
  ∧ (∀ d1 d2, d1 ∈ ds → d2 ∈ ds → getTime d1 = getTime d2 → d1 = d2).

(** A timeline as the merge produces it: every date is valid and the dates
    strictly ascend. *)
Definition Chronological (rows : list ChartRow) : Prop :=
  Forall (λ r, is_Some (timeOf r)) rows ∧ StronglySorted dateLt rows.

#[global] Instance dateLe_dec a b : Decision (dateLe a b).
Proof. unfold dateLe. destruct (timeOf a), (timeOf b); apply _. Defined.

#[global] Instance dateLt_dec a b : Decision (dateLt a b).
Proof. unfold dateLt. destruct (timeOf a), (timeOf b); apply _. Defined.

(** ** Facts about rows *)

Lemma row_eta (r : ChartRow) :
  mkRow (date r) (actualReal r) (filledValue r) (filledLineValue r)
    (forecastValue r) (actualSource r) (filledSource r) (hasHistory r)
    (hasForecast r) (isPending r) (manualConnector r) = r.
Proof. by destruct r. Qed.

Lemma dataOf_date r : date (dataOf r) = date r.
Proof. done. Qed.
Lemma dataOf_actualReal r : actualReal (dataOf r) = actualReal r.
Proof. done. Qed.
Lemma dataOf_filledValue r : filledValue (dataOf r) = filledValue r.
Proof. done. Qed.
Lemma dataOf_forecastValue r : forecastValue (dataOf r) = forecastValue r.
Proof. done. Qed.
Lemma dataOf_actualSource r : actualSource (dataOf r) = actualSource r.
Proof. done. Qed.
Lemma dataOf_filledSource r : filledSource (dataOf r) = filledSource r.
Proof. done. Qed.
Lemma dataOf_hasHistory r : hasHistory (dataOf r) = hasHistory r.
Proof. done. Qed.
Lemma dataOf_hasForecast r : hasForecast (dataOf r) = hasForecast r.
Proof. done. Qed.
Lemma dataOf_isPending r : isPending (dataOf r) = isPending r.
Proof. done. Qed.

(** The pairings of a value with its source tag and of the forecast flag
    with the forecast value, which every write keeps. *)
Definition tagsAgree (r : ChartRow) : Prop :=
  (is_Some (actualReal r) ↔ is_Some (actualSource r))
  ∧ (is_Some (filledValue r) ↔ is_Some (filledSource r))
  ∧ (hasForecast r = true ↔ is_Some (forecastValue r))
  ∧ (actualSource r = None ∨ actualSource r = Some observed
     ∨ actualSource r = Some manual)
  ∧ (actualSource r = Some manual → hasHistory r = true)
  ∧ (filledSource r = Some fill_synthetic
     ∨ filledSource r = Some fill_seasonal_clone → hasHistory r = true).

(** The pending flag and the pending fill source go together, because the
    history loop runs before the pending loop. *)
Definition pendingAgrees (r : ChartRow) : Prop :=
  (isPending r = None ∨ isPending r = Some true)
  ∧ (isPending r = Some true ↔ filledSource r = Some fill_pending).

Definition rowIds (st : ManualForm) : list string :=
  ManualEntryRow.id <$> manualRows st.

(** The identifiers drawn for added rows are new at the moment they are
    drawn. *)
Fixpoint FreshIds (st : ManualForm) (es : list FormEdit) : Prop :=
  match es with
  | [] => True
  | e :: es' =>
      match e with
      | AddRow randomId => randomId ∉ rowIds st
      | _ => True
      end
      ∧ FreshIds (edit st e) es'
  end.

(** The part of [isoWeekToDate] after the year and the week are read. *)
Definition weekStartOf (year week : number) : completion (option string) :=
  let firstThursday := JsDate.UTC year 0 4 in
  let day := JsDate.orElse (JsDate.getUTCDay firstThursday) 7%float in
  let weekStart :=
    JsDate.setUTCDate firstThursday
      (JsDate.getUTCDate firstThursday - day + 1 + (week - 1) * 7)%float in
  match JsDate.toISOString weekStart with
  | Normal s => Normal (Some (substring 0 10 s))
  | RangeError => RangeError
  end.

(** The part of [dateToIsoWeek] after the date is read. *)
Definition weekOfTime (target : Z) : string :=
  let date :=
    JsDate.UTC (JsDate.ofZ (JsDate.YearFromTime target))
      (JsDate.MonthFromTime target) (JsDate.DateFromTime target) in
  let dayNumber :=
    JsDate.remainder (JsDate.getUTCDay date + 6)%float 7%float in
  let date :=
    JsDate.setUTCDate date (JsDate.getUTCDate date - dayNumber + 3)%float in
  let firstThursday := JsDate.valueOf date in
  let date := JsDate.setUTCMonth date 0 4 in
  let weekNumber :=
    (1 + JsDate.round
           ((firstThursday - JsDate.valueOf date) / 604800000))%float in
  JsDate.toText (JsDate.getUTCFullYear date) +:+ "-W"
  +:+ JsString.padStart 2 "0" (JsDate.toText weekNumber).

(** The day number of the Monday of ISO week [w] of year [y]: week 1 is
    the week (Monday to Sunday) of 4 January, and day 0 is a Thursday. *)
Definition mondayOfWeek (y w : Z) : Z :=
  let j := IsoDate.daysFromCivil y 1 4 + 7 * (w - 1) in
  j - (j + 3) mod 7.

(** The number of ISO weeks of year [y]: 53 when 1 January is a Thursday,
    or a Wednesday in a leap year. *)
Definition weeksInYear (y : Z) : Z :=
  let weekDay := (IsoDate.daysFromCivil y 1 1 + 4) mod 7 in
  if (weekDay =? 4) || (IsoDate.isLeap y && (weekDay =? 3)) then 53 else 52.

(** [f] holds of the [n] integers from [z] on. *)
Fixpoint allFrom (n : nat) (z : Z) (f : Z → bool) : bool :=
  match n with
  | O => true
  | S n' => f z && allFrom n' (z + 1) f
  end.

(** What is evaluated for week [w] of year [y]: the date of the week is
    the text of its Monday, and the week of that Monday is the week again
    when the year has a week [w]. *)
Definition checkWeek (y w : Z) : bool :=
  isFinite (JsDate.ofZ y) && isFinite (JsDate.ofZ w)
  && match weekStartOf (JsDate.ofZ y) (JsDate.ofZ w) with
     | Normal (Some s) =>
         bool_decide
           (IsoDate.getTime s = Some (mondayOfWeek y w * JsDate.msPerDay))
         && ((weeksInYear y <? w)
             || bool_decide
                  (weekOfTime (mondayOfWeek y w * JsDate.msPerDay)
                   = JsString.pad 4 y +:+ "-W" +:+ JsString.pad 2 w))
     | _ => false
     end.

(** A response field is numerically invalid, in the words of the
    specification non-numeric or non-finite: it is neither a number nor a
    text ([undefined], [null], a boolean, an object), or it is a number
    that is not finite (NaN, an infinity), or a text that [Number] does not
    read as a finite number. *)
Definition invalidField (v : JsValue) : Prop :=
  match v with
  | JsNumber n => isFinite n = false
  | JsString s => isFinite (Number (JsString s)) = false
  | JsUndefined | JsNull | JsBoolean _ | JsObject => True
  end.

(** The finite number [n] a valid field stands for: the field is that
    number, or a text that [Number] reads as it. *)
Definition fieldNumber (v : JsValue) (n : number) : Prop :=
  isFinite n = true
  ∧ (v = JsNumber n ∨ ∃ s, v = JsString s ∧ n = Number (JsString s)).

(** [notEarlier a b]: both week starts are valid dates and that of [a] is
    not before that of [b]. *)
Definition notEarlier (a b : ManualObservation.t) : Prop :=
  match getTime (ManualObservation.week_start a),
        getTime (ManualObservation.week_start b) with
  | Some x, Some y => y ≤ x
  | _, _ => False
  end.

(** Reads a field of a row off its data. *)
Ltac data_fields :=
  rewrite ?dataOf_date, ?dataOf_actualReal, ?dataOf_filledValue,
    ?dataOf_forecastValue, ?dataOf_actualSource, ?dataOf_filledSource,
    ?dataOf_hasHistory, ?dataOf_hasForecast, ?dataOf_isPending.

Lemma historyWrite_date point r : date (historyWrite point r) = date r.
Proof. unfold historyWrite. by destruct (HistoryPoint.source point). Qed.

Lemma pendingWrite_date point r : date (pendingWrite point r) = date r.
Proof. done. Qed.

Lemma forecastWrite_date point r : date (forecastWrite point r) = date r.
Proof.
  unfold forecastWrite; simpl.
  destruct (actualReal r), (ForecastPoint.actual point) as [a|];
    try done.
  by destruct (isFinite a).
Qed.

(** ** The map *)

Lemma mapHas_elem k (m : RowsMap) : mapHas k m = true ↔ k ∈ m.*1.
Proof. unfold mapHas. by rewrite bool_decide_eq_true. Qed.

Lemma mapGet_None k (m : RowsMap) : mapGet k m = None ↔ k ∉ m.*1.
Proof.
  induction m as [|[k' r] m IH]; csimpl.
  - split; [intros _; apply not_elem_of_nil|done].
  - rewrite not_elem_of_cons. case_decide; naive_solver.
Qed.

Lemma mapGet_elem k r (m : RowsMap) : mapGet k m = Some r → (k, r) ∈ m.
Proof.
  induction m as [|[k' r'] m IH]; csimpl; [done|].
  case_decide; intros; simplify_eq; [left|right; auto].
Qed.

Lemma elem_mapGet k r (m : RowsMap) :
  NoDup m.*1 → (k, r) ∈ m → mapGet k m = Some r.
Proof.
  induction m as [|[k' r'] m IH]; csimpl; [by intros _ ?%elem_of_nil|].
  rewrite NoDup_cons, elem_of_cons. intros [Hk Hm] [?|Hin]; simplify_eq.
  - by rewrite decide_True.
  - rewrite decide_False; [auto|].
    intros ->. apply Hk. by apply (list_elem_of_fmap_2 fst _ (k, r)).
Qed.

Lemma mapSet_fresh k v (m : RowsMap) : k ∉ m.*1 → mapSet k v m = m ++ [(k, v)].
Proof.
  induction m as [|[k' r'] m IH]; csimpl; [done|].
  rewrite not_elem_of_cons. intros [? ?].
  rewrite decide_False by done. by rewrite IH.
Qed.

Lemma getRow_present k (m : RowsMap) : k ∈ m.*1 → getRow k m = m.
Proof. intros H. unfold getRow. by apply mapHas_elem in H as ->. Qed.

Lemma getRow_fresh k (m : RowsMap) :
  k ∉ m.*1 → getRow k m = m ++ [(k, newRow k)].
Proof.
  intros H. unfold getRow. destruct (mapHas k m) eqn:E.
  - by apply mapHas_elem in E.
  - by apply mapSet_fresh.
Qed.

Lemma writeRow_keys k f (m : RowsMap) : (writeRow k f m).*1 = m.*1.
Proof.
  induction m as [|[k' r'] m IH]; csimpl; [done|].
  case_decide; csimpl; [done|by rewrite IH].
Qed.

Lemma mapGet_writeRow k f k' (m : RowsMap) :
  mapGet k' (writeRow k f m)
  = if decide (k = k') then f <$> mapGet k m else mapGet k' m.
Proof.
  induction m as [|[k0 r0] m IH]; csimpl; [by case_decide|].
  destruct (decide (k0 = k)) as [->|?]; csimpl.
  - by destruct (decide (k = k')) as [->|?].
  - rewrite IH. destruct (decide (k = k')) as [->|?]; [|done].
    by rewrite decide_False.
Qed.

Lemma mapGet_app k (m1 m2 : RowsMap) :
  mapGet k (m1 ++ m2) = nullish (mapGet k m1) (mapGet k m2).
Proof.
  induction m1 as [|[k0 r0] m1 IH]; csimpl; [done|].
  by case_decide.
Qed.

Lemma writeStep_keys (m : RowsMap) (w : Write) :
  (writeStep m w).*1 = if decide (w.1 ∈ m.*1) then m.*1 else m.*1 ++ [w.1].
Proof.
  unfold writeStep. rewrite writeRow_keys. case_decide.
  - by rewrite getRow_present.
  - rewrite getRow_fresh by done. by rewrite fmap_app.
Qed.

Lemma mapGet_writeStep (m : RowsMap) (w : Write) k :
  mapGet k (writeStep m w)
  = if decide (w.1 = k) then Some (w.2 (default (newRow k) (mapGet k m)))
    else mapGet k m.
Proof.
  unfold writeStep. rewrite mapGet_writeRow.
  destruct (decide (w.1 ∈ m.*1)) as [Hin|Hin].
  - rewrite getRow_present by done. case_decide; [subst|done].
    destruct (mapGet w.1 m) eqn:E; [done|].
    by apply mapGet_None in E.
  - rewrite getRow_fresh by done. rewrite !mapGet_app.
    apply mapGet_None in Hin as Hn. csimpl.
    case_decide; subst.
    + rewrite Hn; csimpl. by rewrite ?decide_True.
    + by destruct (mapGet k m).
Qed.

Lemma writeSteps_keys_elem (ws : list Write) (m : RowsMap) k :
  k ∈ (foldl writeStep m ws).*1 ↔ k ∈ m.*1 ∨ k ∈ ws.*1.
Proof.
  revert m. induction ws as [|w ws IH]; intros m; csimpl.
  - rewrite elem_of_nil. naive_solver.
  - rewrite IH, writeStep_keys, elem_of_cons.
    case_decide; [|rewrite elem_of_app, list_elem_of_singleton];
      naive_solver.
Qed.

Lemma writeSteps_keys_NoDup (ws : list Write) (m : RowsMap) :
  NoDup m.*1 → NoDup (foldl writeStep m ws).*1.
Proof.
  revert m. induction ws as [|w ws IH]; intros m Hm; csimpl; [done|].
  apply IH. rewrite writeStep_keys. case_decide; [done|].
  apply NoDup_app. split_and!; [done| |apply NoDup_singleton].
  intros x Hx ->%list_elem_of_singleton. done.
Qed.

Lemma applyTo_app k ws1 ws2 r :
  applyTo k (ws1 ++ ws2) r = applyTo k ws2 (applyTo k ws1 r).
Proof. apply foldl_app. Qed.

Lemma applyTo_absent k (ws : list Write) r : k ∉ ws.*1 → applyTo k ws r = r.
Proof.
  revert r. induction ws as [|w ws IH]; intros r; csimpl; [done|].
  rewrite not_elem_of_cons. intros [? ?]. unfold applyTo; csimpl.
  rewrite decide_False by done. by apply IH.
Qed.

Lemma mapGet_writeSteps (ws : list Write) (m : RowsMap) k :
  mapGet k (foldl writeStep m ws)
  = match mapGet k m with
    | Some r => Some (applyTo k ws r)
    | None =>
        if decide (k ∈ ws.*1) then Some (applyTo k ws (newRow k)) else None
    end.
Proof.
  revert m. induction ws as [|w ws IH]; intros m; csimpl.
  - by destruct (mapGet k m).
  - rewrite IH, mapGet_writeStep.
    destruct (decide (w.1 = k)) as [->|Hne].
    + destruct (mapGet _ m); csimpl; [done|].
      rewrite decide_True; [done|]. apply elem_of_cons. by left.
    + destruct (mapGet k m); [done|].
      destruct (decide (k ∈ ws.*1)) as [Hin|Hin].
      * rewrite decide_True; [done|]. apply elem_of_cons. by right.
      * rewrite decide_False; [done|].
        rewrite not_elem_of_cons. naive_solver.
Qed.

(** A property of the stored rows that fresh rows have and every write
    keeps holds of the whole map. *)
Lemma writeSteps_invariant (P : string → ChartRow → Prop)
    (ws : list Write) (m : RowsMap) :
  (∀ k, P k (newRow k)) →
  Forall (λ w : Write, ∀ k r, P k r → P k (w.2 r)) ws →
  Forall (λ kr : string * ChartRow, P kr.1 kr.2) m →
  Forall (λ kr : string * ChartRow, P kr.1 kr.2) (foldl writeStep m ws).
Proof.
  intros Hnew. revert m.
  induction ws as [|w ws IH]; intros m Hws Hm; csimpl; [done|].
  inv Hws. apply IH; [done|].
  unfold writeStep.
  assert (Forall (λ kr : string * ChartRow, P kr.1 kr.2) (getRow w.1 m))
    as Hg.
  { destruct (decide (w.1 ∈ m.*1)).
    - by rewrite getRow_present.
    - rewrite getRow_fresh by done. apply Forall_app. split; [done|].
      by repeat constructor. }
  revert Hg. generalize (getRow w.1 m). intros m'.
  induction 1 as [|[k0 r0] m0 ? ? IHm]; csimpl; [done|].
  case_decide; constructor; csimpl in *; auto.
Qed.

(** ** The connector pass *)

Lemma rowAt_nat (rows : list ChartRow) (j : nat) :
  rowAt rows (Z.of_nat j) = rows !! j.
Proof.
  unfold rowAt. destruct (Z.ltb_spec (Z.of_nat j) 0); [lia|].
  by rewrite Nat2Z.id.
Qed.

Lemma linkNeighbor_lookup (rows : list ChartRow) i b (j : nat) :
  linkNeighbor rows i b !! j
  = if decide (Z.of_nat j = i) then linkRow b <$> rows !! j else rows !! j.
Proof.
  unfold linkNeighbor, rowAt.
  destruct (Z.ltb_spec i 0) as [Hi|Hi].
  { rewrite decide_False by lia. done. }
  destruct (decide (Z.of_nat j = i)) as [<-|Hne].
  - rewrite Nat2Z.id. destruct (rows !! j) as [nb|] eqn:E; [|by rewrite E].
    unfold linkRow. csimpl.
    destruct (notNull (manualConnector nb)); [by rewrite E|].
    destruct (bestValue nb); [|by rewrite E].
    rewrite list_lookup_insert_eq; [done|by eapply lookup_lt_Some].
  - destruct (rows !! Z.to_nat i) as [nb|]; [|done].
    destruct (notNull (manualConnector nb)); [done|].
    destruct (bestValue nb); [|done].
    rewrite list_lookup_insert_ne; [done|lia].
Qed.

Lemma visitRow_other (rows : list ChartRow) k r :
  rows !! k = Some r → isManual r = false → visitRow rows k = rows.
Proof. intros E H. unfold visitRow. by rewrite E, H. Qed.

Lemma visitRow_lookup (rows : list ChartRow) k r (j : nat) :
  rows !! k = Some r → isManual r = true →
  visitRow rows k !! j
  = if decide (j = k) then Some (selfRow r)
    else if decide (S j = k) then linkRow false <$> rows !! j
    else if decide (j = S k) then linkRow true <$> rows !! j
    else rows !! j.
Proof.
  intros E H. unfold visitRow. rewrite E, H. csimpl.
  rewrite !linkNeighbor_lookup.
  assert (k < length rows)%nat by by eapply lookup_lt_Some.
  destruct (decide (j = k)) as [->|?];
    [rewrite list_lookup_insert_eq by done
    |rewrite list_lookup_insert_ne by done];
    repeat case_decide; try lia; done.
Qed.

Lemma isManual_best r : isManual r = true → bestValue r = actualReal r.
Proof.
  unfold isManual, bestValue.
  destruct (actualSource r) as [[]|]; try done. by destruct (actualReal r).
Qed.

Lemma isManual_notNull r : isManual r = true → notNull (actualReal r) = true.
Proof. unfold isManual. by destruct (actualSource r) as [[]|]. Qed.

Lemma settleWith_isManual p s n r : isManual (settleWith p s n r) = isManual r.
Proof.
  unfold settleWith.
  by destruct (p || s || n), (s || p && notNull (bestValue r)).
Qed.

Lemma settleWith_self p r :
  isManual r = true →
  selfRow (settleWith p false false r) = settleWith p true false r.
Proof.
  intros H. pose proof (isManual_best _ H) as Hb.
  pose proof (isManual_notNull _ H) as Hn.
  unfold settleWith, selfRow. rewrite Hb, Hn.
  destruct r, p; simpl in *; reflexivity.
Qed.

Lemma settleWith_prev p s r :
  manualConnector r = None → (s = true → isManual r = true) →
  linkRow false (settleWith p s false r) = settleWith p s true r.
Proof.
  intros Hc Hs. unfold settleWith, linkRow, bestValue.
  destruct s.
  - specialize (Hs eq_refl). pose proof (isManual_notNull _ Hs) as Hn.
    destruct r as [d [a|] fv fl fc asrc fs hh hf ip mc]; simpl in *;
      [|done]. by destruct p.
  - clear Hs.
    destruct r as [d [a|] [fv|] fl [fc|] asrc fs hh hf ip mc], p;
      simpl in *; subst; reflexivity.
Qed.

Lemma settleWith_next r :
  manualConnector r = None →
  linkRow true (settleWith false false false r) = settleWith true false false r.
Proof.
  intros Hc. unfold settleWith, linkRow, bestValue.
  destruct r as [d [a|] [fv|] [fl|] [fc|] asrc fs hh hf ip mc];
    simpl in *; subst; reflexivity.
Qed.

Lemma claimed_S rows k i :
  claimed rows (S k) i
  = claimed rows k i || (manualAt rows i && (i =? Z.of_nat k)).
Proof.
  unfold claimed. destruct (manualAt rows i); [|done]. simpl.
  destruct (Z.ltb_spec i (Z.of_nat (S k))), (Z.ltb_spec i (Z.of_nat k)),
    (Z.eqb_spec i (Z.of_nat k)); simpl; try done; lia.
Qed.

Lemma claimed_ge rows k i : Z.of_nat k ≤ i → claimed rows k i = false.
Proof.
  intros. unfold claimed. destruct (Z.ltb_spec i (Z.of_nat k)); [lia|].
  by rewrite andb_false_r.
Qed.

Lemma claimed_S_ne rows k i :
  i ≠ Z.of_nat k → claimed rows (S k) i = claimed rows k i.
Proof.
  intros. rewrite claimed_S. destruct (Z.eqb_spec i (Z.of_nat k)); [done|].
  by rewrite andb_false_r, orb_false_r.
Qed.

Lemma claimed_S_eq rows k :
  claimed rows (S k) (Z.of_nat k) = manualAt rows (Z.of_nat k).
Proof.
  rewrite claimed_S, claimed_ge by lia. rewrite Z.eqb_refl.
  by rewrite andb_true_r.
Qed.

Lemma manualAt_nat rows (j : nat) r :
  rows !! j = Some r → manualAt rows (Z.of_nat j) = isManual r.
Proof. intros E. unfold manualAt. by rewrite rowAt_nat, E. Qed.

Lemma claimed_lt rows k (j : nat) r :
  rows !! j = Some r → (j < k)%nat →
  claimed rows k (Z.of_nat j) = isManual r.
Proof.
  intros E Hj. unfold claimed. rewrite (manualAt_nat _ _ _ E).
  destruct (Z.ltb_spec (Z.of_nat j) (Z.of_nat k)); [|lia].
  by rewrite andb_true_r.
Qed.

(** One visit takes the settled array one index further. *)
Lemma visitRow_settle (rows : list ChartRow) k :
  Forall (λ r, manualConnector r = None) rows →
  (k < length rows)%nat →
  visitRow (imap (settle rows k) rows) k = imap (settle rows (S k)) rows.
Proof.
  intros Hc Hk.
  destruct (lookup_lt_is_Some_2 rows k Hk) as [rk Ek].
  assert (imap (settle rows k) rows !! k = Some (settle rows k k rk)) as Est
    by by rewrite list_lookup_imap, Ek.
  assert (isManual (settle rows k k rk) = isManual rk) as Hm
    by apply settleWith_isManual.
  destruct (isManual rk) eqn:Hrk.
  - apply list_eq; intros j.
    rewrite (visitRow_lookup _ _ _ _ Est Hm), !list_lookup_imap.
    destruct (rows !! j) as [r|] eqn:Ej; csimpl;
      [|destruct (decide (j = k)) as [->|?]; [congruence|];
        by repeat destruct (decide _)].
    assert (manualConnector r = None) as Hcr.
    { rewrite Forall_forall in Hc. apply Hc.
      by eapply list_elem_of_lookup_2. }
    unfold settle.
    destruct (decide (j = k)) as [->|Hjk].
    + simplify_eq. f_equal.
      rewrite claimed_S_eq, (manualAt_nat _ _ _ Ek), Hrk.
      rewrite (claimed_ge rows k (Z.of_nat k)),
        (claimed_ge rows k (Z.of_nat k + 1)),
        (claimed_ge rows (S k) (Z.of_nat k + 1)),
        (claimed_S_ne rows k (Z.of_nat k - 1)) by lia.
      by apply settleWith_self.
    + destruct (decide (S j = k)) as [<-|HSj];
        [|destruct (decide (j = S k)) as [->|Hj]].
      * f_equal.
        replace (Z.of_nat j + 1) with (Z.of_nat (S j)) by lia.
        rewrite (claimed_S_eq rows (S j)), (manualAt_nat _ _ _ Ek), Hrk.
        rewrite (claimed_ge rows (S j) (Z.of_nat (S j))),
          (claimed_S_ne rows (S j) (Z.of_nat j - 1)),
          (claimed_S_ne rows (S j) (Z.of_nat j)) by lia.
        apply settleWith_prev; [done|].
        rewrite (claimed_lt _ _ _ _ Ej) by lia. done.
      * f_equal.
        replace (Z.of_nat (S k) - 1) with (Z.of_nat k) by lia.
        rewrite (claimed_S_eq rows k), (manualAt_nat _ _ _ Ek), Hrk.
        rewrite (claimed_ge rows k (Z.of_nat k)),
          (claimed_ge rows k (Z.of_nat (S k))),
          (claimed_ge rows k (Z.of_nat (S k) + 1)),
          (claimed_ge rows (S k) (Z.of_nat (S k))),
          (claimed_ge rows (S k) (Z.of_nat (S k) + 1)) by lia.
        by apply settleWith_next.
      * f_equal. by rewrite !claimed_S_ne by lia.
  - rewrite (visitRow_other _ _ _ Est) by by rewrite Hm.
    apply imap_ext. intros j r Ej. unfold settle.
    assert (∀ i, claimed rows (S k) i = claimed rows k i) as Hsame.
    { intros i. rewrite claimed_S.
      destruct (Z.eqb_spec i (Z.of_nat k)) as [->|?].
      - by rewrite (manualAt_nat _ _ _ Ek), Hrk, orb_false_r.
      - by rewrite andb_false_r, orb_false_r. }
    by rewrite !Hsame.
Qed.

Lemma claimed_0 rows i : claimed rows 0 i = false.
Proof.
  unfold claimed, manualAt, rowAt.
  destruct (Z.ltb_spec i 0), (Z.ltb_spec i (Z.of_nat 0)); try done; try lia.
Qed.

Lemma settle_0 (rows : list ChartRow) : imap (settle rows 0) rows = rows.
Proof.
  apply list_eq; intros j. rewrite list_lookup_imap.
  destruct (rows !! j); csimpl; [|done].
  unfold settle. by rewrite !claimed_0.
Qed.

(** The array after [k] visits, in closed form. *)
Lemma passPrefix_settle (rows : list ChartRow) k :
  Forall (λ r, manualConnector r = None) rows →
  (k ≤ length rows)%nat →
  passPrefix k rows = imap (settle rows k) rows.
Proof.
  intros Hc. unfold passPrefix. induction k as [|k IH]; intros Hk.
  - by rewrite settle_0.
  - rewrite seq_S, foldl_snoc. csimpl. rewrite IH by lia.
    apply visitRow_settle; [done|lia].
Qed.

Lemma connectorPass_settle (rows : list ChartRow) :
  Forall (λ r, manualConnector r = None) rows →
  connectorPass rows = imap (settle rows (length rows)) rows.
Proof. intros. by apply passPrefix_settle. Qed.


(** ** The loops as writes *)

Lemma historyStep_writes (m : RowsMap) history :
  foldl historyStep m history = foldl writeStep m (historyWrites history).
Proof. unfold historyWrites. by rewrite foldl_fmap. Qed.

Lemma pendingStep_writes (m : RowsMap) pending :
  foldl pendingStep m pending = foldl writeStep m (pendingWrites pending).
Proof. unfold pendingWrites. by rewrite foldl_fmap. Qed.

Lemma forecastStep_writes (m : RowsMap) forecast :
  foldl forecastStep m forecast = foldl writeStep m (forecastWrites forecast).
Proof. unfold forecastWrites. by rewrite foldl_fmap. Qed.

Lemma rowsMap_writes data : rowsMap data = foldl writeStep [] (writesOf data).
Proof.
  unfold rowsMap, writesOf.
  by rewrite !foldl_app, historyStep_writes, pendingStep_writes,
    forecastStep_writes.
Qed.

Lemma writesOf_keys data : (writesOf data).*1 = inputDates data.
Proof.
  unfold writesOf, inputDates, historyWrites, pendingWrites, forecastWrites.
  rewrite !fmap_app, <-!list_fmap_compose. done.
Qed.

Lemma rowsMap_keys_elem data k : k ∈ (rowsMap data).*1 ↔ k ∈ inputDates data.
Proof.
  rewrite rowsMap_writes, writeSteps_keys_elem, writesOf_keys.
  csimpl. rewrite elem_of_nil. naive_solver.
Qed.

Lemma rowsMap_keys_NoDup data : NoDup (rowsMap data).*1.
Proof. rewrite rowsMap_writes. apply writeSteps_keys_NoDup, NoDup_nil_2. Qed.

Lemma rowsMap_invariant (P : string → ChartRow → Prop) data :
  (∀ k, P k (newRow k)) →
  (∀ point k r, P k r → P k (historyWrite point r)) →
  (∀ point k r, P k r → P k (pendingWrite point r)) →
  (∀ point k r, P k r → P k (forecastWrite point r)) →
  Forall (λ kr : string * ChartRow, P kr.1 kr.2) (rowsMap data).
Proof.
  intros Hnew Hh Hp Hf. rewrite rowsMap_writes.
  apply writeSteps_invariant; [done| |done].
  unfold writesOf, historyWrites, pendingWrites, forecastWrites.
  rewrite !Forall_app, !Forall_fmap.
  split_and!; apply Forall_true; intros point k r; csimpl; auto.
Qed.

Lemma rowsMap_dates data :
  Forall (λ kr : string * ChartRow, date kr.2 = kr.1) (rowsMap data).
Proof.
  apply (rowsMap_invariant (λ k r, date r = k)); [done|..]; intros point k r <-.
  - apply historyWrite_date.
  - apply pendingWrite_date.
  - apply forecastWrite_date.
Qed.

Lemma historyWrite_connector point r :
  manualConnector (historyWrite point r) = manualConnector r.
Proof. unfold historyWrite. by destruct (HistoryPoint.source point). Qed.

Lemma forecastWrite_connector point r :
  manualConnector (forecastWrite point r) = manualConnector r.
Proof.
  unfold forecastWrite; csimpl.
  destruct (actualReal r), (ForecastPoint.actual point) as [a|]; try done.
  by destruct (isFinite a).
Qed.

Lemma rowsMap_connector data :
  Forall (λ r, manualConnector r = None) (mapValues (rowsMap data)).
Proof.
  unfold mapValues. rewrite Forall_fmap.
  apply (rowsMap_invariant (λ _ r, manualConnector r = None)); [done|..];
    intros point k r H.
  - by rewrite historyWrite_connector.
  - done.
  - by rewrite forecastWrite_connector.
Qed.

Lemma rowsMap_values_dates data :
  date <$> mapValues (rowsMap data) = (rowsMap data).*1.
Proof.
  unfold mapValues. rewrite <-list_fmap_compose.
  apply Forall_fmap_ext_1. eapply Forall_impl; [apply rowsMap_dates|].
  by intros [k r].
Qed.

Lemma mapGet_rowsMap data k :
  mapGet k (rowsMap data)
  = if decide (k ∈ inputDates data)
    then Some (applyTo k (writesOf data) (newRow k))
    else None.
Proof. by rewrite rowsMap_writes, mapGet_writeSteps, writesOf_keys. Qed.

(** ** Sorting *)

Lemma insertSorted_Permutation {A} (cmp : A → A → Z) x l :
  insertSorted cmp x l ≡ₚ x :: l.
Proof.
  induction l as [|y l IH]; csimpl; [done|].
  destruct (0 <? cmp x y); [|done].
  by rewrite IH, Permutation_swap.
Qed.

Lemma sortBy_Permutation {A} (cmp : A → A → Z) l : sortBy cmp l ≡ₚ l.
Proof.
  induction l as [|x l IH]; csimpl; [done|].
  by rewrite insertSorted_Permutation, IH.
Qed.

Lemma dateLe_trans a b c : dateLe a b → dateLe b c → dateLe a c.
Proof.
  unfold dateLe. destruct (timeOf a), (timeOf b), (timeOf c); try done. lia.
Qed.

Lemma insertSorted_sorted x l :
  is_Some (timeOf x) → Forall (λ r, is_Some (timeOf r)) l →
  StronglySorted dateLe l → StronglySorted dateLe (insertSorted byDate x l).
Proof.
  intros [tx Hx] Hv Hl. induction Hl as [|y l Hl IH Hy]; csimpl.
  - repeat constructor.
  - inv Hv. destruct H1 as [ty Hty].
    assert (byDate x y = tx - ty) as Hcmp by (unfold byDate; by rewrite Hx, Hty).
    rewrite Hcmp. destruct (Z.ltb_spec 0 (tx - ty)).
    + constructor; [by apply IH|].
      rewrite insertSorted_Permutation. constructor; [|done].
      unfold dateLe. rewrite Hx, Hty. lia.
    + assert (dateLe x y) as Hxy by (unfold dateLe; rewrite Hx, Hty; lia).
      constructor; [by constructor|]. constructor; [done|].
      eapply Forall_impl; [exact Hy|]. intros z. by apply dateLe_trans.
Qed.

Lemma sortBy_sorted l :
  Forall (λ r, is_Some (timeOf r)) l → StronglySorted dateLe (sortBy byDate l).
Proof.
  induction 1 as [|x l Hx Hl IH]; csimpl; [constructor|].
  apply insertSorted_sorted; [done| |done].
  by rewrite sortBy_Permutation.
Qed.

Lemma sorted_strict l :
  NoDup (date <$> l) →
  (∀ a b, a ∈ l → b ∈ l → timeOf a = timeOf b → date a = date b) →
  StronglySorted dateLe l → StronglySorted dateLt l.
Proof.
  intros Hnd Hinj Hl. induction Hl as [|x l Hl IH Hx]; [constructor|].
  csimpl in Hnd. apply NoDup_cons in Hnd as [Hx' Hnd].
  constructor.
  - apply IH; [done|]. intros a b Ha Hb. apply Hinj; by right.
  - rewrite Forall_forall in Hx |- *. intros y Hy.
    specialize (Hx y Hy). unfold dateLe, dateLt in *.
    destruct (timeOf x) as [tx|] eqn:Ex, (timeOf y) as [ty|] eqn:Ey;
      try done.
    destruct (decide (tx = ty)) as [->|]; [|lia].
    exfalso. apply Hx'. apply list_elem_of_fmap. exists y. split; [|done].
    apply Hinj; [left|by right|congruence].
Qed.


(** ** The pass keeps the data of every row *)

Lemma settleWith_data p s n r : dataOf (settleWith p s n r) = dataOf r.
Proof.
  unfold settleWith.
  by destruct (p || s || n), (s || p && notNull (bestValue r)).
Qed.

Lemma connectorPass_lookup (rows : list ChartRow) j :
  Forall (λ r, manualConnector r = None) rows →
  connectorPass rows !! j = settle rows (length rows) j <$> rows !! j.
Proof. intros H. by rewrite connectorPass_settle, list_lookup_imap. Qed.

Lemma connectorPass_length (rows : list ChartRow) :
  Forall (λ r, manualConnector r = None) rows →
  length (connectorPass rows) = length rows.
Proof. intros H. by rewrite connectorPass_settle, length_imap. Qed.

Lemma connectorPass_data (rows : list ChartRow) :
  Forall (λ r, manualConnector r = None) rows →
  dataOf <$> connectorPass rows = dataOf <$> rows.
Proof.
  intros H. rewrite connectorPass_settle, fmap_imap by done.
  rewrite <-imap_const. apply imap_ext. intros j r _. apply settleWith_data.
Qed.

Lemma fmap_via_data {B} (f : ChartRow → B) (l1 l2 : list ChartRow) :
  (∀ r, f (dataOf r) = f r) →
  dataOf <$> l1 = dataOf <$> l2 → f <$> l1 = f <$> l2.
Proof.
  intros Hf E.
  rewrite <-(list_fmap_ext (f ∘ dataOf) f l1), <-(list_fmap_ext (f ∘ dataOf) f l2)
    by (intros; apply Hf).
  by rewrite !list_fmap_compose, E.
Qed.

Lemma connectorPass_dates (rows : list ChartRow) :
  Forall (λ r, manualConnector r = None) rows →
  date <$> connectorPass rows = date <$> rows.
Proof. intros H. apply fmap_via_data; [done|by apply connectorPass_data]. Qed.

Lemma dateLt_dates a a' b b' :
  date a = date a' → date b = date b' → dateLt a b → dateLt a' b'.
Proof. unfold dateLt, timeOf. by intros -> ->. Qed.

Lemma Forall_dateLt_dates x y l1 l2 :
  date x = date y → date <$> l1 = date <$> l2 →
  Forall (dateLt x) l1 → Forall (dateLt y) l2.
Proof.
  intros Hxy E H. revert l2 E.
  induction H; intros [|b l2] E; simplify_eq/=; constructor;
    eauto using dateLt_dates.
Qed.

Lemma sorted_same_dates l1 l2 :
  date <$> l1 = date <$> l2 →
  StronglySorted dateLt l1 → StronglySorted dateLt l2.
Proof.
  intros E H. revert l2 E.
  induction H as [|x l1 Hs IH Hx]; intros [|y l2] E; simplify_eq/=;
    constructor; eauto using Forall_dateLt_dates.
Qed.

(** ** The sorted rows *)

Lemma sortedRows_Permutation data :
  sortedRows data ≡ₚ mapValues (rowsMap data).
Proof. apply sortBy_Permutation. Qed.

Lemma sortedRows_connector data :
  Forall (λ r, manualConnector r = None) (sortedRows data).
Proof. rewrite sortedRows_Permutation. apply rowsMap_connector. Qed.

Lemma sortedRows_dates data : date <$> sortedRows data ≡ₚ (rowsMap data).*1.
Proof. by rewrite sortedRows_Permutation, rowsMap_values_dates. Qed.

Lemma sortedRows_dates_elem data d :
  d ∈ date <$> sortedRows data ↔ d ∈ inputDates data.
Proof. by rewrite sortedRows_dates, rowsMap_keys_elem. Qed.

Lemma sortedRows_NoDup data : NoDup (date <$> sortedRows data).
Proof. rewrite sortedRows_dates. apply rowsMap_keys_NoDup. Qed.

Lemma sortedRows_sorted data :
  CalendarDates (inputDates data) → StronglySorted dateLt (sortedRows data).
Proof.
  intros [Hvalid Hinj].
  assert (∀ r, r ∈ mapValues (rowsMap data) → date r ∈ inputDates data) as Hin.
  { intros r Hr. apply rowsMap_keys_elem. rewrite <-rowsMap_values_dates.
    by apply list_elem_of_fmap_2. }
  apply sorted_strict.
  - apply sortedRows_NoDup.
  - intros a b Ha Hb. rewrite sortedRows_Permutation in Ha, Hb.
    apply Hinj; auto.
  - apply sortBy_sorted, Forall_forall. intros r Hr. apply Hvalid; auto.
Qed.

Lemma allRows_dates data : date <$> allRows data = date <$> sortedRows data.
Proof. apply connectorPass_dates, sortedRows_connector. Qed.

(** C1. With the input dates valid calendar dates in one encoding, the
    merge has exactly one row for each date of the three collections:
    the dates of the rows are the input dates, no date occurs twice, there
    are as many rows as distinct input dates, and the rows are in strictly
    ascending order of their time values (the order of [getTime], not of
    the strings). *)
Theorem allRows_one_row_per_date_sorted data :
  CalendarDates (inputDates data) →
  (∀ d, d ∈ date <$> allRows data ↔ d ∈ inputDates data)
  ∧ NoDup (date <$> allRows data)
  ∧ length (allRows data) = length (remove_dups (inputDates data))
  ∧ StronglySorted dateLt (allRows data).
Proof.
  intros Hcal. rewrite allRows_dates. split_and!.
  - apply sortedRows_dates_elem.
  - apply sortedRows_NoDup.
  - rewrite <-(length_fmap date), allRows_dates.
    apply Permutation_length, NoDup_Permutation.
    + apply sortedRows_NoDup.
    + apply NoDup_remove_dups.
    + intros d. by rewrite sortedRows_dates_elem, elem_of_remove_dups.
  - eapply sorted_same_dates; [symmetry; apply allRows_dates|].
    by apply sortedRows_sorted.
Qed.


(** ** The pass in closed form, and one visit *)

Lemma claimed_all rows i : claimed rows (length rows) i = manualAt rows i.
Proof.
  unfold claimed, manualAt, rowAt. destruct (Z.ltb_spec i 0); [done|].
  destruct (rows !! Z.to_nat i) as [r|] eqn:E; [|done].
  apply lookup_lt_Some in E.
  destruct (Z.ltb_spec i (Z.of_nat (length rows))); [|lia].
  by rewrite andb_true_r.
Qed.

Lemma connectorPass_row (rows : list ChartRow) j r :
  Forall (λ r, manualConnector r = None) rows →
  rows !! j = Some r →
  connectorPass rows !! j
  = Some (settleWith (manualAt rows (Z.of_nat j - 1)) (isManual r)
            (manualAt rows (Z.of_nat j + 1)) r).
Proof.
  intros H E. rewrite connectorPass_lookup, E by done. csimpl.
  unfold settle. by rewrite !claimed_all, (manualAt_nat _ _ _ E).
Qed.

Lemma settleWith_connector p s n r :
  manualConnector r = None →
  manualConnector (settleWith p s n r)
  = if p || s || n then bestValue r else None.
Proof.
  intros H. unfold settleWith.
  by destruct (p || s || n), (s || p && notNull (bestValue r)).
Qed.

Lemma settleWith_fillLine p s n r :
  filledLineValue (settleWith p s n r)
  = if s || p && notNull (bestValue r) then None else filledLineValue r.
Proof.
  unfold settleWith.
  by destruct (p || s || n), (s || p && notNull (bestValue r)).
Qed.

Lemma passPrefix_S k (rows : list ChartRow) :
  passPrefix (S k) rows = visitRow (passPrefix k rows) k.
Proof. unfold passPrefix. by rewrite seq_S, foldl_snoc. Qed.




Lemma linkRow_data b r : dataOf (linkRow b r) = dataOf r.
Proof.
  unfold linkRow. destruct (notNull (manualConnector r)); [done|].
  destruct (bestValue r); [|done]. csimpl.
  by destruct (b && notNull (filledLineValue r)).
Qed.

Lemma linkRow_connector b r :
  manualConnector (linkRow b r)
  = match manualConnector r with
    | Some c => Some c
    | None => bestValue r
    end.
Proof.
  unfold linkRow. destruct (manualConnector r) eqn:E; [done|]. csimpl.
  destruct (bestValue r); [|done]. csimpl.
  by destruct (b && notNull (filledLineValue r)).
Qed.

Lemma linkRow_fillLine b r :
  filledLineValue (linkRow b r)
  = match manualConnector r, bestValue r with
    | None, Some _ => if b then None else filledLineValue r
    | _, _ => filledLineValue r
    end.
Proof.
  unfold linkRow. destruct (manualConnector r); [done|]. csimpl.
  destruct (bestValue r); [|done]. csimpl.
  by destruct b, (filledLineValue r) eqn:E; csimpl.
Qed.


Lemma dataOf_isManual r r' : dataOf r = dataOf r' → isManual r = isManual r'.
Proof.
  intros E. unfold isManual.
  change (actualSource r) with (actualSource (dataOf r)).
  change (actualReal r) with (actualReal (dataOf r)).
  by rewrite E.
Qed.




(** ** The row of a date *)

Lemma applyTo_unique k (ws : list Write) w r :
  NoDup ws.*1 → w ∈ ws → w.1 = k → applyTo k ws r = w.2 r.
Proof.
  intros Hnd Hw Hk. apply list_elem_of_split in Hw as (ws1 & ws2 & ->).
  rewrite fmap_app in Hnd. csimpl in Hnd.
  apply NoDup_app in Hnd as (_ & Hdis & [Hnot _]%NoDup_cons).
  rewrite applyTo_app, (applyTo_absent _ ws1).
  - unfold applyTo at 1. csimpl. rewrite decide_True by done.
    by apply applyTo_absent; subst.
  - intros Hin. apply (Hdis _ Hin). subst. left.
Qed.

Lemma applyTo_cases k (ws : list Write) r :
  NoDup ws.*1 →
  ((k ∉ ws.*1) ∧ applyTo k ws r = r)
  ∨ (∃ w, w ∈ ws ∧ w.1 = k ∧ applyTo k ws r = w.2 r).
Proof.
  intros Hnd. destruct (decide (k ∈ ws.*1)) as [Hin|Hin].
  - right. apply list_elem_of_fmap in Hin as (w & -> & Hw).
    exists w. split_and!; [done..|]. by apply applyTo_unique.
  - left. split; [done|]. by apply applyTo_absent.
Qed.

Lemma historyWrites_keys history :
  (historyWrites history).*1 = HistoryPoint.ds <$> history.
Proof. unfold historyWrites. by rewrite <-list_fmap_compose. Qed.

Lemma pendingWrites_keys pending :
  (pendingWrites pending).*1 = PendingWeek.ds <$> pending.
Proof. unfold pendingWrites. by rewrite <-list_fmap_compose. Qed.

Lemma forecastWrites_keys forecast :
  (forecastWrites forecast).*1 = ForecastPoint.ds <$> forecast.
Proof. unfold forecastWrites. by rewrite <-list_fmap_compose. Qed.

(** What the history loop leaves under [d], for distinct history dates. *)
Lemma history_cases d history r :
  NoDup (HistoryPoint.ds <$> history) →
  ((d ∉ HistoryPoint.ds <$> history) ∧ applyTo d (historyWrites history) r = r)
  ∨ (∃ hp, hp ∈ history ∧ HistoryPoint.ds hp = d
       ∧ applyTo d (historyWrites history) r = historyWrite hp r).
Proof.
  intros Hnd. rewrite <-historyWrites_keys in *.
  destruct (applyTo_cases d _ r Hnd) as [?|(w & Hw & Hk & E)]; [by left|].
  right. apply list_elem_of_fmap in Hw as (hp & -> & Hhp). by exists hp.
Qed.

Lemma pending_cases d pending r :
  NoDup (PendingWeek.ds <$> pending) →
  ((d ∉ PendingWeek.ds <$> pending) ∧ applyTo d (pendingWrites pending) r = r)
  ∨ (∃ pp, pp ∈ pending ∧ PendingWeek.ds pp = d
       ∧ applyTo d (pendingWrites pending) r = pendingWrite pp r).
Proof.
  intros Hnd. rewrite <-pendingWrites_keys in *.
  destruct (applyTo_cases d _ r Hnd) as [?|(w & Hw & Hk & E)]; [by left|].
  right. apply list_elem_of_fmap in Hw as (pp & -> & Hpp). by exists pp.
Qed.

Lemma forecast_cases d forecast r :
  NoDup (ForecastPoint.ds <$> forecast) →
  ((d ∉ ForecastPoint.ds <$> forecast) ∧ applyTo d (forecastWrites forecast) r = r)
  ∨ (∃ fp, fp ∈ forecast ∧ ForecastPoint.ds fp = d
       ∧ applyTo d (forecastWrites forecast) r = forecastWrite fp r).
Proof.
  intros Hnd. rewrite <-forecastWrites_keys in *.
  destruct (applyTo_cases d _ r Hnd) as [?|(w & Hw & Hk & E)]; [by left|].
  right. apply list_elem_of_fmap in Hw as (fp & -> & Hfp). by exists fp.
Qed.

Lemma rowOf_unfold data d :
  rowOf data d
  = applyTo d (forecastWrites (ForecastResponse.forecast data))
      (applyTo d (pendingWrites (ForecastResponse.pending_weeks data))
        (applyTo d (historyWrites (ForecastResponse.history data))
          (newRow d))).
Proof. unfold rowOf, writesOf. by rewrite !applyTo_app. Qed.

(** A property of rows that the writes of a list keep. *)
Lemma applyTo_keeps (P : ChartRow → Prop) k (ws : list Write) r :
  Forall (λ w : Write, ∀ r, P r → P (w.2 r)) ws → P r → P (applyTo k ws r).
Proof.
  intros Hws. revert r. induction Hws as [|w ws Hw _ IH]; intros r Hr; [done|].
  unfold applyTo. csimpl. apply IH. case_decide; auto.
Qed.

Lemma pending_keeps (P : ChartRow → Prop) k pending r :
  (∀ point r, P r → P (pendingWrite point r)) →
  P r → P (applyTo k (pendingWrites pending) r).
Proof.
  intros H. apply applyTo_keeps. unfold pendingWrites.
  rewrite Forall_fmap. apply Forall_true. intros point r'. apply H.
Qed.

Lemma sortedRows_rowOf data r :
  r ∈ sortedRows data → r = rowOf data (date r).
Proof.
  rewrite sortedRows_Permutation. unfold mapValues.
  intros ([k r'] & -> & Hin)%list_elem_of_fmap. csimpl.
  pose proof (rowsMap_dates data) as Hd.
  rewrite Forall_forall in Hd. specialize (Hd _ Hin). csimpl in Hd. subst k.
  apply elem_mapGet in Hin; [|apply rowsMap_keys_NoDup].
  rewrite mapGet_rowsMap in Hin. case_decide; by simplify_eq.
Qed.

Lemma allRows_sortedRows data row :
  row ∈ allRows data →
  ∃ r, r ∈ sortedRows data ∧ dataOf row = dataOf r.
Proof.
  intros (j & Ej)%list_elem_of_lookup_1.
  pose proof (connectorPass_data _ (sortedRows_connector data)) as Hd.
  apply (f_equal (λ l, l !! j)) in Hd. unfold allRows in Ej.
  rewrite !list_lookup_fmap, Ej in Hd. csimpl in Hd.
  destruct (sortedRows data !! j) as [r|] eqn:Er; [|done].
  exists r. split; [by eapply list_elem_of_lookup_2|].
  csimpl in Hd. congruence.
Qed.

Lemma allRows_rowOf data row :
  row ∈ allRows data → dataOf row = dataOf (rowOf data (date row)).
Proof.
  intros (r & Hr & Hd)%allRows_sortedRows.
  assert (date row = date r) as ->
    by (change (date (dataOf row) = date (dataOf r)); by rewrite Hd).
  rewrite Hd. f_equal. by apply sortedRows_rowOf.
Qed.

Lemma allRows_has_date data d :
  d ∈ inputDates data → ∃ row, row ∈ allRows data ∧ date row = d.
Proof.
  rewrite <-sortedRows_dates_elem, <-allRows_dates.
  intros (row & -> & Hrow)%list_elem_of_fmap. by exists row.
Qed.

Lemma forecast_in_inputDates data fp :
  fp ∈ ForecastResponse.forecast data → ForecastPoint.ds fp ∈ inputDates data.
Proof.
  intros H. unfold inputDates. rewrite !elem_of_app. right; right.
  by apply list_elem_of_fmap_2.
Qed.

Lemma pending_in_inputDates data pp :
  pp ∈ ForecastResponse.pending_weeks data →
  PendingWeek.ds pp ∈ inputDates data.
Proof.
  intros H. unfold inputDates. rewrite !elem_of_app. right; left.
  by apply list_elem_of_fmap_2.
Qed.

Lemma history_in_inputDates data hp :
  hp ∈ ForecastResponse.history data → HistoryPoint.ds hp ∈ inputDates data.
Proof.
  intros H. unfold inputDates. rewrite !elem_of_app. left.
  by apply list_elem_of_fmap_2.
Qed.

Lemma NoDup_fmap_eq {A B} `{EqDecision B} (f : A → B) (l : list A) x y :
  NoDup (f <$> l) → x ∈ l → y ∈ l → f x = f y → x = y.
Proof.
  intros Hnd Hx Hy E. induction l as [|a l IH]; [by apply elem_of_nil in Hx|].
  csimpl in Hnd. apply NoDup_cons in Hnd as [Ha Hnd].
  apply elem_of_cons in Hx as [->|Hx], Hy as [->|Hy]; auto.
  - exfalso. apply Ha. rewrite E. by apply list_elem_of_fmap_2.
  - exfalso. apply Ha. rewrite <-E. by apply list_elem_of_fmap_2.
Qed.

Lemma forecastWrite_hasForecast point r :
  hasForecast (forecastWrite point r) = true.
Proof.
  unfold forecastWrite; csimpl.
  destruct (actualReal r), (ForecastPoint.actual point) as [a|]; try done.
  by destruct (isFinite a).
Qed.

Lemma forecastWrite_forecastValue point r :
  forecastValue (forecastWrite point r) = Some (ForecastPoint.y_pred point).
Proof.
  unfold forecastWrite; csimpl.
  destruct (actualReal r), (ForecastPoint.actual point) as [a|]; try done.
  by destruct (isFinite a).
Qed.

Lemma forecastWrite_actualReal point r :
  actualReal (forecastWrite point r)
  = match actualReal r, ForecastPoint.actual point with
    | None, Some a => if isFinite a then Some a else None
    | v, _ => v
    end.
Proof.
  unfold forecastWrite; csimpl.
  destruct (actualReal r) eqn:E, (ForecastPoint.actual point) as [a|];
    try done.
  by destruct (isFinite a).
Qed.

Lemma forecastWrite_actualSource point r :
  actualSource (forecastWrite point r)
  = match actualReal r, ForecastPoint.actual point with
    | None, Some a => if isFinite a then Some observed else actualSource r
    | _, _ => actualSource r
    end.
Proof.
  unfold forecastWrite; csimpl.
  destruct (actualReal r), (ForecastPoint.actual point) as [a|]; try done.
  by destruct (isFinite a).
Qed.

(** C3. On a date with a forecast point, for distinct dates within the
    history and within the forecast: an observed or manual history point
    of that date gives the row its actual value and source, whatever the
    forecast point carries; when the history has no such point there, the
    actual value is the forecast point's own actual, tagged observed, if
    that is a finite number, and stays null otherwise (null or not finite).
    The row has the forecast flag and the predicted value. *)
Theorem actual_prefers_history data fp :
  NoDup (HistoryPoint.ds <$> ForecastResponse.history data) →
  NoDup (ForecastPoint.ds <$> ForecastResponse.forecast data) →
  fp ∈ ForecastResponse.forecast data →
  ∃ row, row ∈ allRows data ∧ date row = ForecastPoint.ds fp
    ∧ hasForecast row = true
    ∧ forecastValue row = Some (ForecastPoint.y_pred fp)
    ∧ (∀ hp, hp ∈ ForecastResponse.history data →
         HistoryPoint.ds hp = ForecastPoint.ds fp →
         HistoryPoint.source hp = observed ∨ HistoryPoint.source hp = manual →
         actualReal row = Some (HistoryPoint.y hp)
         ∧ actualSource row = Some (HistoryPoint.source hp))
    ∧ ((∀ hp, hp ∈ ForecastResponse.history data →
         HistoryPoint.ds hp = ForecastPoint.ds fp →
         HistoryPoint.source hp = synthetic
         ∨ HistoryPoint.source hp = seasonal_clone) →
       match ForecastPoint.actual fp with
       | Some a =>
           if isFinite a
           then actualReal row = Some a ∧ actualSource row = Some observed
           else actualReal row = None
       | None => actualReal row = None
       end).
Proof.
  intros Hh Hf Hfp.
  destruct (allRows_has_date data _ (forecast_in_inputDates _ _ Hfp))
    as (row & Hrow & Hdate).
  exists row. split; [done|]. split; [done|].
  pose proof (allRows_rowOf _ _ Hrow) as Hd. rewrite Hdate in Hd.
  change (hasForecast row) with (hasForecast (dataOf row)).
  change (forecastValue row) with (forecastValue (dataOf row)).
  change (actualReal row) with (actualReal (dataOf row)).
  change (actualSource row) with (actualSource (dataOf row)).
  rewrite Hd, rowOf_unfold. clear Hd.
  set (d := ForecastPoint.ds fp).
  set (rh := applyTo d (historyWrites _) _).
  set (rp := applyTo d (pendingWrites _) rh).
  assert (actualReal rp = actualReal rh ∧ actualSource rp = actualSource rh)
    as [Hpa Hps].
  { unfold rp. by apply (pending_keeps
      (λ r, actualReal r = actualReal rh ∧ actualSource r = actualSource rh)). }
  destruct (forecast_cases d _ rp Hf) as [[Hnot _]|(fp' & Hfp' & Hds & ->)].
  { exfalso. apply Hnot. by apply list_elem_of_fmap_2. }
  assert (fp' = fp) as -> by by eapply (NoDup_fmap_eq ForecastPoint.ds).
  data_fields.
  rewrite forecastWrite_hasForecast, forecastWrite_forecastValue,
    forecastWrite_actualReal, forecastWrite_actualSource, Hpa, Hps.
  split; [done|]. split; [done|].
  destruct (history_cases d (ForecastResponse.history data) (newRow d) Hh)
    as [[Hnot E]|(hp' & Hhp' & Hds' & E)]; fold rh in E; rewrite E.
  - split.
    + intros hp Hhp Hdhp _. exfalso. apply Hnot. rewrite <-Hdhp.
      by apply list_elem_of_fmap_2.
    + intros _. csimpl.
      destruct (ForecastPoint.actual fp) as [a|]; [|done].
      by destruct (isFinite a).
  - split.
    + intros hp Hhp Hdhp Hsrc.
      assert (hp' = hp) as -> by (eapply (NoDup_fmap_eq HistoryPoint.ds);
        [done..|congruence]).
      unfold historyWrite. by destruct Hsrc as [-> | ->].
    + intros Hfill. specialize (Hfill hp' Hhp' Hds').
      unfold historyWrite.
      destruct Hfill as [-> | ->]; csimpl;
        (destruct (ForecastPoint.actual fp) as [a|]; [|done]);
        by destruct (isFinite a).
Qed.


(** ** Fill value and fill line *)

Lemma visitRow_pointwise (rows : list ChartRow) k j :
  ∃ f, visitRow rows k !! j = f <$> rows !! j
    ∧ (f = id ∨ f = selfRow ∨ f = linkRow false ∨ f = linkRow true).
Proof.
  destruct (rows !! k) as [r|] eqn:Ek.
  - destruct (isManual r) eqn:Hm.
    + rewrite (visitRow_lookup _ _ _ _ Ek Hm).
      destruct (decide (j = k)) as [->|?].
      { exists selfRow. rewrite Ek. auto. }
      destruct (decide (S j = k)); [exists (linkRow false); auto|].
      destruct (decide (j = S k)); [exists (linkRow true); auto|].
      exists id. by rewrite option_fmap_id; auto.
    + rewrite (visitRow_other _ _ _ Ek Hm).
      exists id. by rewrite option_fmap_id; auto.
  - unfold visitRow. rewrite Ek. exists id. by rewrite option_fmap_id; auto.
Qed.



Lemma visitRow_Forall (P : ChartRow → Prop) (rows : list ChartRow) k :
  (∀ r, P r → P (selfRow r)) → (∀ b r, P r → P (linkRow b r)) →
  Forall P rows → Forall P (visitRow rows k).
Proof.
  intros Hs Hl. rewrite !Forall_lookup. intros H j r' Ej.
  destruct (visitRow_pointwise rows k j) as (f & E & Hf).
  rewrite E in Ej. destruct (rows !! j) as [r|] eqn:Er; [|done].
  simplify_eq/=. specialize (H _ _ Er).
  destruct Hf as [->|[->|[->| ->]]]; auto.
Qed.

Lemma passPrefix_Forall (P : ChartRow → Prop) (rows : list ChartRow) k :
  (∀ r, P r → P (selfRow r)) → (∀ b r, P r → P (linkRow b r)) →
  Forall P rows → Forall P (passPrefix k rows).
Proof.
  intros Hs Hl H. induction k as [|k IH]; [done|].
  rewrite passPrefix_S. by apply visitRow_Forall.
Qed.











(** ** Pending weeks *)

Lemma manualAt_allRows data i :
  manualAt (allRows data) i = manualAt (sortedRows data) i.
Proof.
  unfold manualAt, rowAt. destruct (i <? 0); [done|].
  pose proof (connectorPass_data _ (sortedRows_connector data)) as Hd.
  apply (f_equal (λ l, l !! Z.to_nat i)) in Hd.
  rewrite !list_lookup_fmap in Hd. unfold allRows.
  destruct (connectorPass _ !! _) as [row|], (sortedRows data !! _) as [r|];
    csimpl in Hd; try done.
  apply dataOf_isManual. congruence.
Qed.

Lemma settleWith_date p s n r : date (settleWith p s n r) = date r.
Proof. rewrite <-dataOf_date, settleWith_data. done. Qed.

Lemma allRows_lookup data j row :
  allRows data !! j = Some row →
  ∃ r, sortedRows data !! j = Some r
    ∧ r = rowOf data (date r)
    ∧ date r = date row
    ∧ row = settleWith (manualAt (sortedRows data) (Z.of_nat j - 1))
              (isManual r) (manualAt (sortedRows data) (Z.of_nat j + 1)) r.
Proof.
  intros Ej. unfold allRows in Ej.
  assert (is_Some (sortedRows data !! j)) as [r Er].
  { apply lookup_lt_is_Some. apply lookup_lt_Some in Ej.
    by rewrite connectorPass_length in Ej by apply sortedRows_connector. }
  rewrite (connectorPass_row _ _ _ (sortedRows_connector data) Er) in Ej.
  assert (row = settleWith (manualAt (sortedRows data) (Z.of_nat j - 1))
    (isManual r) (manualAt (sortedRows data) (Z.of_nat j + 1)) r) as Hrow
    by congruence.
  exists r. split_and!; [done| | |done].
  - apply sortedRows_rowOf. by eapply list_elem_of_lookup_2.
  - by rewrite Hrow, settleWith_date.
Qed.

Lemma isManual_forecastWrite point r :
  isManual r = false → isManual (forecastWrite point r) = false.
Proof.
  unfold isManual.
  rewrite forecastWrite_actualSource, forecastWrite_actualReal.
  destruct (actualReal r), (ForecastPoint.actual point) as [a|]; try done.
  all: try destruct (isFinite a); try done.
  all: by destruct (actualSource r) as [[]|].
Qed.

Lemma forecast_keeps (P : ChartRow → Prop) k forecast r :
  (∀ point r, P r → P (forecastWrite point r)) →
  P r → P (applyTo k (forecastWrites forecast) r).
Proof.
  intros H. apply applyTo_keeps. unfold forecastWrites.
  rewrite Forall_fmap. apply Forall_true. intros point r'. apply H.
Qed.

Lemma forecastWrite_fill point r :
  filledValue (forecastWrite point r) = filledValue r
  ∧ filledLineValue (forecastWrite point r) = filledLineValue r
  ∧ filledSource (forecastWrite point r) = filledSource r
  ∧ isPending (forecastWrite point r) = isPending r
  ∧ hasHistory (forecastWrite point r) = hasHistory r.
Proof.
  unfold forecastWrite. csimpl.
  destruct (actualReal r), (ForecastPoint.actual point) as [a|]; try done.
  by destruct (isFinite a).
Qed.

(** C6, as the code has it. For distinct dates within the history and
    within the pending weeks, a date given both as a synthetic or
    seasonal-clone history point and as a pending point has, after the
    three loops, the pending prediction as fill value and as fill line,
    fill source pending and the pending flag. In the merged timeline the
    fill value, the source and the flag are the same; the fill line is the
    prediction unless the row right before it is a manual row, in which
    case the connector pass has cleared it. *)
Theorem pending_overrides_fill data hp pp :
  NoDup (HistoryPoint.ds <$> ForecastResponse.history data) →
  NoDup (PendingWeek.ds <$> ForecastResponse.pending_weeks data) →
  hp ∈ ForecastResponse.history data →
  pp ∈ ForecastResponse.pending_weeks data →
  HistoryPoint.ds hp = PendingWeek.ds pp →
  HistoryPoint.source hp = synthetic ∨ HistoryPoint.source hp = seasonal_clone →
  ∃ j r row,
    sortedRows data !! j = Some r ∧ allRows data !! j = Some row
    ∧ date r = PendingWeek.ds pp ∧ date row = PendingWeek.ds pp
    ∧ filledValue r = Some (PendingWeek.prediction pp)
    ∧ filledLineValue r = Some (PendingWeek.prediction pp)
    ∧ filledValue row = Some (PendingWeek.prediction pp)
    ∧ filledSource row = Some fill_pending
    ∧ isPending row = Some true
    ∧ filledLineValue row
      = if manualAt (allRows data) (Z.of_nat j - 1) then None
        else Some (PendingWeek.prediction pp).
Proof.
  intros Hh Hp Hhp Hpp Hds Hsrc.
  destruct (allRows_has_date data _ (pending_in_inputDates _ _ Hpp))
    as (row & (j & Ej)%list_elem_of_lookup_1 & Hdate).
  destruct (allRows_lookup _ _ _ Ej) as (r & Er & Hr & Hdr & Hrow).
  exists j, r, row. rewrite manualAt_allRows.
  set (d := PendingWeek.ds pp) in *.
  assert (filledValue r = Some (PendingWeek.prediction pp)
    ∧ filledLineValue r = Some (PendingWeek.prediction pp)
    ∧ filledSource r = Some fill_pending
    ∧ isPending r = Some true
    ∧ isManual r = false) as (Hfv & Hfl & Hfs & Hip & Hm).
  { rewrite Hr, Hdr, Hdate, rowOf_unfold.
    apply (forecast_keeps (λ r,
      filledValue r = Some (PendingWeek.prediction pp)
      ∧ filledLineValue r = Some (PendingWeek.prediction pp)
      ∧ filledSource r = Some fill_pending
      ∧ isPending r = Some true
      ∧ isManual r = false)).
    { intros point r' (? & ? & ? & ? & ?).
      destruct (forecastWrite_fill point r') as (-> & -> & -> & -> & _).
      split_and!; [done..|]. by apply isManual_forecastWrite. }
    destruct (pending_cases d _
      (applyTo d (historyWrites (ForecastResponse.history data)) (newRow d))
      Hp) as [[Hnot _]|(pp' & Hpp' & Hds' & ->)].
    { exfalso. apply Hnot. by apply list_elem_of_fmap_2. }
    assert (pp' = pp) as -> by by eapply (NoDup_fmap_eq PendingWeek.ds).
    split_and!; [done..|].
    destruct (history_cases d (ForecastResponse.history data) (newRow d) Hh)
      as [[Hnot _]|(hp' & Hhp' & Hds'' & ->)].
    { exfalso. apply Hnot. rewrite <-Hds.
      by apply list_elem_of_fmap_2. }
    assert (hp' = hp) as -> by (eapply (NoDup_fmap_eq HistoryPoint.ds);
      [done..|congruence]).
    unfold isManual, pendingWrite, historyWrite.
    by destruct Hsrc as [-> | ->]. }
  split_and!; try done; try congruence.
  - rewrite Hrow, <-dataOf_filledValue, settleWith_data. by data_fields.
  - rewrite Hrow, <-dataOf_filledSource, settleWith_data. by data_fields.
  - rewrite Hrow, <-dataOf_isPending, settleWith_data. by data_fields.
  - rewrite Hrow, settleWith_fillLine, Hm, Hfl. csimpl.
    assert (notNull (bestValue r) = true) as ->.
    { unfold bestValue. rewrite Hfv. by destruct (actualReal r). }
    by rewrite andb_true_r.
Qed.


(** ** The window *)

Lemma filter_all {A} (P : A → Prop) `{∀ x, Decision (P x)} (l : list A) :
  Forall P l → filter P l = l.
Proof.
  induction 1 as [|x l Hx _ IH]; [done|].
  by rewrite filter_cons_True, IH.
Qed.

Lemma filter_none {A} (P : A → Prop) `{∀ x, Decision (P x)} (l : list A) :
  Forall (λ x, ¬ P x) l → filter P l = [].
Proof.
  induction 1 as [|x l Hx _ IH]; [done|].
  by rewrite filter_cons_False.
Qed.

Lemma sorted_filter {A} (R : relation A) (P : A → Prop)
    `{∀ x, Decision (P x)} (l : list A) :
  StronglySorted R l → StronglySorted R (filter P l).
Proof.
  induction 1 as [|x l Hl IH Hx]; [constructor|].
  rewrite filter_cons. case_decide; [|done].
  constructor; [done|]. rewrite Forall_forall in Hx |- *.
  intros y [_ Hy]%list_elem_of_filter. auto.
Qed.

Lemma dateLt_le a b : dateLt a b → dateLe a b.
Proof. unfold dateLt, dateLe. destruct (timeOf a), (timeOf b); try done. lia. Qed.

Lemma dateLe_refl a : is_Some (timeOf a) → dateLe a a.
Proof. intros [t Ht]. unfold dateLe. by rewrite Ht. Qed.

Lemma dateLt_not_le a b : dateLt a b → ¬ dateLe b a.
Proof. unfold dateLt, dateLe. destruct (timeOf a), (timeOf b); try done. lia. Qed.

Lemma inWindow_spec s e r :
  inWindow (timeOf s) (timeOf e) r = true ↔ dateLe s r ∧ dateLe r e.
Proof.
  unfold inWindow, timeGe, timeLe, dateLe.
  destruct (timeOf r), (timeOf s), (timeOf e); csimpl;
    rewrite ?andb_true_iff, ?Z.leb_le, ?andb_false_r; naive_solver.
Qed.

Lemma compactBase_span s e rows :
  compactBase (timeOf s) (timeOf e) rows
  = filter (λ r, dateLe s r ∧ dateLe r e) rows.
Proof.
  unfold compactBase. apply list_filter_iff. intros r.
  by rewrite Is_true_true, inWindow_spec.
Qed.

Lemma tailStep_take e fw rows c acc :
  foldl (tailStep (timeOf e) fw) (c, acc) rows
  = let taken :=
      take (Z.to_nat (fw - c))
        (filter (λ r, dateLt e r ∧ is_Some (forecastValue r)) rows) in
    (c + Z.of_nat (length taken), acc ++ taken).
Proof.
  revert c acc. induction rows as [|r rows IH]; intros c acc; csimpl.
  { rewrite filter_nil, take_nil. csimpl. by rewrite Z.add_0_r, app_nil_r. }
  assert (timeGt (timeOf r) (timeOf e) && notNull (forecastValue r) = true
          ↔ dateLt e r ∧ is_Some (forecastValue r)) as Hspec.
  { unfold timeGt, dateLt. rewrite andb_true_iff.
    destruct (timeOf r), (timeOf e), (forecastValue r); csimpl;
      rewrite ?Z.ltb_lt, ?is_Some_alt; naive_solver. }
  unfold tailStep at 2. csimpl.
  destruct (timeGt (timeOf r) (timeOf e) && notNull (forecastValue r)) eqn:E.
  - rewrite filter_cons_True by by apply Hspec. csimpl.
    destruct (Z.ltb_spec c fw).
    + rewrite IH. csimpl.
      replace (Z.to_nat (fw - c)) with (S (Z.to_nat (fw - (c + 1)))) by lia.
      csimpl. f_equal; [lia|]. by rewrite <-app_assoc.
    + rewrite IH. csimpl.
      replace (Z.to_nat (fw - c)) with 0%nat by lia. done.
  - rewrite filter_cons_False; [csimpl; by rewrite IH|].
    by intros ?%Hspec.
Qed.

Lemma forecastTail_take e fw rows :
  forecastTail (timeOf e) fw rows
  = take (Z.to_nat fw)
      (filter (λ r, dateLt e r ∧ is_Some (forecastValue r)) rows).
Proof.
  unfold forecastTail. rewrite tailStep_take. csimpl.
  by rewrite Z.sub_0_r.
Qed.

Lemma windowStartRow_lookup (timeline : list ChartRow) hw :
  0 < hw →
  windowStartRow timeline hw
  = timeline !! (length timeline - Z.to_nat hw)%nat.
Proof.
  intros Hhw. unfold windowStartRow, rowAt.
  destruct (Z.ltb_spec hw (Z.of_nat (length timeline))).
  - destruct (Z.ltb_spec (Z.of_nat (length timeline) - hw) 0); [lia|].
    f_equal. lia.
  - csimpl. f_equal. lia.
Qed.

Lemma lastRow_lookup (timeline : list ChartRow) :
  timeline ≠ [] →
  rowAt timeline (Z.of_nat (length timeline) - 1) = last timeline.
Proof.
  intros Hne. unfold rowAt. rewrite last_lookup.
  destruct timeline as [|x l]; [done|]. csimpl.
  destruct (Z.ltb_spec (Z.of_nat (S (length l)) - 1) 0); [lia|].
  f_equal. lia.
Qed.

Lemma selectWindow_no_anchor rows hw fw :
  timelineRows rows = [] → selectWindow rows hw fw = Returns rows.
Proof. intros E. unfold selectWindow. by rewrite E. Qed.

Lemma selectWindow_anchored rows hw fw :
  timelineRows rows ≠ [] → 0 < hw →
  ∃ startRow lastRow,
    last (timelineRows rows) = Some lastRow
    ∧ timelineRows rows
        !! (length (timelineRows rows) - Z.to_nat hw)%nat = Some startRow
    ∧ selectWindow rows hw fw
      = Returns
          (let compact :=
             compactBase (timeOf startRow) (timeOf lastRow) rows
             ++ forecastTail (timeOf lastRow) fw rows in
           if bool_decide (length compact = 0%nat) then rows else compact).
Proof.
  intros Hne Hhw.
  destruct (proj2 (last_is_Some _) Hne) as [lastRow El].
  assert (length (timelineRows rows) ≠ 0)%nat as Hlen
    by (by intros ?%nil_length_inv).
  destruct (lookup_lt_is_Some_2 (timelineRows rows)
    (length (timelineRows rows) - Z.to_nat hw)%nat) as [startRow Es]; [lia|].
  exists startRow, lastRow. split_and!; [done..|].
  unfold selectWindow.
  rewrite bool_decide_eq_false_2 by done.
  by rewrite lastRow_lookup, El, windowStartRow_lookup, Es.
Qed.

Lemma timelineRows_elem rows r :
  r ∈ timelineRows rows ↔ isTimelineRow r = true ∧ r ∈ rows.
Proof.
  unfold timelineRows. by rewrite list_elem_of_filter, Is_true_true.
Qed.

Lemma Chronological_timeline rows :
  Chronological rows → Chronological (timelineRows rows).
Proof.
  intros [Hv Hs]. split.
  - rewrite Forall_forall in Hv |- *. intros r [_ Hr]%timelineRows_elem. auto.
  - by apply sorted_filter.
Qed.

Lemma sorted_before_last (l : list ChartRow) e r :
  Chronological l → last l = Some e → r ∈ l → dateLe r e.
Proof.
  intros [Hv Hs] [l' ->]%last_Some Hr.
  apply elem_of_app in Hr as [Hr|Hr%list_elem_of_singleton].
  - apply dateLt_le. eapply (StronglySorted_app_1_elem_of dateLt); [done..|].
    by apply list_elem_of_singleton.
  - subst. apply dateLe_refl. rewrite Forall_forall in Hv. apply Hv.
    apply elem_of_app. right. by apply list_elem_of_singleton.
Qed.

Lemma sorted_lookup_split (l : list ChartRow) i x :
  StronglySorted dateLt l → l !! i = Some x →
  Forall (λ y, dateLt y x) (take i l) ∧ Forall (dateLt x) (drop (S i) l).
Proof.
  intros Hs Ei. rewrite <-(take_drop_middle _ _ _ Ei) in Hs.
  apply StronglySorted_app in Hs as (Hcross & _ & Hs).
  apply StronglySorted_cons in Hs as [Hx _]. split; [|done].
  rewrite Forall_forall. intros y Hy. apply Hcross; [done|left].
Qed.

(** The window over a sorted timeline: the anchor rows it keeps are the
    anchor rows from the start row on. *)
Lemma window_of_sorted (l : list ChartRow) i s e :
  Chronological l → l !! i = Some s → last l = Some e →
  filter (λ r, dateLe s r ∧ dateLe r e) l = drop i l.
Proof.
  intros Hc Ei El. pose proof Hc as [Hv Hs].
  destruct (sorted_lookup_split _ _ _ Hs Ei) as [Hbefore Hafter].
  rewrite <-(take_drop_middle _ _ _ Ei) at 1.
  rewrite (drop_S _ _ _ Ei), filter_app.
  rewrite filter_none, filter_all; [done| |].
  - rewrite <-(drop_S _ _ _ Ei). rewrite Forall_forall. intros y Hy.
    assert (y ∈ l) as Hyl.
    { rewrite <-(take_drop i l). apply elem_of_app. by right. }
    split; [|by eapply sorted_before_last].
    rewrite (drop_S _ _ _ Ei) in Hy.
    apply elem_of_cons in Hy as [->|Hy].
    + apply dateLe_refl. rewrite Forall_forall in Hv. auto.
    + apply dateLt_le. rewrite Forall_forall in Hafter. auto.
  - eapply Forall_impl; [exact Hbefore|]. intros y Hy [Hsy _].
    by apply (dateLt_not_le _ _ Hy).
Qed.


Lemma start_before_last rows i s e :
  Chronological rows →
  timelineRows rows !! i = Some s → last (timelineRows rows) = Some e →
  dateLe s e.
Proof.
  intros Hc Es El.
  eapply sorted_before_last; [by apply Chronological_timeline|done|].
  by eapply list_elem_of_lookup_2.
Qed.

Lemma last_in_rows rows e :
  last (timelineRows rows) = Some e → e ∈ rows ∧ isTimelineRow e = true.
Proof.
  intros El%last_Some_elem_of. apply timelineRows_elem in El. naive_solver.
Qed.

(** The window of a chronological timeline ends with its last anchor row. *)
Lemma window_last rows i s e :
  Chronological rows →
  timelineRows rows !! i = Some s → last (timelineRows rows) = Some e →
  last (filter (λ r, dateLe s r ∧ dateLe r e) rows) = Some e.
Proof.
  intros Hc Es El. pose proof Hc as [Hv Hs].
  destruct (last_in_rows _ _ El) as [Hin _].
  apply list_elem_of_split in Hin as (r1 & r2 & E).
  rewrite E in Hs. apply StronglySorted_app in Hs as (_ & _ & Hs).
  apply StronglySorted_cons in Hs as [Hafter _].
  assert (dateLe s e ∧ dateLe e e) as He.
  { split; [by eapply start_before_last|]. apply dateLe_refl.
    rewrite Forall_forall in Hv. apply Hv. rewrite E.
    apply elem_of_app. right. left. }
  assert (filter (λ r, dateLe s r ∧ dateLe r e) r2 = []) as Hr2.
  { apply filter_none. eapply Forall_impl; [exact Hafter|].
    intros y Hy [_ Hye]. by apply (dateLt_not_le _ _ Hy). }
  rewrite E at 1. rewrite filter_app, filter_cons_True, Hr2 by done.
  apply last_snoc.
Qed.

Lemma no_anchor_after_last rows e r :
  Chronological rows → last (timelineRows rows) = Some e →
  r ∈ rows → dateLt e r → isTimelineRow r = false.
Proof.
  intros Hc El Hr Hlt. destruct (isTimelineRow r) eqn:Ha; [|done].
  exfalso. apply (dateLt_not_le _ _ Hlt).
  eapply sorted_before_last; [by apply Chronological_timeline|done|].
  by apply timelineRows_elem.
Qed.

Lemma selectWindow_chronological rows hw fw :
  Chronological rows → timelineRows rows ≠ [] → 0 < hw →
  ∃ startRow lastRow,
    last (timelineRows rows) = Some lastRow
    ∧ timelineRows rows
        !! (length (timelineRows rows) - Z.to_nat hw)%nat = Some startRow
    ∧ selectWindow rows hw fw
      = Returns
          (filter (λ r, dateLe startRow r ∧ dateLe r lastRow) rows
           ++ take (Z.to_nat fw)
                (filter (λ r, dateLt lastRow r ∧ is_Some (forecastValue r))
                   rows)).
Proof.
  intros Hc Hne Hhw.
  destruct (selectWindow_anchored rows hw fw Hne Hhw)
    as (s & e & El & Es & ->).
  exists s, e. split_and!; [done..|]. csimpl.
  rewrite compactBase_span, forecastTail_take.
  rewrite bool_decide_eq_false_2; [done|].
  rewrite length_app.
  pose proof (window_last _ _ _ _ Hc Es El) as Hl.
  destruct (filter _ rows); [done|]. csimpl. lia.
Qed.

Lemma timelineRows_filter (P : ChartRow → Prop) `{∀ x, Decision (P x)} rows :
  timelineRows (filter P rows) = filter P (timelineRows rows).
Proof.
  unfold timelineRows. rewrite !list_filter_filter.
  apply list_filter_iff. naive_solver.
Qed.

Lemma timelineRows_app l1 l2 :
  timelineRows (l1 ++ l2) = timelineRows l1 ++ timelineRows l2.
Proof. apply filter_app. Qed.


(** C8. With a positive history window, the compact window of a non-empty
    row sequence is returned and is not empty: without anchor rows it is
    the rows unchanged, and when base and tail are both empty it is the
    rows again. *)
Theorem selectWindow_never_empty rows hw fw :
  rows ≠ [] → 0 < hw →
  ∃ out,
    selectWindow rows hw fw = Returns out
    ∧ out ≠ []
    ∧ (timelineRows rows = [] → out = rows)
    ∧ (∀ startRow lastRow,
         last (timelineRows rows) = Some lastRow →
         timelineRows rows
           !! (length (timelineRows rows) - Z.to_nat hw)%nat = Some startRow →
         compactBase (timeOf startRow) (timeOf lastRow) rows
           ++ forecastTail (timeOf lastRow) fw rows = [] →
         out = rows).
Proof.
  intros Hrows Hhw. destruct (decide (timelineRows rows = [])) as [E|Hne].
  - exists rows. rewrite selectWindow_no_anchor by done.
    split_and!; done.
  - destruct (selectWindow_anchored rows hw fw Hne Hhw)
      as (s & e & El & Es & ->).
    eexists. split; [done|]. csimpl. split_and!.
    + case_bool_decide as Hlen; [done|]. by intros E; rewrite E in Hlen.
    + done.
    + intros s' e' El' Es' Hnil. simplify_eq. by rewrite Hnil.
Qed.


Lemma allRows_date_elem data row :
  row ∈ allRows data → date row ∈ inputDates data.
Proof.
  intros H. rewrite <-sortedRows_dates_elem, <-allRows_dates.
  by apply list_elem_of_fmap_2.
Qed.

Lemma allRows_chronological data :
  CalendarDates (inputDates data) → Chronological (allRows data).
Proof.
  intros Hcal. split.
  - rewrite Forall_forall. intros row Hrow. apply Hcal.
    by apply allRows_date_elem.
  - eapply sorted_same_dates; [symmetry; apply allRows_dates|].
    by apply sortedRows_sorted.
Qed.

(** C10, as the code has it. A date that occurs only in the forecast has a
    row without the history flag and without the pending flag, also when
    the forecast's actual was backfilled, so the row is no anchor row. When
    the timeline has an anchor row, such a row is in the compact window
    exactly when its date lies in the span from the start row to the
    last anchor row or it is one of the rows of the forecast tail; when the
    timeline has no anchor row, the compact window is the whole timeline,
    the forecast-only rows included. *)
Theorem forecast_only_row_is_no_anchor data d hw fw :
  CalendarDates (inputDates data) →
  d ∈ ForecastPoint.ds <$> ForecastResponse.forecast data →
  d ∉ HistoryPoint.ds <$> ForecastResponse.history data →
  d ∉ PendingWeek.ds <$> ForecastResponse.pending_weeks data →
  0 < hw →
  ∃ row,
    row ∈ allRows data ∧ date row = d
    ∧ hasHistory row = false ∧ isPending row = None
    ∧ (row ∉ timelineRows (allRows data))
    ∧ (timelineRows (allRows data) ≠ [] →
       ∃ startRow lastRow out,
         last (timelineRows (allRows data)) = Some lastRow
         ∧ timelineRows (allRows data)
             !! (length (timelineRows (allRows data)) - Z.to_nat hw)%nat
           = Some startRow
         ∧ compactRows data hw fw = Returns out
         ∧ (row ∈ out
            ↔ (dateLe startRow row ∧ dateLe row lastRow)
              ∨ row ∈ take (Z.to_nat fw)
                        (filter (λ r, dateLt lastRow r
                                      ∧ is_Some (forecastValue r))
                           (allRows data))))
    ∧ (timelineRows (allRows data) = [] →
       compactRows data hw fw = Returns (allRows data)).
Proof.
  intros Hcal Hf Hh Hp Hhw.
  assert (d ∈ inputDates data) as Hd.
  { unfold inputDates. rewrite !elem_of_app. auto. }
  destruct (allRows_has_date data d Hd) as (row & Hrow & Hdate).
  exists row. split; [done|]. split; [done|].
  assert (hasHistory row = false ∧ isPending row = None) as [Hhist Hpend].
  { rewrite <-dataOf_hasHistory, <-dataOf_isPending.
    rewrite (allRows_rowOf _ _ Hrow), Hdate, rowOf_unfold. data_fields.
    rewrite (applyTo_absent d (historyWrites _))
      by by rewrite historyWrites_keys.
    rewrite (applyTo_absent d (pendingWrites _))
      by by rewrite pendingWrites_keys.
    apply (forecast_keeps (λ r, hasHistory r = false ∧ isPending r = None));
      [|done].
    intros point r [? ?].
    by destruct (forecastWrite_fill point r) as (_ & _ & _ & -> & ->). }
  split; [done|]. split; [done|].
  assert (isTimelineRow row = false) as Hanchor
    by (unfold isTimelineRow; by rewrite Hhist, Hpend).
  split_and!.
  - rewrite timelineRows_elem, Hanchor. naive_solver.
  - intros Hne.
    destruct (selectWindow_chronological (allRows data) hw fw
      (allRows_chronological _ Hcal) Hne Hhw) as (s & e & El & Es & Esel).
    exists s, e. eexists. split_and!; [done..|].
    rewrite elem_of_app, list_elem_of_filter. naive_solver.
  - intros E. by apply selectWindow_no_anchor.
Qed.


(** ** Order of the input arrays *)

Lemma applyTo_perm k (ws ws' : list Write) r :
  NoDup ws.*1 → ws ≡ₚ ws' → applyTo k ws r = applyTo k ws' r.
Proof.
  intros Hnd Hperm.
  assert (NoDup ws'.*1) as Hnd' by by rewrite <-Hperm.
  destruct (applyTo_cases k ws r Hnd) as [[Hnot ->]|(w & Hw & Hk & ->)].
  - symmetry. apply applyTo_absent. by rewrite <-Hperm.
  - symmetry. apply applyTo_unique; [done| |done]. by rewrite <-Hperm.
Qed.

Lemma rowOf_perm data data' d :
  ForecastResponse.history data ≡ₚ ForecastResponse.history data' →
  ForecastResponse.pending_weeks data ≡ₚ ForecastResponse.pending_weeks data' →
  ForecastResponse.forecast data ≡ₚ ForecastResponse.forecast data' →
  NoDup (HistoryPoint.ds <$> ForecastResponse.history data) →
  NoDup (PendingWeek.ds <$> ForecastResponse.pending_weeks data) →
  NoDup (ForecastPoint.ds <$> ForecastResponse.forecast data) →
  rowOf data d = rowOf data' d.
Proof.
  intros Hh Hp Hf Nh Np Nf. rewrite !rowOf_unfold.
  rewrite (applyTo_perm d (historyWrites (ForecastResponse.history data))
             (historyWrites (ForecastResponse.history data')));
    [|by rewrite historyWrites_keys|unfold historyWrites; by rewrite Hh].
  rewrite (applyTo_perm d (pendingWrites (ForecastResponse.pending_weeks data))
             (pendingWrites (ForecastResponse.pending_weeks data')));
    [|by rewrite pendingWrites_keys|unfold pendingWrites; by rewrite Hp].
  apply applyTo_perm;
    [by rewrite forecastWrites_keys|unfold forecastWrites; by rewrite Hf].
Qed.

Lemma inputDates_perm data data' :
  ForecastResponse.history data ≡ₚ ForecastResponse.history data' →
  ForecastResponse.pending_weeks data ≡ₚ ForecastResponse.pending_weeks data' →
  ForecastResponse.forecast data ≡ₚ ForecastResponse.forecast data' →
  inputDates data ≡ₚ inputDates data'.
Proof. intros Hh Hp Hf. unfold inputDates. by rewrite Hh, Hp, Hf. Qed.

Lemma sortedRows_elem data r :
  r ∈ sortedRows data ↔ date r ∈ inputDates data ∧ r = rowOf data (date r).
Proof.
  split.
  - intros Hr. split; [|by apply sortedRows_rowOf].
    rewrite <-sortedRows_dates_elem. by apply list_elem_of_fmap_2.
  - intros [Hd ->]. apply sortedRows_dates_elem in Hd.
    apply list_elem_of_fmap in Hd as (r' & Hdate & Hr').
    rewrite (sortedRows_rowOf _ _ Hr') in Hr'. by rewrite Hdate.
Qed.

Lemma sortedRows_rows_NoDup data : NoDup (sortedRows data).
Proof. eapply NoDup_fmap_1, sortedRows_NoDup. Qed.

Lemma CalendarDates_perm ds ds' :
  ds ≡ₚ ds' → CalendarDates ds → CalendarDates ds'.
Proof.
  intros Hperm [Hv Hinj]. split.
  - intros d Hd. apply Hv. by rewrite Hperm.
  - intros d1 d2 H1 H2. apply Hinj; by rewrite Hperm.
Qed.

Lemma dateLt_asym a b : dateLt a b → dateLt b a → a = b.
Proof. unfold dateLt. destruct (timeOf a), (timeOf b); try done. lia. Qed.

(** C7. The computation is a function of its inputs, so two runs on the
    same collections and window sizes give the same rows. Moreover, when
    the dates are calendar dates in one encoding and are distinct within
    each collection, permuting each of the three input arrays changes
    neither the merged timeline nor the compact window nor the rows that
    are charted. *)
Theorem merge_order_independent data data' hw fw :
  ForecastResponse.history data ≡ₚ ForecastResponse.history data' →
  ForecastResponse.pending_weeks data ≡ₚ ForecastResponse.pending_weeks data' →
  ForecastResponse.forecast data ≡ₚ ForecastResponse.forecast data' →
  NoDup (HistoryPoint.ds <$> ForecastResponse.history data) →
  NoDup (PendingWeek.ds <$> ForecastResponse.pending_weeks data) →
  NoDup (ForecastPoint.ds <$> ForecastResponse.forecast data) →
  CalendarDates (inputDates data) →
  allRows data = allRows data'
  ∧ compactRows data hw fw = compactRows data' hw fw
  ∧ ∀ showFullRange,
      chartData data showFullRange hw fw = chartData data' showFullRange hw fw.
Proof.
  intros Hh Hp Hf Nh Np Nf Hcal.
  pose proof (inputDates_perm _ _ Hh Hp Hf) as Hdates.
  assert (sortedRows data = sortedRows data') as Hsorted.
  { apply (StronglySorted_unique_strong dateLt).
    - intros ? ? _ _. apply dateLt_asym.
    - by apply sortedRows_sorted.
    - by apply sortedRows_sorted, (CalendarDates_perm _ _ Hdates).
    - apply NoDup_Permutation; [apply sortedRows_rows_NoDup..|].
      intros r. rewrite !sortedRows_elem, <-Hdates.
      by rewrite (rowOf_perm data data' (date r)). }
  assert (allRows data = allRows data') as Hall
    by (unfold allRows; by rewrite Hsorted).
  unfold chartData, compactRows. by rewrite Hall.
Qed.


(** ** Numbers at the boundary *)

Lemma toNumeric_finite v n : toNumeric v = Some n → isFinite n = true.
Proof.
  unfold toNumeric.
  destruct v as [| |b|m|str|]; try done;
    (destruct (isFinite _) eqn:E; [|done]); congruence.
Qed.

Lemma numericOrZero_finite v : isFinite (numericOrZero v) = true.
Proof.
  unfold numericOrZero. destruct (toNumeric v) eqn:E; [|done].
  by eapply toNumeric_finite.
Qed.

Lemma transformed_history_finite apiData :
  Forall (λ p, isFinite (HistoryPoint.y p) = true)
    (ForecastResponse.history (transformed apiData)).
Proof.
  unfold transformed. csimpl. destruct (ApiData.history apiData); [|done].
  rewrite Forall_fmap. apply Forall_true. intros item.
  apply numericOrZero_finite.
Qed.

Lemma transformed_forecast_finite apiData :
  Forall (λ p, isFinite (ForecastPoint.y_pred p) = true
               ∧ finiteOrNull (ForecastPoint.actual p))
    (ForecastResponse.forecast (transformed apiData)).
Proof.
  unfold transformed. csimpl. destruct (ApiData.forecast apiData); [|done].
  rewrite Forall_fmap. apply Forall_true. intros item. csimpl.
  split; [apply numericOrZero_finite|].
  destruct (toNumeric _) eqn:E; [|done]. by eapply toNumeric_finite.
Qed.

Lemma transformed_pending_finite apiData :
  Forall (λ p, isFinite (PendingWeek.prediction p) = true)
    (ForecastResponse.pending_weeks (transformed apiData)).
Proof.
  unfold transformed. csimpl. destruct (ApiData.pending_weeks apiData); [|done].
  rewrite Forall_fmap. apply Forall_true. intros item.
  apply numericOrZero_finite.
Qed.

Lemma channelsFinite_history point r :
  isFinite (HistoryPoint.y point) = true →
  channelsFinite r → channelsFinite (historyWrite point r).
Proof.
  intros Hy (? & ? & ? & ? & ?). unfold channelsFinite, historyWrite.
  by destruct (HistoryPoint.source point).
Qed.

Lemma channelsFinite_pending point r :
  isFinite (PendingWeek.prediction point) = true →
  channelsFinite r → channelsFinite (pendingWrite point r).
Proof. by intros Hy (? & ? & ? & ? & ?). Qed.

Lemma channelsFinite_forecast point r :
  isFinite (ForecastPoint.y_pred point) = true →
  channelsFinite r → channelsFinite (forecastWrite point r).
Proof.
  intros Hy (? & ? & ? & ? & ?). unfold channelsFinite.
  rewrite forecastWrite_actualReal, forecastWrite_forecastValue,
    forecastWrite_connector.
  destruct (forecastWrite_fill point r) as (-> & -> & _).
  split_and!; try done.
  destruct (actualReal r), (ForecastPoint.actual point) as [a|]; try done.
  by destruct (isFinite a) eqn:E.
Qed.

Lemma channelsFinite_self r : channelsFinite r → channelsFinite (selfRow r).
Proof. by intros (? & ? & ? & ? & ?). Qed.

Lemma bestValue_finite r : channelsFinite r → finiteOrNull (bestValue r).
Proof.
  intros (? & ? & ? & ? & ?). unfold bestValue.
  by destruct (actualReal r), (filledValue r).
Qed.

Lemma channelsFinite_link b r : channelsFinite r → channelsFinite (linkRow b r).
Proof.
  intros Hr. pose proof (bestValue_finite _ Hr) as Hb.
  destruct Hr as (? & ? & ? & ? & ?). unfold channelsFinite.
  rewrite linkRow_connector, linkRow_fillLine.
  rewrite <-(dataOf_actualReal (linkRow b r)), <-(dataOf_filledValue (linkRow b r)),
    <-(dataOf_forecastValue (linkRow b r)), linkRow_data.
  data_fields. split_and!; try done.
  - by destruct (manualConnector r), (bestValue r), b.
  - by destruct (manualConnector r).
Qed.

(** Finite inputs give finite channels. *)
Lemma allRows_finite data :
  Forall (λ p, isFinite (HistoryPoint.y p) = true)
    (ForecastResponse.history data) →
  Forall (λ p, isFinite (PendingWeek.prediction p) = true)
    (ForecastResponse.pending_weeks data) →
  Forall (λ p, isFinite (ForecastPoint.y_pred p) = true)
    (ForecastResponse.forecast data) →
  Forall channelsFinite (allRows data).
Proof.
  intros Hh Hp Hf. unfold allRows, connectorPass.
  apply passPrefix_Forall; auto using channelsFinite_self, channelsFinite_link.
  rewrite sortedRows_Permutation. unfold mapValues. rewrite Forall_fmap.
  rewrite rowsMap_writes.
  apply (writeSteps_invariant (λ _ r, channelsFinite r)); [done| |done].
  unfold writesOf, historyWrites, pendingWrites, forecastWrites.
  rewrite !Forall_app, !Forall_fmap. split_and!.
  - eapply Forall_impl; [exact Hh|]. intros point Hy k r. csimpl.
    by apply channelsFinite_history.
  - eapply Forall_impl; [exact Hp|]. intros point Hy k r. csimpl.
    by apply channelsFinite_pending.
  - eapply Forall_impl; [exact Hf|]. intros point Hy k r. csimpl.
    by apply channelsFinite_forecast.
Qed.

Lemma toNumeric_None v : toNumeric v = None ↔ invalidField v.
Proof.
  unfold toNumeric, invalidField.
  destruct v as [| |b|n|str|]; try done;
    (destruct (isFinite _) eqn:E; split; congruence).
Qed.

Lemma toNumeric_Some v n : toNumeric v = Some n ↔ fieldNumber v n.
Proof.
  unfold toNumeric, fieldNumber. split.
  - destruct v as [| |b|m|str|]; try done;
      (destruct (isFinite _) eqn:E; [|done]); intros [= <-];
      (split; [done|]); [by left|right; by exists str].
  - intros [Hn [->|(str & -> & ->)]]; by rewrite Hn.
Qed.

Lemma numericOrZero_invalid v : invalidField v → numericOrZero v = 0%float.
Proof.
  intros Hv%toNumeric_None. unfold numericOrZero. by rewrite Hv.
Qed.

Lemma numericOrZero_valid v n : fieldNumber v n → numericOrZero v = n.
Proof.
  intros Hv%toNumeric_Some. unfold numericOrZero. by rewrite Hv.
Qed.

Lemma Forall2_fmap_self {A B} (R : A → B → Prop) (f : A → B) l :
  (∀ x, R x (f x)) → Forall2 R l (f <$> l).
Proof. intros H. induction l; csimpl; constructor; auto. Qed.

Lemma forecastSteps_fields (m : RowsMap) l l' :
  (λ p, (ForecastPoint.ds p, ForecastPoint.y_pred p, ForecastPoint.actual p))
    <$> l
  = (λ p, (ForecastPoint.ds p, ForecastPoint.y_pred p, ForecastPoint.actual p))
      <$> l' →
  foldl forecastStep m l = foldl forecastStep m l'.
Proof.
  revert m l'. induction l as [|p l IH]; intros m [|p' l']; csimpl;
    [done|done|done|].
  intros [= Hd Hy Ha Hl].
  assert (forecastStep m p = forecastStep m p') as ->; [|by apply IH].
  destruct p as [d h y a], p' as [d' h' y' a']. csimpl in *.
  by rewrite Hd, Hy, Ha.
Qed.

Lemma allRows_forecast_fields data data' :
  ForecastResponse.history data = ForecastResponse.history data' →
  ForecastResponse.pending_weeks data = ForecastResponse.pending_weeks data' →
  (λ p, (ForecastPoint.ds p, ForecastPoint.y_pred p, ForecastPoint.actual p))
    <$> ForecastResponse.forecast data
  = (λ p, (ForecastPoint.ds p, ForecastPoint.y_pred p, ForecastPoint.actual p))
      <$> ForecastResponse.forecast data' →
  allRows data = allRows data'.
Proof.
  intros Hh Hp Hf. unfold allRows, sortedRows, rowsMap.
  by rewrite Hh, Hp, (forecastSteps_fields _ _ _ Hf).
Qed.

(** C5, as the code has it. [toNumeric] answers null exactly for the
    numerically invalid fields: what is neither a number nor a text, a
    number that is not finite, and a text that [Number] does not read as a
    finite number; for every other field it answers the finite number the
    field stands for. No item is dropped: each response item gives one
    point with its date, in order. An invalid case count or prediction
    becomes 0 ([toNumeric(...) ?? 0]) and an invalid actual of a forecast
    item becomes null; a valid one is passed on as its number. The horizon
    of a forecast item is not coerced, it is [Number(item.h ?? 0)] whatever
    that is; but the merge reads a forecast point only through its date,
    prediction and actual, so the rows do not depend on it. A field that is
    no array gives an empty collection. So every number the merge reads is
    finite, and every channel of every merged row is null or finite, never
    NaN. *)
Theorem boundary_coerces_invalid_numbers apiData :
  (∀ v, toNumeric v = None ↔ invalidField v)
  ∧ (∀ v n, toNumeric v = Some n ↔ fieldNumber v n)
  ∧ (∀ items, ApiData.history apiData = Some items →
       Forall2
         (λ item p,
            HistoryPoint.ds p = ApiHistoryItem.ds item
            ∧ HistoryPoint.source p
              = default observed (ApiHistoryItem.source item)
            ∧ (invalidField (ApiHistoryItem.cases item) →
               HistoryPoint.y p = 0%float)
            ∧ (∀ n, fieldNumber (ApiHistoryItem.cases item) n →
               HistoryPoint.y p = n))
         items (ForecastResponse.history (transformed apiData)))
  ∧ (∀ items, ApiData.pending_weeks apiData = Some items →
       Forall2
         (λ item p,
            PendingWeek.ds p = ApiPendingItem.ds item
            ∧ (invalidField (ApiPendingItem.prediction item) →
               PendingWeek.prediction p = 0%float)
            ∧ (∀ n, fieldNumber (ApiPendingItem.prediction item) n →
               PendingWeek.prediction p = n))
         items (ForecastResponse.pending_weeks (transformed apiData)))
  ∧ (∀ items, ApiData.forecast apiData = Some items →
       Forall2
         (λ item p,
            ForecastPoint.ds p = ApiForecastItem.ds item
            ∧ (invalidField (ApiForecastItem.prediction item) →
               ForecastPoint.y_pred p = 0%float)
            ∧ (∀ n, fieldNumber (ApiForecastItem.prediction item) n →
               ForecastPoint.y_pred p = n)
            ∧ (invalidField (ApiForecastItem.actual item) →
               ForecastPoint.actual p = None)
            ∧ (∀ n, fieldNumber (ApiForecastItem.actual item) n →
               ForecastPoint.actual p = Some n)
            ∧ ForecastPoint.horizon p
              = Number match ApiForecastItem.h item with
                       | JsUndefined | JsNull => JsNumber 0%float
                       | v => v
                       end)
         items (ForecastResponse.forecast (transformed apiData)))
  ∧ (ApiData.history apiData = None →
     ForecastResponse.history (transformed apiData) = [])
  ∧ (ApiData.pending_weeks apiData = None →
     ForecastResponse.pending_weeks (transformed apiData) = [])
  ∧ (ApiData.forecast apiData = None →
     ForecastResponse.forecast (transformed apiData) = [])
  ∧ Forall (λ p, isFinite (HistoryPoint.y p) = true)
      (ForecastResponse.history (transformed apiData))
  ∧ Forall (λ p, isFinite (PendingWeek.prediction p) = true)
      (ForecastResponse.pending_weeks (transformed apiData))
  ∧ Forall (λ p, isFinite (ForecastPoint.y_pred p) = true
                 ∧ finiteOrNull (ForecastPoint.actual p))
      (ForecastResponse.forecast (transformed apiData))
  ∧ (∀ data data',
       ForecastResponse.history data = ForecastResponse.history data' →
       ForecastResponse.pending_weeks data
       = ForecastResponse.pending_weeks data' →
       (λ p, (ForecastPoint.ds p, ForecastPoint.y_pred p,
              ForecastPoint.actual p)) <$> ForecastResponse.forecast data
       = (λ p, (ForecastPoint.ds p, ForecastPoint.y_pred p,
                ForecastPoint.actual p)) <$> ForecastResponse.forecast data' →
       allRows data = allRows data')
  ∧ Forall channelsFinite (allRows (transformed apiData)).
Proof.
  split_and!.
  - apply toNumeric_None.
  - apply toNumeric_Some.
  - intros items E. unfold transformed. csimpl. rewrite E.
    apply Forall2_fmap_self. intros item. csimpl. split_and!; [done..| |].
    + apply numericOrZero_invalid.
    + apply numericOrZero_valid.
  - intros items E. unfold transformed. csimpl. rewrite E.
    apply Forall2_fmap_self. intros item. csimpl. split_and!; [done| |].
    + apply numericOrZero_invalid.
    + apply numericOrZero_valid.
  - intros items E. unfold transformed. csimpl. rewrite E.
    apply Forall2_fmap_self. intros item. csimpl. split_and!; [done| | | | |done].
    + apply numericOrZero_invalid.
    + apply numericOrZero_valid.
    + apply toNumeric_None.
    + intros n. apply toNumeric_Some.
  - intros E. unfold transformed. csimpl. by rewrite E.
  - intros E. unfold transformed. csimpl. by rewrite E.
  - intros E. unfold transformed. csimpl. by rewrite E.
  - apply transformed_history_finite.
  - apply transformed_pending_finite.
  - apply transformed_forecast_finite.
  - apply allRows_forecast_fields.
  - apply allRows_finite.
    + apply transformed_history_finite.
    + apply transformed_pending_finite.
    + eapply Forall_impl; [apply transformed_forecast_finite|]. by intros p [? _].
Qed.


(** Calendar dates, checked by computing the time values. *)
Lemma CalendarDates_intro ds :
  Forall (λ d, is_Some (getTime d)) ds →
  NoDup (getTime <$> remove_dups ds) →
  CalendarDates ds.
Proof.
  intros Hv Hnd. split.
  - by apply Forall_forall.
  - intros d1 d2 H1 H2. apply (NoDup_fmap_eq getTime (remove_dups ds));
      [done|by apply elem_of_remove_dups..].
Qed.


(** * Further properties of the chart rows *)

(** From here on a lemma depends on the two readers only when its statement
    names them. *)
Set Default Proof Using "Type".

(** Drops the readers from the context of a goal that does not name them,
    so that proof search cannot pick them up. *)
Ltac spare := try clear getTime; try clear Number.

(** ** When the window computation throws *)

(** X1. The window computation throws exactly when the timeline has an
    anchor row and the history window is not positive: the start row is
    then read past the end of the anchor rows. In every other case it
    returns. *)
Theorem selectWindow_throws_iff rows hw fw :
  selectWindow rows hw fw = TypeError ↔ timelineRows rows ≠ [] ∧ hw ≤ 0.
Proof.
  destruct (decide (timelineRows rows = [])) as [E|Hne].
  { rewrite selectWindow_no_anchor by done. naive_solver. }
  destruct (Z.lt_ge_cases 0 hw) as [Hhw|Hhw].
  - destruct (selectWindow_anchored rows hw fw Hne Hhw) as (s & e & _ & _ & ->).
    split; [done|lia].
  - split; [done|]. intros _. unfold selectWindow.
    rewrite bool_decide_eq_false_2 by (by intros ?%nil_length_inv).
    rewrite lastRow_lookup by done.
    destruct (last (timelineRows rows)); [|done].
    unfold windowStartRow, rowAt.
    destruct (Z.ltb_spec hw (Z.of_nat (length (timelineRows rows)))).
    + destruct (Z.ltb_spec (Z.of_nat (length (timelineRows rows)) - hw) 0);
        [done|].
      rewrite (proj2 (lookup_ge_None _ _)); [done|lia].
    + assert (length (timelineRows rows) ≠ 0)%nat
        by (by intros ?%nil_length_inv).
      lia.
Qed.

(** ** What every merged row looks like *)

Lemma applyTo_sets (Q : ChartRow → Prop) k (ws : list Write) r :
  k ∈ ws.*1 → Forall (λ w : Write, ∀ r, Q (w.2 r)) ws → Q (applyTo k ws r).
Proof.
  intros Hk Hws. revert r Hk.
  induction Hws as [|w ws Hw _ IH]; intros r Hk; [by apply elem_of_nil in Hk|].
  change (Q (applyTo k ws (if decide (w.1 = k) then w.2 r else r))).
  destruct (decide (k ∈ ws.*1)) as [Hin|Hin]; [by apply IH|].
  csimpl in Hk. apply elem_of_cons in Hk as [->|?]; [|done].
  rewrite decide_True by done. rewrite applyTo_absent by done. apply Hw.
Qed.

Lemma history_sets (Q : ChartRow → Prop) d history r :
  d ∈ HistoryPoint.ds <$> history →
  (∀ point r, Q (historyWrite point r)) →
  Q (applyTo d (historyWrites history) r).
Proof.
  intros Hd H. apply applyTo_sets; [by rewrite historyWrites_keys|].
  unfold historyWrites. rewrite Forall_fmap. apply Forall_true.
  intros point r'. apply H.
Qed.

Lemma pending_sets (Q : ChartRow → Prop) d pending r :
  d ∈ PendingWeek.ds <$> pending →
  (∀ point r, Q (pendingWrite point r)) →
  Q (applyTo d (pendingWrites pending) r).
Proof.
  intros Hd H. apply applyTo_sets; [by rewrite pendingWrites_keys|].
  unfold pendingWrites. rewrite Forall_fmap. apply Forall_true.
  intros point r'. apply H.
Qed.

Lemma forecast_sets (Q : ChartRow → Prop) d forecast r :
  d ∈ ForecastPoint.ds <$> forecast →
  (∀ point r, Q (forecastWrite point r)) →
  Q (applyTo d (forecastWrites forecast) r).
Proof.
  intros Hd H. apply applyTo_sets; [by rewrite forecastWrites_keys|].
  unfold forecastWrites. rewrite Forall_fmap. apply Forall_true.
  intros point r'. apply H.
Qed.

Lemma history_keeps (P : ChartRow → Prop) k history r :
  (∀ point r, P r → P (historyWrite point r)) →
  P r → P (applyTo k (historyWrites history) r).
Proof.
  intros H. apply applyTo_keeps. unfold historyWrites.
  rewrite Forall_fmap. apply Forall_true. intros point r'. apply H.
Qed.

Lemma tagsAgree_new d : tagsAgree (newRow d).
Proof.
  spare.
  unfold tagsAgree. csimpl. rewrite !is_Some_alt. naive_solver.
Qed.

Lemma tagsAgree_history point r : tagsAgree r → tagsAgree (historyWrite point r).
Proof.
  unfold tagsAgree, historyWrite.
  destruct (HistoryPoint.source point); csimpl; rewrite !is_Some_alt;
    naive_solver.
Qed.

Lemma tagsAgree_pending point r : tagsAgree r → tagsAgree (pendingWrite point r).
Proof.
  unfold tagsAgree, pendingWrite. csimpl. rewrite !is_Some_alt. naive_solver.
Qed.

Lemma tagsAgree_forecast point r : tagsAgree r → tagsAgree (forecastWrite point r).
Proof.
  unfold tagsAgree.
  rewrite forecastWrite_actualReal, forecastWrite_actualSource,
    forecastWrite_hasForecast, forecastWrite_forecastValue.
  destruct (forecastWrite_fill point r) as (-> & _ & -> & _ & ->).
  destruct (actualReal r), (ForecastPoint.actual point) as [a|];
    try destruct (isFinite a); rewrite !is_Some_alt; naive_solver.
Qed.

Lemma rowOf_pendingAgrees data d : pendingAgrees (rowOf data d).
Proof.
  spare.
  rewrite rowOf_unfold.
  apply (forecast_keeps pendingAgrees).
  { intros point r. unfold pendingAgrees.
    by destruct (forecastWrite_fill point r) as (_ & _ & -> & -> & _). }
  apply (applyTo_keeps pendingAgrees).
  { unfold pendingWrites. rewrite Forall_fmap. apply Forall_true.
    intros point r _. unfold pendingAgrees, pendingWrite. csimpl. naive_solver. }
  assert (isPending (applyTo d
    (historyWrites (ForecastResponse.history data)) (newRow d)) = None
    ∧ filledSource (applyTo d
        (historyWrites (ForecastResponse.history data)) (newRow d))
      ≠ Some fill_pending) as [Hp Hs].
  { apply (history_keeps (λ r, isPending r = None
                               ∧ filledSource r ≠ Some fill_pending));
      [|done].
    intros point r [? ?]. unfold historyWrite.
    by destruct (HistoryPoint.source point). }
  unfold pendingAgrees. rewrite Hp. naive_solver.
Qed.

Lemma rowOf_tagsAgree data d : tagsAgree (rowOf data d).
Proof.
  unfold rowOf. apply applyTo_keeps; [|apply tagsAgree_new].
  unfold writesOf, historyWrites, pendingWrites, forecastWrites.
  rewrite !Forall_app, !Forall_fmap.
  split_and!; apply Forall_true; intros point r; csimpl;
    auto using tagsAgree_history, tagsAgree_pending, tagsAgree_forecast.
Qed.

Lemma rowOf_flagged data d :
  d ∈ inputDates data →
  hasHistory (rowOf data d) = true ∨ isPending (rowOf data d) = Some true
  ∨ hasForecast (rowOf data d) = true.
Proof.
  unfold inputDates. rewrite !elem_of_app, rowOf_unfold.
  intros [Hh|[Hp|Hf]].
  - left. apply (forecast_keeps (λ r, hasHistory r = true)).
    { intros point r ?.
      by destruct (forecastWrite_fill point r) as (_ & _ & _ & _ & ->). }
    apply (pending_keeps (λ r, hasHistory r = true)); [done|].
    apply (history_sets (λ r, hasHistory r = true)); [done|].
    intros point r. unfold historyWrite. by destruct (HistoryPoint.source point).
  - right; left. apply (forecast_keeps (λ r, isPending r = Some true)).
    { intros point r ?.
      by destruct (forecastWrite_fill point r) as (_ & _ & _ & -> & _). }
    by apply (pending_sets (λ r, isPending r = Some true)).
  - right; right. apply (forecast_sets (λ r, hasForecast r = true)); [done|].
    apply forecastWrite_hasForecast.
Qed.

(** X2. In every row of the merged timeline: the actual value and its
    source are both set or both unset, likewise the fill value and its
    source, and the forecast flag and the forecast value; the actual source
    is observed or manual, never a fill source; a manual actual and a
    synthetic or seasonal fill occur only with the history flag; the
    pending flag is unset or true, and it is true exactly when the fill
    source is pending; and the row has the history flag, the pending flag
    or the forecast flag. *)
Theorem merged_row_shape data row :
  row ∈ allRows data →
  (is_Some (actualReal row) ↔ is_Some (actualSource row))
  ∧ (is_Some (filledValue row) ↔ is_Some (filledSource row))
  ∧ (hasForecast row = true ↔ is_Some (forecastValue row))
  ∧ (actualSource row = None ∨ actualSource row = Some observed
     ∨ actualSource row = Some manual)
  ∧ (actualSource row = Some manual → hasHistory row = true)
  ∧ (filledSource row = Some fill_synthetic
     ∨ filledSource row = Some fill_seasonal_clone → hasHistory row = true)
  ∧ (isPending row = None ∨ isPending row = Some true)
  ∧ (isPending row = Some true ↔ filledSource row = Some fill_pending)
  ∧ (hasHistory row = true ∨ isPending row = Some true
     ∨ hasForecast row = true).
Proof.
  intros Hrow. pose proof (allRows_rowOf _ _ Hrow) as Hd.
  pose proof (rowOf_tagsAgree data (date row)) as Ht.
  pose proof (rowOf_pendingAgrees data (date row)) as Hp.
  pose proof (rowOf_flagged data (date row) (allRows_date_elem _ _ Hrow)) as Hf.
  unfold tagsAgree, pendingAgrees in *.
  rewrite <-(dataOf_actualReal row), <-(dataOf_actualSource row),
    <-(dataOf_filledValue row), <-(dataOf_filledSource row),
    <-(dataOf_hasForecast row), <-(dataOf_forecastValue row),
    <-(dataOf_hasHistory row), <-(dataOf_isPending row), Hd.
  data_fields. naive_solver.
Qed.

(** ** The connector of a merged row *)

Lemma dataOf_bestValue r r' : dataOf r = dataOf r' → bestValue r = bestValue r'.
Proof.
  intros Hd. unfold bestValue.
  rewrite <-(dataOf_actualReal r), <-(dataOf_filledValue r),
    <-(dataOf_forecastValue r), Hd.
  by data_fields.
Qed.

(** X3. In the merged timeline the connector of a row is its best value
    (actual, else fill, else forecast) when the row, its predecessor or its
    successor is a manual row, and null otherwise; its fill line is null
    when the row is manual or follows a manual row and has a best value, and
    is otherwise what the three loops wrote. *)
Theorem merged_connector data j row :
  allRows data !! j = Some row →
  manualConnector row
  = (if manualAt (allRows data) (Z.of_nat j - 1) || isManual row
        || manualAt (allRows data) (Z.of_nat j + 1)
     then bestValue row else None)
  ∧ filledLineValue row
    = (if isManual row
          || manualAt (allRows data) (Z.of_nat j - 1) && notNull (bestValue row)
       then None else filledLineValue (rowOf data (date row))).
Proof.
  intros Hj. destruct (allRows_lookup _ _ _ Hj) as (r & Er & Hr & Hd & ->).
  rewrite !manualAt_allRows.
  set (p := manualAt (sortedRows data) (Z.of_nat j - 1)).
  set (n := manualAt (sortedRows data) (Z.of_nat j + 1)).
  pose proof (settleWith_data p (isManual r) n r) as Hdata.
  rewrite (dataOf_isManual _ _ Hdata), (dataOf_bestValue _ _ Hdata).
  rewrite settleWith_connector, settleWith_fillLine, settleWith_date, <-Hr.
  - done.
  - by apply (Forall_lookup_1 _ _ _ _ (sortedRows_connector data) Er).
Qed.

Lemma manualAt_none rows i :
  Forall (λ r, isManual r = false) rows → manualAt rows i = false.
Proof.
  intros Hrows. unfold manualAt, rowAt.
  destruct (i <? 0); [done|].
  destruct (rows !! Z.to_nat i) as [r|] eqn:E; [|done].
  by apply (Forall_lookup_1 _ _ _ _ Hrows E).
Qed.

Lemma rowOf_not_manual data d :
  Forall (λ point, HistoryPoint.source point ≠ manual)
    (ForecastResponse.history data) →
  actualSource (rowOf data d) ≠ Some manual.
Proof.
  intros Hh. unfold rowOf. apply applyTo_keeps; [|done].
  unfold writesOf, historyWrites, pendingWrites, forecastWrites.
  rewrite !Forall_app, !Forall_fmap. split_and!.
  - eapply Forall_impl; [exact Hh|]. intros point Hs r Hr. csimpl in *.
    unfold historyWrite.
    destruct (HistoryPoint.source point); csimpl; congruence.
  - apply Forall_true. by intros point r Hr.
  - apply Forall_true. intros point r Hr. csimpl.
    rewrite forecastWrite_actualSource.
    destruct (actualReal r), (ForecastPoint.actual point) as [a|];
      try destruct (isFinite a); done.
Qed.

(** X4. When no history point has source manual, the connector pass
    changes nothing: the merged timeline is the sorted array of the rows
    the three loops built, and no row has a connector. *)
Theorem no_manual_no_connector data :
  Forall (λ point, HistoryPoint.source point ≠ manual)
    (ForecastResponse.history data) →
  allRows data = sortedRows data
  ∧ Forall (λ row, manualConnector row = None) (allRows data).
Proof.
  intros Hh.
  assert (Forall (λ r, isManual r = false) (sortedRows data)) as Hm.
  { apply Forall_forall. intros r Hr.
    rewrite (sortedRows_rowOf _ _ Hr). unfold isManual.
    pose proof (rowOf_not_manual data (date r) Hh).
    by destruct (actualSource (rowOf data (date r))) as [[]|]. }
  assert (allRows data = sortedRows data) as E.
  { unfold allRows.
    rewrite connectorPass_settle by apply sortedRows_connector.
    apply list_eq. intros j. rewrite list_lookup_imap.
    destruct (sortedRows data !! j) as [r|]; [|done]. csimpl.
    unfold settle. rewrite !claimed_all, !(manualAt_none _ _ Hm). done. }
  split; [done|]. rewrite E. apply sortedRows_connector.
Qed.

(** ** The compact window as a part of the timeline *)

Lemma filter_ext_Forall {A} (P Q : A → Prop) `{∀ x, Decision (P x)}
    `{∀ x, Decision (Q x)} (l : list A) :
  Forall (λ x, P x ↔ Q x) l → filter P l = filter Q l.
Proof.
  induction 1 as [|x l Hx _ IH]; [done|].
  destruct (decide (P x)).
  - rewrite !filter_cons_True by naive_solver. by rewrite IH.
  - rewrite !filter_cons_False by naive_solver. done.
Qed.

Lemma allRows_forecast_or_anchor data row :
  row ∈ allRows data → isTimelineRow row = false →
  is_Some (forecastValue row).
Proof.
  intros Hrow Hna. pose proof (allRows_rowOf _ _ Hrow) as Hd.
  pose proof (rowOf_tagsAgree data (date row)) as (_ & _ & Hfv & _).
  pose proof (rowOf_flagged data (date row) (allRows_date_elem _ _ Hrow)) as Hf.
  revert Hna. unfold isTimelineRow.
  rewrite <-(dataOf_forecastValue row), <-(dataOf_hasHistory row),
    <-(dataOf_isPending row), Hd.
  data_fields. intros Hna. apply Hfv.
  destruct Hf as [H|[H|H]]; [| |done].
  - by rewrite H in Hna.
  - rewrite H in Hna. by destruct (hasHistory (rowOf data (date row))).
Qed.

Lemma Chronological_take rows n : Chronological rows → Chronological (take n rows).
Proof.
  intros [Ht Hs]. split; [by apply Forall_take|].
  rewrite <-(take_drop n rows) in Hs. by apply StronglySorted_app_1_l in Hs.
Qed.

Lemma sorted_lookup_le (l : list ChartRow) i j x y :
  StronglySorted dateLt l → l !! i = Some x → l !! j = Some y →
  dateLe x y → (i ≤ j)%nat.
Proof.
  intros Hs Ei Ej Hle. destruct (decide (i ≤ j)%nat); [done|].
  destruct (sorted_lookup_split _ _ _ Hs Ej) as [_ Hafter].
  assert (x ∈ drop (S j) l) as Hx.
  { apply list_elem_of_lookup. exists (i - S j)%nat.
    rewrite lookup_drop. by replace (S j + (i - S j))%nat with i by lia. }
  pose proof (proj1 (Forall_forall _ _) Hafter _ Hx) as Hlt.
  by apply dateLt_not_le in Hlt.
Qed.

Lemma span_run rows i_s i_e s e :
  Chronological rows → rows !! i_s = Some s → rows !! i_e = Some e →
  dateLe s e →
  filter (λ r, dateLe s r ∧ dateLe r e) rows = drop i_s (take (S i_e) rows).
Proof.
  intros Hc Es Ee Hse.
  pose proof (sorted_lookup_le _ _ _ _ _ (proj2 Hc) Es Ee Hse) as Hle.
  destruct (sorted_lookup_split _ _ _ (proj2 Hc) Ee) as [_ Hafter].
  rewrite <-(take_drop (S i_e) rows) at 1. rewrite filter_app.
  rewrite (filter_none _ (drop (S i_e) rows)).
  - rewrite app_nil_r.
    apply (window_of_sorted _ _ _ _ (Chronological_take _ (S i_e) Hc)).
    + rewrite lookup_take_lt by lia. done.
    + rewrite (take_S_r _ _ _ Ee). by rewrite last_snoc.
  - eapply Forall_impl; [exact Hafter|]. intros r Hr [_ Hre].
    by apply dateLt_not_le in Hr.
Qed.

Lemma tail_run rows i_e e :
  Chronological rows → rows !! i_e = Some e →
  filter (λ r, dateLt e r ∧ is_Some (forecastValue r)) rows
  = filter (λ r, is_Some (forecastValue r)) (drop (S i_e) rows).
Proof.
  intros Hc Ee.
  destruct (sorted_lookup_split _ _ _ (proj2 Hc) Ee) as [Hbefore Hafter].
  rewrite <-(take_drop_middle _ _ _ Ee) at 1.
  rewrite filter_app, filter_cons_False.
  - rewrite (filter_none _ (take i_e rows)).
    + csimpl. apply filter_ext_Forall.
      eapply Forall_impl; [exact Hafter|]. naive_solver.
    + eapply Forall_impl; [exact Hbefore|]. intros r Hr [Her _].
      exact (dateLt_not_le _ _ Hr (dateLt_le _ _ Her)).
  - intros [Hee _]. exact (dateLt_not_le _ _ Hee (dateLt_le _ _ Hee)).
Qed.

Lemma selectWindow_runs rows hw fw :
  Chronological rows → timelineRows rows ≠ [] → 0 < hw →
  ∃ i_s i_e s e,
    (i_s ≤ i_e)%nat
    ∧ rows !! i_s = Some s ∧ rows !! i_e = Some e
    ∧ last (timelineRows rows) = Some e
    ∧ timelineRows rows
        !! (length (timelineRows rows) - Z.to_nat hw)%nat = Some s
    ∧ selectWindow rows hw fw
      = Returns
          (drop i_s (take (S i_e) rows)
           ++ take (Z.to_nat fw)
                (filter (λ r, is_Some (forecastValue r))
                   (drop (S i_e) rows))).
Proof.
  intros Hc Hne Hhw.
  destruct (selectWindow_chronological rows hw fw Hc Hne Hhw)
    as (s & e & El & Es & ->).
  pose proof (start_before_last _ _ _ _ Hc Es El) as Hse.
  destruct (last_in_rows _ _ El) as [He _].
  assert (s ∈ rows) as Hs.
  { apply list_elem_of_lookup_2 in Es. by apply timelineRows_elem in Es as [_ ?]. }
  apply list_elem_of_lookup in He as [i_e Ee].
  apply list_elem_of_lookup in Hs as [i_s Es'].
  exists i_s, i_e, s, e. split_and!; try done.
  - by apply (sorted_lookup_le _ _ _ _ _ (proj2 Hc) Es' Ee).
  - by rewrite (span_run _ _ _ _ _ Hc Es' Ee Hse), (tail_run _ _ _ Hc Ee).
Qed.

(** X5. On a chronological timeline the compact window keeps the order
    of the rows and repeats none: the returned array is a subsequence of
    the timeline. *)
Theorem selectWindow_sublist rows hw fw out :
  Chronological rows → selectWindow rows hw fw = Returns out →
  sublist out rows.
Proof.
  intros Hc Hout.
  destruct (decide (timelineRows rows = [])) as [E|Hne].
  { rewrite selectWindow_no_anchor in Hout by done. by simplify_eq. }
  destruct (decide (0 < hw)) as [Hhw|Hhw].
  - destruct (selectWindow_runs rows hw fw Hc Hne Hhw)
      as (i_s & i_e & s & e & _ & _ & _ & _ & _ & E).
    rewrite E in Hout. simplify_eq.
    rewrite <-(take_drop (S i_e) rows) at 3.
    apply sublist_app; [apply sublist_drop|].
    etrans; [apply sublist_take|apply sublist_filter].
  - assert (selectWindow rows hw fw = TypeError) as E
      by (apply selectWindow_throws_iff; split; [done|lia]).
    by rewrite E in Hout.
Qed.

(** X6. The compact window of a merged timeline is one contiguous run of
    it: some rows are dropped at the front and some at the end, none in
    between. *)
Theorem compactRows_contiguous data hw fw :
  CalendarDates (inputDates data) → 0 < hw →
  ∃ i n, compactRows data hw fw = Returns (take n (drop i (allRows data))).
Proof.
  intros Hcal Hhw. unfold compactRows.
  pose proof (allRows_chronological data Hcal) as Hc.
  destruct (decide (timelineRows (allRows data) = [])) as [E|Hne].
  { exists 0%nat, (length (allRows data)).
    rewrite selectWindow_no_anchor by done. by rewrite drop_0, firstn_all. }
  destruct (selectWindow_runs _ hw fw Hc Hne Hhw)
    as (i_s & i_e & s & e & Hle & _ & Ee & El & _ & ->).
  exists i_s, (S i_e - i_s + Z.to_nat fw)%nat. f_equal.
  rewrite (filter_all _ (drop (S i_e) (allRows data))); last first.
  { apply Forall_forall. intros r Hr.
    assert (r ∈ allRows data) as Hin.
    { by apply (subseteq_drop (S i_e) (allRows data)). }
    destruct (sorted_lookup_split _ _ _ (proj2 Hc) Ee) as [_ Hafter].
    pose proof (proj1 (Forall_forall _ _) Hafter _ Hr) as Hlt.
    apply (allRows_forecast_or_anchor data); [done|].
    by apply (no_anchor_after_last _ _ _ Hc El Hin Hlt). }
  rewrite <-(take_take_drop (drop i_s (allRows data)) (S i_e - i_s)
              (Z.to_nat fw)).
  rewrite (take_drop_commute (allRows data) (S i_e - i_s) i_s), drop_drop.
  by replace (i_s + (S i_e - i_s))%nat with (S i_e) by lia.
Qed.

(** ** The flags say which collections mention the date *)

Lemma rowOf_hasHistory data d :
  hasHistory (rowOf data d) = true
  ↔ d ∈ HistoryPoint.ds <$> ForecastResponse.history data.
Proof.
  rewrite rowOf_unfold.
  destruct (decide (d ∈ HistoryPoint.ds <$> ForecastResponse.history data))
    as [Hin|Hin].
  - split; [done|]. intros _.
    apply (forecast_keeps (λ r, hasHistory r = true)).
    { intros point r ?.
      by destruct (forecastWrite_fill point r) as (_ & _ & _ & _ & ->). }
    apply (pending_keeps (λ r, hasHistory r = true)); [done|].
    apply (history_sets (λ r, hasHistory r = true)); [done|].
    intros point r. unfold historyWrite. by destruct (HistoryPoint.source point).
  - rewrite (applyTo_absent d (historyWrites _))
      by (by rewrite historyWrites_keys).
    assert (hasHistory (applyTo d
      (forecastWrites (ForecastResponse.forecast data))
      (applyTo d (pendingWrites (ForecastResponse.pending_weeks data))
        (newRow d))) = false) as ->; [|done].
    apply (forecast_keeps (λ r, hasHistory r = false)).
    { intros point r ?.
      by destruct (forecastWrite_fill point r) as (_ & _ & _ & _ & ->). }
    by apply (pending_keeps (λ r, hasHistory r = false)).
Qed.

Lemma rowOf_isPending data d :
  isPending (rowOf data d) = Some true
  ↔ d ∈ PendingWeek.ds <$> ForecastResponse.pending_weeks data.
Proof.
  rewrite rowOf_unfold.
  destruct (decide (d ∈ PendingWeek.ds <$> ForecastResponse.pending_weeks data))
    as [Hin|Hin].
  - split; [done|]. intros _.
    apply (forecast_keeps (λ r, isPending r = Some true)).
    { intros point r ?.
      by destruct (forecastWrite_fill point r) as (_ & _ & _ & -> & _). }
    by apply (pending_sets (λ r, isPending r = Some true)).
  - rewrite (applyTo_absent d (pendingWrites _))
      by (by rewrite pendingWrites_keys).
    assert (isPending (applyTo d
      (forecastWrites (ForecastResponse.forecast data))
      (applyTo d (historyWrites (ForecastResponse.history data))
        (newRow d))) = None) as ->; [|done].
    apply (forecast_keeps (λ r, isPending r = None)).
    { intros point r ?.
      by destruct (forecastWrite_fill point r) as (_ & _ & _ & -> & _). }
    apply (history_keeps (λ r, isPending r = None)); [|done].
    intros point r ?. unfold historyWrite.
    by destruct (HistoryPoint.source point).
Qed.

Lemma rowOf_hasForecast data d :
  hasForecast (rowOf data d) = true
  ↔ d ∈ ForecastPoint.ds <$> ForecastResponse.forecast data.
Proof.
  rewrite rowOf_unfold.
  destruct (decide (d ∈ ForecastPoint.ds <$> ForecastResponse.forecast data))
    as [Hin|Hin].
  - split; [done|]. intros _.
    apply (forecast_sets (λ r, hasForecast r = true)); [done|].
    apply forecastWrite_hasForecast.
  - rewrite (applyTo_absent d (forecastWrites _))
      by (by rewrite forecastWrites_keys).
    assert (hasForecast
      (applyTo d (pendingWrites (ForecastResponse.pending_weeks data))
        (applyTo d (historyWrites (ForecastResponse.history data))
          (newRow d))) = false) as ->; [|done].
    apply (pending_keeps (λ r, hasForecast r = false)); [done|].
    apply (history_keeps (λ r, hasForecast r = false)); [|done].
    intros point r ?. unfold historyWrite.
    by destruct (HistoryPoint.source point).
Qed.

Lemma allRows_flags data row :
  row ∈ allRows data →
  (hasHistory row = true
   ↔ date row ∈ HistoryPoint.ds <$> ForecastResponse.history data)
  ∧ (isPending row = Some true
     ↔ date row ∈ PendingWeek.ds <$> ForecastResponse.pending_weeks data)
  ∧ (hasForecast row = true
     ↔ date row ∈ ForecastPoint.ds <$> ForecastResponse.forecast data).
Proof.
  intros Hrow. pose proof (allRows_rowOf _ _ Hrow) as Hd.
  rewrite <-(dataOf_hasHistory row), <-(dataOf_isPending row),
    <-(dataOf_hasForecast row), Hd.
  data_fields.
  split_and!;
    [apply rowOf_hasHistory|apply rowOf_isPending|apply rowOf_hasForecast].
Qed.

(** X7. A merged row has the history flag exactly when its date occurs in
    the history collection, the pending flag exactly when it occurs in the
    pending collection, and the forecast flag exactly when it occurs in the
    forecast collection. *)
Theorem merged_row_flags data row :
  row ∈ allRows data →
  (hasHistory row = true
   ↔ date row ∈ HistoryPoint.ds <$> ForecastResponse.history data)
  ∧ (isPending row = Some true
     ↔ date row ∈ PendingWeek.ds <$> ForecastResponse.pending_weeks data)
  ∧ (hasForecast row = true
     ↔ date row ∈ ForecastPoint.ds <$> ForecastResponse.forecast data).
Proof.
  intros Hrow. pose proof (allRows_rowOf _ _ Hrow) as Hd.
  rewrite <-(dataOf_hasHistory row), <-(dataOf_isPending row),
    <-(dataOf_hasForecast row), Hd.
  data_fields.
  pose proof (rowOf_hasHistory data (date row)).
  pose proof (rowOf_isPending data (date row)).
  pose proof (rowOf_hasForecast data (date row)).
  by split_and!.
Qed.

Lemma allRows_no_anchor data :
  timelineRows (allRows data) = []
  ↔ ForecastResponse.history data = []
    ∧ ForecastResponse.pending_weeks data = [].
Proof.
  split.
  - intros E.
    assert (∀ d, d ∈ inputDates data →
      d ∉ HistoryPoint.ds <$> ForecastResponse.history data) as Hh.
    { intros d Hd Hin. destruct (allRows_has_date _ _ Hd) as (row & Hrow & <-).
      destruct (allRows_flags _ _ Hrow) as (Hf & _ & _).
      assert (row ∈ timelineRows (allRows data)) as Ht.
      { apply timelineRows_elem. split; [|done].
        unfold isTimelineRow. by rewrite (proj2 Hf Hin). }
      rewrite E in Ht. by apply elem_of_nil in Ht. }
    assert (∀ d, d ∈ inputDates data →
      d ∉ PendingWeek.ds <$> ForecastResponse.pending_weeks data) as Hp.
    { intros d Hd Hin. destruct (allRows_has_date _ _ Hd) as (row & Hrow & <-).
      destruct (allRows_flags _ _ Hrow) as (_ & Hf & _).
      assert (row ∈ timelineRows (allRows data)) as Ht.
      { apply timelineRows_elem. split; [|done].
        unfold isTimelineRow. rewrite (proj2 Hf Hin).
        by destruct (hasHistory row). }
      rewrite E in Ht. by apply elem_of_nil in Ht. }
    unfold inputDates in Hh, Hp. split.
    + destruct (ForecastResponse.history data) as [|p h]; [done|].
      exfalso. apply (Hh (HistoryPoint.ds p)); csimpl;
        apply elem_of_cons; by left.
    + destruct (ForecastResponse.pending_weeks data) as [|p h]; [done|].
      exfalso. apply (Hp (PendingWeek.ds p)).
      * rewrite !elem_of_app. right; left. csimpl. apply elem_of_cons. by left.
      * csimpl. apply elem_of_cons; by left.
  - intros [Eh Ep]. apply filter_none, Forall_forall. intros row Hrow.
    destruct (allRows_flags _ _ Hrow) as (Hh & Hp & _).
    rewrite Eh in Hh. rewrite Ep in Hp. unfold isTimelineRow.
    destruct (hasHistory row).
    { exfalso. by apply (elem_of_nil (date row)), Hh. }
    destruct (isPending row) as [[]|]; csimpl; [|by intros []..].
    intros _. by apply (elem_of_nil (date row)), Hp.
Qed.

(** X8. The chart computation throws exactly when the history window is
    not positive and the response has a history point or a pending week;
    the full-range toggle makes no difference, because both row sets come
    out of one computation. *)
Theorem chartData_throws_iff data showFullRange hw fw :
  chartData data showFullRange hw fw = TypeError
  ↔ (ForecastResponse.history data ≠ []
     ∨ ForecastResponse.pending_weeks data ≠ []) ∧ hw ≤ 0.
Proof.
  assert (chartData data showFullRange hw fw = TypeError
          ↔ selectWindow (allRows data) hw fw = TypeError) as ->.
  { unfold chartData, compactRows.
    by destruct (selectWindow (allRows data) hw fw). }
  rewrite selectWindow_throws_iff, allRows_no_anchor.
  destruct (ForecastResponse.history data),
    (ForecastResponse.pending_weeks data); naive_solver.
Qed.

(** ** A history window wider than the timeline *)

(** X9. When the history window is at least the number of anchor rows of a
    chronological timeline, the compact window loses no anchor row: its
    anchor rows are those of the timeline. *)
Theorem selectWindow_wide_history rows hw fw :
  Chronological rows → 0 < hw →
  Z.of_nat (length (timelineRows rows)) ≤ hw →
  ∃ out, selectWindow rows hw fw = Returns out
         ∧ timelineRows out = timelineRows rows.
Proof.
  intros Hc Hhw Hlen.
  destruct (decide (timelineRows rows = [])) as [E|Hne].
  { exists rows. by rewrite selectWindow_no_anchor. }
  destruct (selectWindow_chronological rows hw fw Hc Hne Hhw)
    as (s & e & El & Es & ->).
  eexists; split; [done|].
  replace (length (timelineRows rows) - Z.to_nat hw)%nat with 0%nat in Es
    by lia.
  rewrite timelineRows_app, timelineRows_filter.
  rewrite (window_of_sorted _ _ _ _ (Chronological_timeline _ Hc) Es El).
  rewrite drop_0. unfold timelineRows at 2.
  rewrite filter_none; [by rewrite app_nil_r|].
  apply Forall_forall. intros r Hr.
  apply (subseteq_take (Z.to_nat fw)) in Hr.
  apply list_elem_of_filter in Hr as [[Hlt _] Hin].
  rewrite (no_anchor_after_last _ _ _ Hc El Hin Hlt). by intros [].
Qed.

(** ** Several points of one date *)

Lemma applyTo_cons k (w : Write) ws r :
  applyTo k (w :: ws) r = applyTo k ws (if decide (w.1 = k) then w.2 r else r).
Proof. done. Qed.

Lemma applyTo_keeps_key (P : ChartRow → Prop) k (ws : list Write) r :
  Forall (λ w : Write, w.1 = k → ∀ r, P r → P (w.2 r)) ws →
  P r → P (applyTo k ws r).
Proof.
  intros Hws. revert r. induction Hws as [|w ws Hw _ IH]; intros r Hr; [done|].
  rewrite applyTo_cons. apply IH. case_decide; auto.
Qed.

Lemma applyTo_fmap_filter {A} (f : A → Write) k (l : list A) r :
  applyTo k (f <$> l) r = applyTo k (f <$> filter (λ a, (f a).1 = k) l) r.
Proof.
  revert r. induction l as [|a l IH]; intros r; [done|].
  rewrite fmap_cons, applyTo_cons.
  destruct (decide ((f a).1 = k)) as [E|E].
  - rewrite filter_cons_True by done.
    rewrite fmap_cons, applyTo_cons, decide_True by done. apply IH.
  - rewrite filter_cons_False by done. apply IH.
Qed.

(** X10. When the history collection has several points of one date, the
    last observed or manual one gives the row its actual value and source,
    whatever precedes it and whatever the pending and forecast collections
    hold for that date. *)
Theorem last_history_point_wins data h1 point h2 row :
  ForecastResponse.history data = h1 ++ point :: h2 →
  Forall (λ p, HistoryPoint.ds p = HistoryPoint.ds point →
               HistoryPoint.source p = synthetic
               ∨ HistoryPoint.source p = seasonal_clone) h2 →
  HistoryPoint.source point = observed ∨ HistoryPoint.source point = manual →
  row ∈ allRows data → date row = HistoryPoint.ds point →
  actualReal row = Some (HistoryPoint.y point)
  ∧ actualSource row = Some (HistoryPoint.source point).
Proof.
  intros Eh Hh2 Hsrc Hrow Hdate. pose proof (allRows_rowOf _ _ Hrow) as Hd.
  rewrite <-(dataOf_actualReal row), <-(dataOf_actualSource row), Hd, Hdate.
  data_fields. rewrite rowOf_unfold, Eh.
  set (P := λ r, actualReal r = Some (HistoryPoint.y point)
                 ∧ actualSource r = Some (HistoryPoint.source point)).
  apply (forecast_keeps P).
  { intros p r [Ha Hs]. unfold P.
    rewrite forecastWrite_actualReal, forecastWrite_actualSource.
    by rewrite Ha. }
  apply (pending_keeps P); [done|].
  unfold historyWrites. rewrite fmap_app, applyTo_app, fmap_cons, applyTo_cons.
  csimpl. rewrite decide_True by done.
  apply (applyTo_keeps_key P).
  - rewrite Forall_fmap. eapply Forall_impl; [exact Hh2|].
    intros p Hp Hk r [Ha Hs]. csimpl in *. unfold P, historyWrite.
    by destruct (Hp Hk) as [-> | ->].
  - unfold P, historyWrite. by destruct Hsrc as [-> | ->].
Qed.

(** X11. The data of the row of a date (every field but the connector and
    the fill line, which the connector pass settles from the neighbours)
    depends only on the points of that date: two responses that agree on the
    points of a date give rows of that date with the same data. *)
Theorem row_depends_on_own_date data data' d row row' :
  filter (λ p, HistoryPoint.ds p = d) (ForecastResponse.history data)
  = filter (λ p, HistoryPoint.ds p = d) (ForecastResponse.history data') →
  filter (λ p, PendingWeek.ds p = d) (ForecastResponse.pending_weeks data)
  = filter (λ p, PendingWeek.ds p = d) (ForecastResponse.pending_weeks data') →
  filter (λ p, ForecastPoint.ds p = d) (ForecastResponse.forecast data)
  = filter (λ p, ForecastPoint.ds p = d) (ForecastResponse.forecast data') →
  row ∈ allRows data → row' ∈ allRows data' →
  date row = d → date row' = d →
  dataOf row = dataOf row'.
Proof.
  intros Hh Hp Hf Hrow Hrow' Hd Hd'.
  rewrite (allRows_rowOf _ _ Hrow), (allRows_rowOf _ _ Hrow'), Hd, Hd'.
  f_equal. rewrite !rowOf_unfold.
  unfold historyWrites, pendingWrites, forecastWrites.
  rewrite (applyTo_fmap_filter _ d (ForecastResponse.forecast data)),
    (applyTo_fmap_filter _ d (ForecastResponse.pending_weeks data)),
    (applyTo_fmap_filter _ d (ForecastResponse.history data)),
    (applyTo_fmap_filter _ d (ForecastResponse.forecast data')),
    (applyTo_fmap_filter _ d (ForecastResponse.pending_weeks data')),
    (applyTo_fmap_filter _ d (ForecastResponse.history data')).
  csimpl. by rewrite Hh, Hp, Hf.
Qed.

(** ** The empty chart *)

Lemma allRows_nil data : allRows data = [] ↔ inputDates data = [].
Proof.
  split; intros E.
  - destruct (inputDates data) as [|d ds] eqn:Ed; [done|].
    destruct (allRows_has_date data d) as (row & Hrow & _).
    { rewrite Ed. apply list_elem_of_here. }
    rewrite E in Hrow. by apply elem_of_nil in Hrow.
  - destruct (allRows data) as [|row rows] eqn:Er; [done|].
    pose proof (allRows_date_elem data row) as Hd.
    rewrite Er, E in Hd. exfalso.
    apply (elem_of_nil (date row)), Hd, list_elem_of_here.
Qed.

Lemma selectWindow_anchor_throws rows hw fw :
  timelineRows rows ≠ [] → hw ≤ 0 → selectWindow rows hw fw = TypeError.
Proof.
  intros Hne Hhw. unfold selectWindow.
  rewrite bool_decide_eq_false_2 by (by intros ?%nil_length_inv).
  rewrite lastRow_lookup by done.
  destruct (last (timelineRows rows)); [|done].
  unfold windowStartRow, rowAt.
  assert (length (timelineRows rows) ≠ 0)%nat
    by (by intros ?%nil_length_inv).
  destruct (Z.ltb_spec hw (Z.of_nat (length (timelineRows rows)))); [|lia].
  destruct (Z.ltb_spec (Z.of_nat (length (timelineRows rows)) - hw) 0);
    [done|].
  rewrite (proj2 (lookup_ge_None _ _)); [done|lia].
Qed.

Lemma selectWindow_nil rows hw fw :
  selectWindow rows hw fw = Returns [] → rows = [].
Proof.
  destruct (decide (timelineRows rows = [])) as [E|Hne].
  { rewrite selectWindow_no_anchor by done. by intros [= ->]. }
  destruct (decide (0 < hw)) as [Hhw|Hhw].
  - destruct (selectWindow_anchored rows hw fw Hne Hhw)
      as (s & e & _ & _ & ->).
    csimpl. case_bool_decide as Hlen; intros [= E]; [done|].
    by rewrite E in Hlen.
  - assert (selectWindow rows hw fw = TypeError) as ->; [|done].
    apply selectWindow_anchor_throws; [done|lia].
Qed.

(** X23. The rows handed to the chart are empty exactly when the response
    has no history point, no pending week and no forecast point, whatever
    the window sizes and the full-range toggle. *)
Theorem chart_empty_iff data showFullRange hw fw :
  chartData data showFullRange hw fw = Returns []
  ↔ ForecastResponse.history data = []
    ∧ ForecastResponse.pending_weeks data = []
    ∧ ForecastResponse.forecast data = [].
Proof.
  assert (inputDates data = []
          ↔ ForecastResponse.history data = []
            ∧ ForecastResponse.pending_weeks data = []
            ∧ ForecastResponse.forecast data = []) as <-.
  { unfold inputDates.
    destruct (ForecastResponse.history data),
      (ForecastResponse.pending_weeks data),
      (ForecastResponse.forecast data); csimpl; naive_solver. }
  rewrite <-allRows_nil. unfold chartData, compactRows. split.
  - destruct (selectWindow (allRows data) hw fw) as [out|] eqn:E; [|done].
    destruct showFullRange; intros [= Hnil]; [done|].
    rewrite Hnil in E. by apply selectWindow_nil in E.
  - intros ->. rewrite selectWindow_no_anchor by done.
    by destruct showFullRange.
Qed.

(** * The manual entry form *)

(** ** Rows of the form *)

Lemma rowIds_update id field value st :
  field ≠ field_id → rowIds (updateManualRow id field value st) = rowIds st.
Proof.
  intros Hf. unfold rowIds, updateManualRow, setManualRows. csimpl.
  rewrite <-list_fmap_compose. apply list_fmap_ext. intros i row _. csimpl.
  case_decide; [|done]. by destruct field.
Qed.

Lemma filter_other_id_nonempty id (rows : list ManualEntryRow.t) :
  NoDup (ManualEntryRow.id <$> rows) → (1 < length rows)%nat →
  filter (λ row, ManualEntryRow.id row ≠ id) rows ≠ [].
Proof.
  spare.
  destruct rows as [|r1 [|r2 rows]]; csimpl; [lia..|]. intros Hnd _.
  apply NoDup_cons in Hnd as [Hr1 _].
  rewrite elem_of_cons in Hr1.
  destruct (decide (ManualEntryRow.id r1 = id)) as [E1|E1].
  - rewrite filter_cons_False by naive_solver.
    rewrite filter_cons_True by naive_solver. done.
  - rewrite filter_cons_True by done. done.
Qed.

Lemma edit_keeps_rows st e :
  NoDup (rowIds st) → manualRows st ≠ [] →
  match e with AddRow randomId => randomId ∉ rowIds st | _ => True end →
  NoDup (rowIds (edit st e)) ∧ manualRows (edit st e) ≠ [].
Proof.
  intros Hnd Hne He. destruct e as [randomId|id value|id value|id]; csimpl.
  - unfold rowIds, addManualRow, setManualRows. csimpl. split.
    + rewrite fmap_app. csimpl. apply NoDup_app. split_and!; [done| |].
      * intros x Hx ->%list_elem_of_singleton. done.
      * apply NoDup_singleton.
    + by intros [? _]%app_eq_nil.
  - rewrite rowIds_update by done. split; [done|].
    unfold updateManualRow, setManualRows. csimpl.
    by intros ?%fmap_nil_inv.
  - rewrite rowIds_update by done. split; [done|].
    unfold updateManualRow, setManualRows. csimpl.
    by intros ?%fmap_nil_inv.
  - unfold rowIds, removeManualRow, setManualRows. csimpl.
    case_bool_decide as Hlen; [done|]. split.
    + apply (sublist_NoDup _ (ManualEntryRow.id <$> manualRows st));
        [exact Hnd|apply fmap_sublist, sublist_filter].
    + apply filter_other_id_nonempty; [done|lia].
Qed.

(** X12. Starting from a form with at least one row and distinct row
    identifiers, every sequence of additions (with identifiers that are new
    when drawn), edits of a week or a count, and removals leaves at least
    one row and distinct identifiers. *)
Theorem edits_keep_a_row st es :
  NoDup (rowIds st) → manualRows st ≠ [] → FreshIds st es →
  NoDup (rowIds (edits st es)) ∧ manualRows (edits st es) ≠ [].
Proof.
  revert st. induction es as [|e es IH]; intros st Hnd Hne Hfresh; [done|].
  destruct Hfresh as [He Hes].
  destruct (edit_keeps_rows st e Hnd Hne He) as [Hnd' Hne'].
  unfold edits. csimpl. by apply IH.
Qed.

(** X13. With distinct row identifiers and more than one row, removing the
    row of an identifier that is present takes away exactly that row: one
    row fewer, the identifier is gone and the others stay in their order.
    With a single row nothing is removed. *)
Theorem removeManualRow_removes_one id st :
  NoDup (rowIds st) → id ∈ rowIds st →
  if bool_decide (length (manualRows st) ≤ 1)%nat
  then manualRows (removeManualRow id st) = manualRows st
  else S (length (manualRows (removeManualRow id st)))
       = length (manualRows st)
       ∧ rowIds (removeManualRow id st)
         = filter (λ i, i ≠ id) (rowIds st)
       ∧ id ∉ rowIds (removeManualRow id st).
Proof.
  spare.
  intros Hnd Hin. unfold rowIds, removeManualRow, setManualRows in *. csimpl.
  case_bool_decide as Hlen; [done|].
  assert (∀ rows : list ManualEntryRow.t,
    ManualEntryRow.id <$> filter (λ row, ManualEntryRow.id row ≠ id) rows
    = filter (λ i, i ≠ id) (ManualEntryRow.id <$> rows)) as Hids.
  { induction rows as [|r rows IH]; [done|]. csimpl.
    destruct (decide (ManualEntryRow.id r = id)) as [E|E].
    - rewrite !filter_cons_False by naive_solver. done.
    - rewrite !filter_cons_True by done. csimpl. by rewrite IH. }
  split_and!.
  - rewrite <-(length_fmap ManualEntryRow.id), Hids.
    rewrite <-(length_fmap ManualEntryRow.id (manualRows st)).
    revert Hnd Hin. generalize (ManualEntryRow.id <$> manualRows st).
    induction l as [|i l IH]; intros Hnd Hin; [by apply elem_of_nil in Hin|].
    apply NoDup_cons in Hnd as [Hi Hnd].
    destruct (decide (i = id)) as [->|E].
    + rewrite filter_cons_False by naive_solver.
      rewrite filter_all; [done|].
      apply Forall_forall. intros x Hx ->. done.
    + rewrite filter_cons_True by done. csimpl. f_equal. apply IH; [done|].
      apply elem_of_cons in Hin as [?|?]; [congruence|done].
  - apply Hids.
  - rewrite Hids. intros [? _]%list_elem_of_filter. done.
Qed.

(** ** The ready counter and the submit handler *)

Lemma entryOf_readyStep trim row count :
  readyStep trim count row
  = match entryOf trim row with
    | Normal (Some _) => Normal (count + 1)
    | Normal None => Normal count
    | RangeError => RangeError
    end.
Proof.
  unfold readyStep, entryOf.
  set (trimmed := trim (ManualEntryRow.cases row)).
  destruct (isoWeekToDate (ManualEntryRow.isoWeek row)) as [[s|]|]; csimpl;
    [|by destruct (String.eqb trimmed EmptyString),
         (isFinite (Number (JsString trimmed)))|done].
  by destruct (String.eqb s EmptyString), (String.eqb trimmed EmptyString),
    (isFinite (Number (JsString trimmed))).
Qed.

Lemma readyCount_from trim rows count :
  foldl (λ acc row,
           match acc with
           | Normal count => readyStep trim count row
           | RangeError => RangeError
           end) (Normal count) rows
  = match mapRows (entryOf trim) rows with
    | Normal items => Normal (count + Z.of_nat (length (omap id items)))
    | RangeError => RangeError
    end.
Proof.
  revert count. induction rows as [|row rows IH]; intros count; csimpl.
  { f_equal. lia. }
  rewrite entryOf_readyStep.
  destruct (entryOf trim row) as [[item|]|]; csimpl.
  - rewrite IH. destruct (mapRows (entryOf trim) rows); csimpl; [|done].
    f_equal. lia.
  - rewrite IH. by destruct (mapRows (entryOf trim) rows).
  - clear IH. by induction rows.
Qed.

Lemma manualRowsReadyCount_entries trim rows :
  manualRowsReadyCount trim rows
  = match entries trim rows with
    | Normal items => Normal (Z.of_nat (length items))
    | RangeError => RangeError
    end.
Proof.
  unfold manualRowsReadyCount, entries. rewrite readyCount_from.
  by destruct (mapRows (entryOf trim) rows).
Qed.

(** X14. The counter of ready rows is the number of entries the submit
    handler would send, and it throws exactly when the handler's entry list
    throws (a week whose date is out of range). *)
Theorem ready_count_counts_entries trim rows :
  manualRowsReadyCount trim rows
  = match entries trim rows with
    | Normal items => Normal (Z.of_nat (length items))
    | RangeError => RangeError
    end.
Proof.
  unfold manualRowsReadyCount, entries. rewrite readyCount_from.
  destruct (mapRows (entryOf trim) rows) as [items|]; [|done].
  reflexivity.
Qed.

(** X15. With a district selected and an API address set, the submit
    button is enabled (while no submit is running) exactly when a click
    would send a request; it is disabled exactly when the click would be
    refused for want of a complete row. *)
Theorem submit_button_agrees trim {District} (district : District)
    apiBaseUrl rows :
  apiBaseUrl ≠ EmptyString →
  (manualSubmitDisabled trim false rows = Normal false
   ↔ ∃ items, handleManualSubmit trim (Some district) apiBaseUrl rows
              = Normal (Posted items))
  ∧ (manualSubmitDisabled trim false rows = Normal true
     ↔ ∃ message, handleManualSubmit trim (Some district) apiBaseUrl rows
                  = Normal (Rejected message)).
Proof.
  spare.
  intros Hapi. unfold manualSubmitDisabled, handleManualSubmit.
  rewrite manualRowsReadyCount_entries, decide_False by done.
  destruct (entries trim rows) as [items|]; csimpl; [|naive_solver].
  destruct items as [|item items]; csimpl; naive_solver.
Qed.

Lemma length_omap_le {A B} (f : A → option B) l :
  (length (omap f l) ≤ length l)%nat.
Proof.
  induction l as [|x l IH]; csimpl; [done|]. destruct (f x); csimpl; lia.
Qed.

Lemma mapRows_Forall2 {A B} (f : A → completion B) rows items :
  mapRows f rows = Normal items →
  Forall2 (λ row item, f row = Normal item) rows items.
Proof.
  revert items. induction rows as [|row rows IH]; intros items; csimpl.
  { intros [= <-]. constructor. }
  destruct (f row) as [b|] eqn:E; [|done].
  destruct (mapRows f rows) as [bs|]; [|done].
  intros [= <-]. constructor; [done|]. by apply IH.
Qed.

(** X16. Every entry the submit handler sends comes from a row of the
    form: its week start is the date [isoWeekToDate] gives for the row's
    week and is not empty, its count is the number of the row's trimmed
    count text, which is not empty, and the count is finite. The list is
    not empty and no longer than the form. *)
Theorem posted_entries_valid trim {District} (district : option District)
    apiBaseUrl rows items :
  handleManualSubmit trim district apiBaseUrl rows = Normal (Posted items) →
  items ≠ []
  ∧ (length items ≤ length rows)%nat
  ∧ Forall (λ item,
      isFinite (ManualEntry.cases item) = true
      ∧ ManualEntry.week_start item ≠ EmptyString
      ∧ ∃ row, row ∈ rows
          ∧ isoWeekToDate (ManualEntryRow.isoWeek row)
            = Normal (Some (ManualEntry.week_start item))
          ∧ trim (ManualEntryRow.cases row) ≠ EmptyString
          ∧ ManualEntry.cases item
            = Number (JsString (trim (ManualEntryRow.cases row)))) items.
Proof.
  unfold handleManualSubmit, entries.
  destruct district as [d|]; [|done]. case_decide; [done|].
  destruct (mapRows (entryOf trim) rows) as [found|] eqn:E; [|done].
  case_bool_decide as Hlen; [done|]. intros [= <-].
  apply mapRows_Forall2 in E. split_and!.
  - intros Hnil. by rewrite Hnil in Hlen.
  - rewrite (Forall2_length _ _ _ E). apply length_omap_le.
  - apply Forall_forall. intros item Hitem.
    apply list_elem_of_omap in Hitem as (o & Ho & Hsome). csimpl in Hsome.
    subst o. apply list_elem_of_lookup in Ho as [i Hi].
    destruct (Forall2_lookup_r _ _ _ _ _ E Hi) as (row & Hrow & Hentry).
    apply list_elem_of_lookup_2 in Hrow. revert Hentry. unfold entryOf.
    destruct (isoWeekToDate (ManualEntryRow.isoWeek row)) as [[s|]|] eqn:Ew;
      csimpl; [| |done].
    + destruct (String.eqb s EmptyString) eqn:Es; csimpl; [done|].
      destruct (String.eqb (trim (ManualEntryRow.cases row)) EmptyString)
        eqn:Et; csimpl; [done|].
      destruct (isFinite (Number (JsString (trim (ManualEntryRow.cases row)))))
        eqn:Ef; csimpl; [|done].
      intros [= <-]. csimpl. split_and!; [done| |].
      * intros ->. done.
      * exists row. split_and!; [done..| |done].
        intros Heq. by rewrite Heq in Et.
    + by destruct (String.eqb (trim (ManualEntryRow.cases row)) EmptyString),
        (isFinite (Number (JsString (trim (ManualEntryRow.cases row))))).
Qed.

(** ** The list of recorded observations *)

Lemma insertSorted_sorted_by {A} (cmp : A → A → Z) (R : relation A) x l :
  Transitive R →
  (∀ y, y ∈ l → if 0 <? cmp x y then R y x else R x y) →
  StronglySorted R l → StronglySorted R (insertSorted cmp x l).
Proof.
  intros HR Hx Hs. induction Hs as [|y l Hs IH Hy]; csimpl.
  { repeat constructor. }
  pose proof (Hx y (list_elem_of_here _ _)) as Hxy.
  destruct (0 <? cmp x y).
  - constructor.
    + apply IH. intros z Hz. apply Hx. by apply list_elem_of_further.
    + rewrite insertSorted_Permutation. by constructor.
  - constructor; [by constructor|]. constructor; [done|].
    eapply Forall_impl; [exact Hy|]. intros z Hz. by trans y.
Qed.

Lemma sortBy_sorted_by {A} (cmp : A → A → Z) (R : relation A) l :
  Transitive R →
  (∀ x y, x ∈ l → y ∈ l → if 0 <? cmp x y then R y x else R x y) →
  StronglySorted R (sortBy cmp l).
Proof.
  intros HR Hl. induction l as [|x l IH]; csimpl; [constructor|].
  apply insertSorted_sorted_by; [done| |].
  - intros y Hy. rewrite sortBy_Permutation in Hy.
    apply Hl; [apply list_elem_of_here|by apply list_elem_of_further].
  - apply IH. intros y z Hy Hz.
    apply Hl; by apply list_elem_of_further.
Qed.

(** X17. For records whose week starts are valid dates, the list shown is
    a rearrangement of the records with the latest week first and no week
    after an earlier one; the last observation is a record of the latest
    week, and there is none exactly when there are no records. *)
Theorem manualObservations_latest_first records :
  Forall (λ r, is_Some (getTime (ManualObservation.week_start r))) records →
  manualObservationsSorted records ≡ₚ records
  ∧ StronglySorted notEarlier (manualObservationsSorted records)
  ∧ match lastManualObservation records with
    | Some r => r ∈ records ∧ Forall (notEarlier r) records
    | None => records = []
    end.
Proof.
  intros Hvalid.
  assert (manualObservationsSorted records ≡ₚ records) as Hperm
    by apply sortBy_Permutation.
  assert (Transitive notEarlier) as Htrans.
  { intros a b c. unfold notEarlier.
    destruct (getTime (ManualObservation.week_start a)),
      (getTime (ManualObservation.week_start b)),
      (getTime (ManualObservation.week_start c)); try done. lia. }
  assert (StronglySorted notEarlier (manualObservationsSorted records))
    as Hsorted.
  { apply sortBy_sorted_by; [done|]. intros a b Ha Hb.
    destruct (proj1 (Forall_forall _ _) Hvalid a Ha) as [x Ex].
    destruct (proj1 (Forall_forall _ _) Hvalid b Hb) as [y Ey].
    unfold byWeekStart, notEarlier. rewrite Ex, Ey.
    destruct (Z.ltb_spec 0 (y - x)); lia. }
  split_and!; [done..|]. unfold lastManualObservation.
  destruct (manualObservationsSorted records) as [|r l] eqn:E; csimpl.
  { by apply Permutation_nil_l in Hperm. }
  apply StronglySorted_inv in Hsorted as [_ Hr]. split.
  - rewrite <-Hperm. apply list_elem_of_here.
  - rewrite <-Hperm. constructor; [|done].
    destruct (proj1 (Forall_forall _ _) Hvalid r) as [x Ex].
    { rewrite <-Hperm. apply list_elem_of_here. }
    unfold notEarlier. rewrite Ex. lia.
Qed.

(** ** Weeks and dates *)

Lemma allFrom_spec n z f x :
  allFrom n z f = true → z ≤ x < z + Z.of_nat n → f x = true.
Proof.
  revert z. induction n as [|n IH]; intros z; csimpl; [lia|].
  intros [Hz Hn]%andb_true_iff Hx.
  destruct (decide (x = z)) as [->|]; [done|]. apply (IH (z + 1)); [done|lia].
Qed.

Lemma weeks_1970_2099 :
  allFrom 130 1970 (λ y, allFrom 53 1 (checkWeek y)) = true.
Proof. vm_compute. reflexivity. Qed.

Lemma checkWeek_holds y w :
  1970 ≤ y ≤ 2099 → 1 ≤ w ≤ 53 → checkWeek y w = true.
Proof.
  intros Hy Hw.
  apply (allFrom_spec 53 1 (checkWeek y)); [|lia].
  apply (allFrom_spec 130 1970 (λ y, allFrom 53 1 (checkWeek y)));
    [apply weeks_1970_2099|lia].
Qed.

Lemma isoWeekToDate_parts value yearStr weekStr rest :
  JsString.split "-W" value = yearStr :: weekStr :: rest →
  isoWeekToDate value
  = if negb (isFinite (Number (JsString yearStr)))
       || negb (isFinite (Number (JsString weekStr)))
    then Normal None
    else weekStartOf (Number (JsString yearStr)) (Number (JsString weekStr)).
Proof.
  intros Hsplit. unfold isoWeekToDate.
  destruct (decide (value = EmptyString)) as [->|_]; [done|].
  by rewrite Hsplit.
Qed.

Lemma digitChar_no_dash z k :
  Ascii.eqb "-" (JsString.digitChar ((z / k) mod 10)) = false.
Proof.
  pose proof (Z.mod_pos_bound (z / k) 10). unfold JsString.digitChar.
  assert (∃ n, (n < 10)%nat ∧ Z.to_nat ((z / k) mod 10) = n) as (n & Hn & ->).
  { exists (Z.to_nat ((z / k) mod 10)). split; [lia|done]. }
  do 10 (destruct n as [|n]; [done|]). lia.
Qed.

Lemma split_week_text y w :
  JsString.split "-W" (JsString.pad 4 y +:+ "-W" +:+ JsString.pad 2 w)
  = [JsString.pad 4 y; JsString.pad 2 w].
Proof.
  unfold JsString.split.
  repeat (lazy -[Z.div Z.modulo Z.pow Z.of_nat JsString.digitChar Ascii.eqb];
          rewrite ?digitChar_no_dash).
  reflexivity.
Qed.

Lemma dateToIsoWeek_time value target :
  getTime value = Some target → dateToIsoWeek value = weekOfTime target.
Proof. intros E. unfold dateToIsoWeek. by rewrite E. Qed.

Lemma mondayOfWeek_monday y w :
  JsDate.WeekDay (mondayOfWeek y w * JsDate.msPerDay) = 1
  ∧ mondayOfWeek y w ≤ IsoDate.daysFromCivil y 1 4 + 7 * (w - 1)
    ≤ mondayOfWeek y w + 6.
Proof.
  unfold JsDate.WeekDay, JsDate.Day, mondayOfWeek.
  rewrite Z.div_mul by done.
  set (j := IsoDate.daysFromCivil y 1 4 + 7 * (w - 1)).
  pose proof (Z.mod_pos_bound (j + 3) 7). split; [|lia].
  pose proof (Z.div_mod (j + 3) 7).
  replace (j - (j + 3) mod 7 + 4) with (1 + (j + 3) / 7 * 7) by lia.
  by rewrite Z.mod_add.
Qed.

(** X18. For a text [YYYY-Www] whose year (1970 to 2099) and week (1 to
    53) [Number] reads as the integers they write, [isoWeekToDate] returns
    the ISO date of a Monday, the Monday of the week that holds the day
    [7 * (w - 1)] days after 4 January of the year: the start of ISO week
    [w]. Whatever follows a second [-W] is ignored. *)
Theorem isoWeekToDate_monday value yearStr weekStr rest y w :
  JsString.split "-W" value = yearStr :: weekStr :: rest →
  Number (JsString yearStr) = JsDate.ofZ y →
  Number (JsString weekStr) = JsDate.ofZ w →
  1970 ≤ y ≤ 2099 → 1 ≤ w ≤ 53 →
  ∃ s, isoWeekToDate value = Normal (Some s)
    ∧ IsoDate.getTime s = Some (mondayOfWeek y w * JsDate.msPerDay)
    ∧ JsDate.WeekDay (mondayOfWeek y w * JsDate.msPerDay) = 1
    ∧ mondayOfWeek y w ≤ IsoDate.daysFromCivil y 1 4 + 7 * (w - 1)
      ≤ mondayOfWeek y w + 6.
Proof.
  intros Hsplit Hyear Hweek Hy Hw.
  pose proof (checkWeek_holds y w Hy Hw) as Hcheck.
  rewrite (isoWeekToDate_parts _ _ _ _ Hsplit), Hyear, Hweek.
  unfold checkWeek in Hcheck.
  apply andb_true_iff in Hcheck as [[-> ->]%andb_true_iff Hcheck]. csimpl.
  destruct (weekStartOf (JsDate.ofZ y) (JsDate.ofZ w)) as [[s|]|]; [|done..].
  apply andb_true_iff in Hcheck as [Hs%bool_decide_eq_true _].
  exists s. destruct (mondayOfWeek_monday y w) as [? [? ?]]. by split_and!.
Qed.

(** X19. Week to date and back: for the years 1970 to 2099 and every week
    the year has, the week of the date [isoWeekToDate] returns, as
    [dateToIsoWeek] computes it once the date is read, is the week the text
    wrote. *)
Theorem week_date_round_trip y w :
  Number (JsString (JsString.pad 4 y)) = JsDate.ofZ y →
  Number (JsString (JsString.pad 2 w)) = JsDate.ofZ w →
  1970 ≤ y ≤ 2099 → 1 ≤ w ≤ weeksInYear y →
  ∃ s, isoWeekToDate (JsString.pad 4 y +:+ "-W" +:+ JsString.pad 2 w)
       = Normal (Some s)
    ∧ (getTime s = IsoDate.getTime s →
       dateToIsoWeek s = JsString.pad 4 y +:+ "-W" +:+ JsString.pad 2 w).
Proof.
  intros Hyear Hweek Hy Hw.
  assert (1 ≤ w ≤ 53) as Hw'.
  { unfold weeksInYear in Hw. destruct (_ || _) in Hw; lia. }
  pose proof (checkWeek_holds y w Hy Hw') as Hcheck.
  rewrite (isoWeekToDate_parts _ (JsString.pad 4 y) (JsString.pad 2 w) []),
    Hyear, Hweek; last by apply split_week_text.
  unfold checkWeek in Hcheck.
  apply andb_true_iff in Hcheck as [[-> ->]%andb_true_iff Hcheck]. csimpl.
  destruct (weekStartOf (JsDate.ofZ y) (JsDate.ofZ w)) as [[s|]|]; [|done..].
  apply andb_true_iff in Hcheck as [Hs%bool_decide_eq_true Hback].
  exists s. split; [done|]. intros Hread.
  rewrite (dateToIsoWeek_time s (mondayOfWeek y w * JsDate.msPerDay))
    by (by rewrite Hread).
  apply orb_true_iff in Hback as [Hlt|Hback%bool_decide_eq_true]; [|done].
  apply Z.ltb_lt in Hlt. lia.
Qed.

Lemma jan4_out_of_range y :
  275761 ≤ y ∨ y ≤ -271821 →
  8640000000000000 < Z.abs (JsDate.MakeDate (JsDate.MakeDay y 0 4) 0).
Proof.
  intros Hy. unfold JsDate.MakeDate, JsDate.MakeDay, JsDate.msPerDay.
  change (0 mod 12 + 1) with 1. change (0 / 12) with 0. rewrite Z.add_0_r.
  unfold IsoDate.daysFromCivil. change (1 <=? 2) with true. cbv iota.
  change ((153 * ((1 + 9) mod 12) + 2) / 5) with 306.
  Z.div_mod_to_equations. lia.
Qed.

Lemma UTC_out_of_range year y :
  JsDate.truncate year = Some y → 275761 ≤ y ∨ y ≤ -271821 →
  JsDate.UTC year 0 4 = None.
Proof.
  intros Ht Hy. unfold JsDate.UTC. rewrite Ht.
  assert ((0 <=? y) && (y <=? 99) = false) as ->.
  { apply andb_false_iff. destruct Hy; [right|left]; lia. }
  pose proof (jan4_out_of_range y Hy) as Hout. unfold JsDate.TimeClip.
  destruct (Z.leb_spec (Z.abs (JsDate.MakeDate (JsDate.MakeDay y 0 4) 0))
              8640000000000000); [lia|done].
Qed.

Lemma weekStartOf_out_of_range year week y :
  JsDate.truncate year = Some y → 275761 ≤ y ∨ y ≤ -271821 →
  weekStartOf year week = RangeError.
Proof.
  intros Ht Hy. unfold weekStartOf. by rewrite (UTC_out_of_range _ _ Ht Hy).
Qed.

Lemma manualRowsReadyCount_throws trim rows row :
  row ∈ rows → isoWeekToDate (ManualEntryRow.isoWeek row) = RangeError →
  manualRowsReadyCount trim rows = RangeError.
Proof.
  intros Hrow Hthrow. rewrite manualRowsReadyCount_entries. unfold entries.
  assert (mapRows (entryOf trim) rows = RangeError) as ->; [|done].
  induction rows as [|r rows IH]; [by apply elem_of_nil in Hrow|]. csimpl.
  apply elem_of_cons in Hrow as [<-|Hrow].
  - unfold entryOf at 1. by rewrite Hthrow.
  - rewrite (IH Hrow). by destruct (entryOf trim r).
Qed.

(** X20. A week text whose year is a finite number that truncates to
    275761 or more, or to -271821 or less, and whose week is a finite
    number makes [isoWeekToDate] throw a [RangeError] instead of returning
    a date or null: 4 January of that year is outside the range of [Date].
    A form with such a row throws while it counts its ready rows. *)
Theorem isoWeekToDate_throws trim value yearStr weekStr rest y rows row :
  JsString.split "-W" value = yearStr :: weekStr :: rest →
  isFinite (Number (JsString yearStr)) = true →
  isFinite (Number (JsString weekStr)) = true →
  JsDate.truncate (Number (JsString yearStr)) = Some y →
  275761 ≤ y ∨ y ≤ -271821 →
  isoWeekToDate value = RangeError
  ∧ (row ∈ rows → ManualEntryRow.isoWeek row = value →
     manualRowsReadyCount trim rows = RangeError).
Proof.
  intros Hsplit Hfy Hfw Ht Hy.
  assert (isoWeekToDate value = RangeError) as Hthrow.
  { rewrite (isoWeekToDate_parts _ _ _ _ Hsplit), Hfy, Hfw. csimpl.
    by apply (weekStartOf_out_of_range _ _ y). }
  split; [done|]. intros Hrow Hvalue.
  apply (manualRowsReadyCount_throws trim rows row); [done|].
  by rewrite Hvalue.
Qed.

Lemma centuries_read :
  allFrom 100 0 (λ y,
    bool_decide (JsDate.truncate (JsDate.ofZ y) = Some y)
    && bool_decide (JsDate.truncate (JsDate.ofZ (1900 + y)) = Some (1900 + y))
    && isFinite (JsDate.ofZ y) && isFinite (JsDate.ofZ (1900 + y))) = true.
Proof. vm_compute. reflexivity. Qed.

(** X21. A year from 0 to 99 is read as a year of the twentieth century:
    the week text gives the date that the same week of the year 1900 + y
    gives. *)
Theorem isoWeekToDate_two_digit_year value value' yearStr yearStr' weekStr
    rest rest' y :
  JsString.split "-W" value = yearStr :: weekStr :: rest →
  JsString.split "-W" value' = yearStr' :: weekStr :: rest' →
  Number (JsString yearStr) = JsDate.ofZ y →
  Number (JsString yearStr') = JsDate.ofZ (1900 + y) →
  0 ≤ y ≤ 99 →
  isoWeekToDate value = isoWeekToDate value'.
Proof.
  intros Hsplit Hsplit' Hyear Hyear' Hy.
  pose proof (allFrom_spec _ _ _ y centuries_read) as Hread.
  csimpl in Hread. specialize (Hread ltac:(lia)).
  apply andb_true_iff in Hread as [Hread Hf'].
  apply andb_true_iff in Hread as [Hread Hf].
  apply andb_true_iff in Hread
    as [Ht%bool_decide_eq_true Ht'%bool_decide_eq_true].
  rewrite (isoWeekToDate_parts _ _ _ _ Hsplit),
    (isoWeekToDate_parts _ _ _ _ Hsplit'), Hyear, Hyear', Hf, Hf'.
  csimpl. destruct (isFinite (Number (JsString weekStr))); [|done]. csimpl.
  unfold weekStartOf, JsDate.UTC. rewrite Ht, Ht'.
  assert ((0 <=? y) && (y <=? 99) = true) as ->.
  { apply andb_true_iff. split; lia. }
  assert ((0 <=? 1900 + y) && (1900 + y <=? 99) = false) as ->.
  { apply andb_false_iff. right. lia. }
  done.
Qed.

Lemma append_snoc piece c s :
  (piece +:+ String c EmptyString) +:+ s = piece +:+ String c s.
Proof.
  induction piece as [|a piece IH]; [done|].
  change (String a ((piece +:+ String c EmptyString) +:+ s)
          = String a (piece +:+ String c s)).
  by rewrite IH.
Qed.

Lemma splitFrom_no_hyphen piece s :
  Forall (λ c, c ≠ "-"%char) (list_ascii_of_string s) →
  JsString.splitFrom "-W" 0 piece s = [piece +:+ s].
Proof.
  revert piece. induction s as [|c s IH]; intros piece Hs.
  { csimpl. f_equal. clear. induction piece as [|a piece IH]; [done|].
    change (String a piece = String a (piece +:+ EmptyString)).
    by rewrite <-IH. }
  apply Forall_cons in Hs as [Hc Hs].
  change (JsString.splitFrom "-W" 0 piece (String c s))
    with (if Ascii.eqb "-" c && JsString.startsWith "W" s
          then piece :: JsString.splitFrom "-W" 1 EmptyString s
          else JsString.splitFrom "-W" 0 (piece +:+ String c EmptyString) s).
  assert (Ascii.eqb "-" c = false) as ->.
  { apply Ascii.eqb_neq. congruence. }
  csimpl. rewrite (IH _ Hs). by rewrite append_snoc.
Qed.

(** X22. A text without a hyphen is no week: [isoWeekToDate] returns null
    for it, [Number(undefined)] being NaN. *)
Theorem isoWeekToDate_needs_separator value :
  isFinite (Number JsUndefined) = false →
  Forall (λ c, c ≠ "-"%char) (list_ascii_of_string value) →
  isoWeekToDate value = Normal None.
Proof.
  intros Hundef Hvalue. unfold isoWeekToDate. case_decide; [done|].
  unfold JsString.split. rewrite (splitFrom_no_hyphen _ _ Hvalue). csimpl.
  rewrite Hundef. by rewrite orb_true_r.
Qed.

End Dashboard.

Arguments handleManualSubmit Number trim {District} district apiBaseUrl rows.


(** * The theorems on the sample inputs *)

Import Samples.

(** Decides a closed decidable proposition by evaluation. *)
Ltac by_evaluation := apply (bool_decide_unpack _); vm_compute; exact I.

(** The dates of a sample are calendar dates for [IsoDate.getTime]. *)
Ltac iso_dates := apply CalendarDates_intro; by_evaluation.

(** The two examples of the specification. *)
Example merge_two_weeks_and_forecast :
  (λ r, (date r, actualReal r, forecastValue r, hasForecast r))
    <$> allRows IsoDate.getTime twoWeeksAndForecast
  = [("2024-01-01", Some 3%float, None, false);
     ("2024-01-08", Some 5%float, None, false);
     ("2024-01-15", None, Some 9%float, true)].
Proof. by vm_compute. Qed.

Example merge_manual_week :
  (λ r, (date r, manualConnector r, filledLineValue r))
    <$> allRows IsoDate.getTime manualWeek
  = [("2024-01-01", Some 3%float, None);
     ("2024-01-08", Some 6%float, None);
     ("2024-01-15", Some 4%float, None)].
Proof. by vm_compute. Qed.

(** A history window that is not positive makes the window computation
    throw as soon as there is an anchor row. *)
Example zero_history_window_throws :
  compactRows IsoDate.getTime manualWeek 0 2 = TypeError.
Proof. by vm_compute. Qed.

(** The merge of [overlap]: four dates, four rows, in date order. *)
Lemma allRows_one_row_per_date_sorted_witness :
  CalendarDates IsoDate.getTime (inputDates overlap)
  ∧ NoDup (date <$> allRows IsoDate.getTime overlap)
  ∧ length (allRows IsoDate.getTime overlap)
    = length (remove_dups (inputDates overlap))
  ∧ StronglySorted (dateLt IsoDate.getTime) (allRows IsoDate.getTime overlap).
Proof.
  assert (CalendarDates IsoDate.getTime (inputDates overlap)) as H
    by iso_dates.
  split; [exact H|].
  destruct (allRows_one_row_per_date_sorted IsoDate.getTime overlap H)
    as (_ & Hnd & Hlen & Hs).
  exact (conj Hnd (conj Hlen Hs)).
Defined.


(** In [overlap] the week 2024-01-08 is observed with 5 and forecast with
    actual 7: the row keeps 5. *)
Lemma actual_prefers_history_witness :
  ∃ row, row ∈ allRows IsoDate.getTime overlap
    ∧ date row = "2024-01-08"
    ∧ forecastValue row = Some 9%float
    ∧ actualReal row = Some 5%float ∧ actualSource row = Some observed.
Proof.
  destruct (actual_prefers_history IsoDate.getTime overlap
    (ForecastPoint.mk "2024-01-08" 1%float 9%float (Some 7%float)))
    as (row & Hin & Hdate & _ & Hfc & Hhist & _).
  - by_evaluation.
  - by_evaluation.
  - simpl. rewrite !elem_of_cons. auto.
  - exists row. split; [exact Hin|]. split; [exact Hdate|].
    split; [exact Hfc|].
    apply (Hhist (HistoryPoint.mk "2024-01-08" 5%float observed)).
    + simpl. rewrite !elem_of_cons. auto.
    + reflexivity.
    + left. reflexivity.
Defined.


(** The pending week of [pendingAfterManual]. *)
Lemma pending_overrides_fill_witness :
  ∃ j row,
    allRows IsoDate.getTime pendingAfterManual !! j = Some row
    ∧ date row = "2024-01-08"
    ∧ filledValue row = Some 7%float
    ∧ filledSource row = Some fill_pending
    ∧ isPending row = Some true
    ∧ filledLineValue row
      = if manualAt (allRows IsoDate.getTime pendingAfterManual)
             (Z.of_nat j - 1)
        then None else Some 7%float.
Proof.
  destruct (pending_overrides_fill IsoDate.getTime pendingAfterManual
    (HistoryPoint.mk "2024-01-08" 2%float synthetic)
    (PendingWeek.mk "2024-01-08" 7%float))
    as (j & r & row & _ & Hrow & _ & Hdate & _ & _ & Hfv & Hfs & Hip & Hfl).
  - by_evaluation.
  - by_evaluation.
  - simpl. rewrite !elem_of_cons. auto.
  - simpl. rewrite !elem_of_cons. auto.
  - reflexivity.
  - left. reflexivity.
  - exists j, row.
    exact (conj Hrow (conj Hdate (conj Hfv (conj Hfs (conj Hip Hfl))))).
Defined.

(** [overlap] and [overlapPermuted] merge to the same rows. *)
Lemma merge_order_independent_witness :
  allRows IsoDate.getTime overlap = allRows IsoDate.getTime overlapPermuted
  ∧ compactRows IsoDate.getTime overlap 15 2
    = compactRows IsoDate.getTime overlapPermuted 15 2.
Proof.
  destruct (merge_order_independent IsoDate.getTime overlap overlapPermuted
    15 2) as (Hall & Hcompact & _).
  - apply Permutation_swap.
  - reflexivity.
  - apply Permutation_swap.
  - by_evaluation.
  - by_evaluation.
  - by_evaluation.
  - iso_dates.
  - exact (conj Hall Hcompact).
Defined.

(** The compact window of [twoWeeksAndForecast] with the default sizes. *)
Lemma selectWindow_never_empty_witness :
  ∃ out,
    selectWindow IsoDate.getTime (allRows IsoDate.getTime twoWeeksAndForecast)
      15 2 = Returns out
    ∧ out ≠ [].
Proof.
  destruct (selectWindow_never_empty IsoDate.getTime
    (allRows IsoDate.getTime twoWeeksAndForecast) 15 2)
    as (out & Hsel & Hne & _).
  - by vm_compute.
  - lia.
  - exists out. exact (conj Hsel Hne).
Defined.

(** The forecast week of [twoWeeksAndForecast] is no anchor row. *)
Lemma forecast_only_row_is_no_anchor_witness :
  ∃ row, row ∈ allRows IsoDate.getTime twoWeeksAndForecast
    ∧ date row = "2024-01-15"
    ∧ hasHistory row = false ∧ isPending row = None
    ∧ (row ∉ timelineRows (allRows IsoDate.getTime twoWeeksAndForecast)).
Proof.
  destruct (forecast_only_row_is_no_anchor IsoDate.getTime twoWeeksAndForecast
    "2024-01-15" 15 2)
    as (row & Hin & Hdate & Hh & Hp & Hanchor & _).
  - iso_dates.
  - by_evaluation.
  - by_evaluation.
  - by_evaluation.
  - lia.
  - exists row.
    exact (conj Hin (conj Hdate (conj Hh (conj Hp Hanchor)))).
Defined.

(** C5 fails as stated. A case count that is not finite ([Infinity], from
    the JSON text [1e999]) and one that is no number ([null]) are invalid
    for [toNumeric], yet neither item is dropped and neither count is null:
    both reach the merge, and the chart, as the number 0. *)
Lemma invalid_count_becomes_zero :
  toNumeric Samples.Number (JsNumber infinity) = None
  ∧ toNumeric Samples.Number JsNull = None
  ∧ (λ p, (HistoryPoint.ds p, HistoryPoint.y p))
      <$> ForecastResponse.history (transformed Samples.Number invalidCounts)
    = [("2024-01-01", 0%float); ("2024-01-08", 0%float)]
  ∧ (λ r, (date r, actualReal r))
      <$> allRows IsoDate.getTime (transformed Samples.Number invalidCounts)
    = [("2024-01-01", Some 0%float); ("2024-01-08", Some 0%float)].
Proof. by vm_compute. Qed.

(** The horizon of a forecast item is not coerced: [Infinity] stays, and a
    text that is no numeric literal gives NaN. The rows are as for any other
    horizon. *)
Example horizon_not_coerced :
  (λ p, isFinite (ForecastPoint.horizon p))
    <$> ForecastResponse.forecast (transformed Samples.Number invalidHorizon)
  = [false; false]
  ∧ (λ r, (date r, forecastValue r))
      <$> allRows IsoDate.getTime (transformed Samples.Number invalidHorizon)
    = [("2024-01-15", Some 9%float); ("2024-01-22", Some 11%float)].
Proof. by vm_compute. Qed.

(** The empty text is numeric for [Number], which reads it as 0: as the
    actual value of a forecast item it is valid, and the chart shows an
    observed count of 0. *)
Example empty_text_actual_is_zero :
  toNumeric decimalNumber (JsString EmptyString) = Some 0%float
  ∧ (λ r, (date r, actualReal r, actualSource r))
      <$> allRows IsoDate.getTime (transformed decimalNumber emptyActual)
    = [("2024-01-15", Some 0%float, Some observed)].
Proof. by vm_compute. Qed.

(** C6 fails as stated. 2024-01-08 is a synthetic history point and a
    pending point with prediction 7, and the week before it is manual: the
    merged row has fill value 7 and the pending flag, but its fill line is
    null, not 7. *)
Lemma pending_fill_line_cleared :
  HistoryPoint.mk "2024-01-08" 2%float synthetic
    ∈ ForecastResponse.history pendingAfterManual
  ∧ PendingWeek.mk "2024-01-08" 7%float
    ∈ ForecastResponse.pending_weeks pendingAfterManual
  ∧ (λ r, (date r, filledValue r, filledLineValue r, isPending r))
      <$> allRows IsoDate.getTime pendingAfterManual
    = [("2024-01-01", None, None, None);
       ("2024-01-08", Some 7%float, None, Some true)].
Proof.
  split_and!; [simpl; rewrite !elem_of_cons; auto..|by vm_compute].
Qed.

(** C10 fails as stated. With nothing but a forecast week there is no anchor
    row, hence no span of dates, and a forecast window of 0 admits no tail
    row; the forecast-only row is in the compact window all the same, which
    is the whole timeline. *)
Lemma forecast_only_row_in_fallback :
  date <$> allRows IsoDate.getTime forecastOnly = ["2024-01-15"]
  ∧ timelineRows (allRows IsoDate.getTime forecastOnly) = []
  ∧ compactRows IsoDate.getTime forecastOnly 15 0
    = Returns (allRows IsoDate.getTime forecastOnly).
Proof. by vm_compute. Qed.

(** ** The further properties on the sample inputs *)

(** The manual row of [manualWeek]. *)
Lemma merged_row_shape_witness :
  let row := mkRow "2024-01-08" (Some 6%float) None None None (Some manual)
               None true false None (Some 6%float) in
  row ∈ allRows IsoDate.getTime manualWeek
  ∧ (is_Some (actualReal row) ↔ is_Some (actualSource row))
  ∧ (hasForecast row = true ↔ is_Some (forecastValue row))
  ∧ (isPending row = Some true ↔ filledSource row = Some fill_pending).
Proof.
  intros row.
  assert (row ∈ allRows IsoDate.getTime manualWeek) as Hrow.
  { apply (list_elem_of_lookup_2 _ 1). by vm_compute. }
  split; [exact Hrow|].
  destruct (merged_row_shape IsoDate.getTime manualWeek row Hrow)
    as (Ha & _ & Hf & _ & _ & _ & _ & Hp & _).
  exact (conj Ha (conj Hf Hp)).
Defined.

(** The pending week of [pendingAfterManual] follows the manual week. *)
Lemma merged_connector_witness :
  let row := mkRow "2024-01-08" None (Some 7%float) None None None
               (Some fill_pending) true false (Some true) (Some 7%float) in
  allRows IsoDate.getTime pendingAfterManual !! 1%nat = Some row
  ∧ manualConnector row
    = (if manualAt (allRows IsoDate.getTime pendingAfterManual) 0
          || isManual row
          || manualAt (allRows IsoDate.getTime pendingAfterManual) 2
       then bestValue row else None).
Proof.
  intros row.
  assert (allRows IsoDate.getTime pendingAfterManual !! 1%nat = Some row)
    as Hrow by (by vm_compute).
  split; [exact Hrow|].
  exact (proj1 (merged_connector IsoDate.getTime pendingAfterManual 1 row Hrow)).
Defined.

(** [twoWeeksAndForecast] has no manual point. *)
Lemma no_manual_no_connector_witness :
  allRows IsoDate.getTime twoWeeksAndForecast
  = sortedRows IsoDate.getTime twoWeeksAndForecast.
Proof.
  apply (no_manual_no_connector IsoDate.getTime twoWeeksAndForecast).
  by repeat constructor.
Defined.

(** The window of one anchor row and one forecast row. *)
Lemma selectWindow_sublist_witness :
  sublist
    [mkRow "2024-01-08" (Some 5%float) None None None (Some observed) None
       true false None None;
     mkRow "2024-01-15" None None None (Some 9%float) None None
       false true None None]
    (allRows IsoDate.getTime twoWeeksAndForecast).
Proof.
  apply (selectWindow_sublist IsoDate.getTime _ 1 1).
  - apply allRows_chronological. iso_dates.
  - by vm_compute.
Defined.

(** Thirty anchor rows, windows 15 and 2. *)
Lemma compactRows_contiguous_witness :
  ∃ i n, compactRows IsoDate.getTime thirtyWeeks 15 2
         = Returns (take n (drop i (allRows IsoDate.getTime thirtyWeeks))).
Proof.
  apply (compactRows_contiguous IsoDate.getTime thirtyWeeks 15 2).
  - iso_dates.
  - lia.
Defined.

(** The forecast week of [twoWeeksAndForecast]. *)
Lemma merged_row_flags_witness :
  let row := mkRow "2024-01-15" None None None (Some 9%float) None None
               false true None None in
  row ∈ allRows IsoDate.getTime twoWeeksAndForecast
  ∧ (hasHistory row = true
     ↔ date row
       ∈ HistoryPoint.ds <$> ForecastResponse.history twoWeeksAndForecast)
  ∧ (hasForecast row = true
     ↔ date row
       ∈ ForecastPoint.ds <$> ForecastResponse.forecast twoWeeksAndForecast).
Proof.
  intros row.
  assert (row ∈ allRows IsoDate.getTime twoWeeksAndForecast) as Hrow.
  { apply (list_elem_of_lookup_2 _ 2). by vm_compute. }
  split; [exact Hrow|].
  destruct (merged_row_flags IsoDate.getTime twoWeeksAndForecast row Hrow)
    as (Hh & _ & Hf).
  exact (conj Hh Hf).
Defined.

(** Two anchor rows, history window 15. *)
Lemma selectWindow_wide_history_witness :
  ∃ out,
    selectWindow IsoDate.getTime (allRows IsoDate.getTime twoWeeksAndForecast)
      15 2 = Returns out
    ∧ timelineRows out
      = timelineRows (allRows IsoDate.getTime twoWeeksAndForecast).
Proof.
  apply (selectWindow_wide_history IsoDate.getTime).
  - apply allRows_chronological. iso_dates.
  - lia.
  - by vm_compute.
Defined.

(** In [repeatedWeek] the manual count is the last actual count. *)
Lemma last_history_point_wins_witness :
  let row := mkRow "2024-01-01" (Some 6%float) (Some 2%float) None
               (Some 9%float) (Some manual) (Some fill_synthetic)
               true true None (Some 6%float) in
  row ∈ allRows IsoDate.getTime repeatedWeek
  ∧ actualReal row = Some 6%float ∧ actualSource row = Some manual.
Proof.
  intros row.
  assert (row ∈ allRows IsoDate.getTime repeatedWeek) as Hrow.
  { apply (list_elem_of_lookup_2 _ 0). by vm_compute. }
  split; [exact Hrow|].
  apply (last_history_point_wins IsoDate.getTime repeatedWeek
    [HistoryPoint.mk "2024-01-01" 3%float observed]
    (HistoryPoint.mk "2024-01-01" 6%float manual)
    [HistoryPoint.mk "2024-01-01" 2%float synthetic] row).
  - reflexivity.
  - repeat constructor.
  - right. reflexivity.
  - exact Hrow.
  - reflexivity.
Defined.

(** The week 2024-01-01 is the same observed point in [manualWeek], where
    it precedes a manual week, and in [twoWeeksAndForecast]. *)
Lemma row_depends_on_own_date_witness :
  dataOf (mkRow "2024-01-01" (Some 3%float) None None None (Some observed)
            None true false None (Some 3%float))
  = dataOf (mkRow "2024-01-01" (Some 3%float) None None None (Some observed)
              None true false None None).
Proof.
  apply (row_depends_on_own_date IsoDate.getTime manualWeek
    twoWeeksAndForecast "2024-01-01").
  - reflexivity.
  - reflexivity.
  - reflexivity.
  - apply (list_elem_of_lookup_2 _ 0). by vm_compute.
  - apply (list_elem_of_lookup_2 _ 0). by vm_compute.
  - reflexivity.
  - reflexivity.
Defined.

(** ** The entry form on the sample inputs *)

(** A row is added, the first row gets its week, and both rows are
    removed in turn: the second removal finds a single row and leaves it. *)
Lemma edits_keep_a_row_witness :
  let st := mkForm [createManualEntryRow "k3x9"] None None in
  let es := [AddRow "p7q2"; EditWeek "k3x9" "2024-W05"; RemoveRow "k3x9";
             RemoveRow "p7q2"] in
  NoDup (rowIds (edits st es)) ∧ manualRows (edits st es) ≠ [].
Proof.
  intros st es. apply (edits_keep_a_row st es).
  - by_evaluation.
  - discriminate.
  - simpl. split; [by_evaluation|]. repeat split.
Defined.

(** Removing the first of [twoRows]. *)
Lemma removeManualRow_removes_one_witness :
  let st := mkForm twoRows None None in
  S (length (manualRows (removeManualRow "k3x9" st))) = 2%nat
  ∧ rowIds (removeManualRow "k3x9" st) = ["p7q2"]
  ∧ "k3x9" ∉ rowIds (removeManualRow "k3x9" st).
Proof.
  intros st. apply (removeManualRow_removes_one "k3x9" st).
  - by_evaluation.
  - by_evaluation.
Defined.

(** [twoRows] has one complete row: the button is enabled and a click
    sends. *)
Lemma submit_button_agrees_witness :
  manualSubmitDisabled decimalNumber trimSpaces false twoRows = Normal false
  ∧ ∃ items,
      handleManualSubmit decimalNumber trimSpaces (Some tt)
        "http://localhost:8000" twoRows
      = Normal (Posted items).
Proof.
  assert (manualSubmitDisabled decimalNumber trimSpaces false twoRows
          = Normal false) as H by (by vm_compute).
  split; [exact H|].
  apply (submit_button_agrees decimalNumber trimSpaces tt
           "http://localhost:8000" twoRows); [discriminate|exact H].
Defined.

(** What a click on [twoRows] sends: week 5 of 2024 starts on 29 January. *)
Lemma posted_entries_valid_witness :
  let items := [ManualEntry.mk "2024-01-29" 12%float] in
  handleManualSubmit decimalNumber trimSpaces (Some tt)
    "http://localhost:8000" twoRows = Normal (Posted items)
  ∧ items ≠ [] ∧ (length items ≤ length twoRows)%nat.
Proof.
  intros items.
  assert (handleManualSubmit decimalNumber trimSpaces (Some tt)
            "http://localhost:8000" twoRows = Normal (Posted items)) as H
    by (by vm_compute).
  split; [exact H|].
  destruct (posted_entries_valid decimalNumber trimSpaces (Some tt)
              "http://localhost:8000" twoRows items H) as (Hne & Hlen & _).
  exact (conj Hne Hlen).
Defined.

(** The latest of [threeObservations] is the week of 22 January. *)
Lemma manualObservations_latest_first_witness :
  manualObservationsSorted IsoDate.getTime threeObservations
  ≡ₚ threeObservations
  ∧ StronglySorted (notEarlier IsoDate.getTime)
      (manualObservationsSorted IsoDate.getTime threeObservations).
Proof.
  destruct (manualObservations_latest_first IsoDate.getTime threeObservations)
    as (Hperm & Hsorted & _).
  - by_evaluation.
  - exact (conj Hperm Hsorted).
Defined.

(** Week 5 of 2024. *)
Lemma isoWeekToDate_monday_witness :
  ∃ s, isoWeekToDate decimalNumber "2024-W05" = Normal (Some s)
    ∧ IsoDate.getTime s = Some (mondayOfWeek 2024 5 * JsDate.msPerDay)
    ∧ JsDate.WeekDay (mondayOfWeek 2024 5 * JsDate.msPerDay) = 1
    ∧ mondayOfWeek 2024 5 ≤ IsoDate.daysFromCivil 2024 1 4 + 7 * (5 - 1)
      ≤ mondayOfWeek 2024 5 + 6.
Proof.
  apply (isoWeekToDate_monday decimalNumber "2024-W05" "2024" "05" [] 2024 5).
  - reflexivity.
  - by vm_compute.
  - by vm_compute.
  - lia.
  - lia.
Defined.

(** Week 53 of 2020, a year of 53 weeks. *)
Lemma week_date_round_trip_witness :
  ∃ s, isoWeekToDate decimalNumber
         (JsString.pad 4 2020 +:+ "-W" +:+ JsString.pad 2 53)
       = Normal (Some s)
    ∧ (IsoDate.getTime s = IsoDate.getTime s →
       dateToIsoWeek IsoDate.getTime s
       = JsString.pad 4 2020 +:+ "-W" +:+ JsString.pad 2 53).
Proof.
  apply (week_date_round_trip IsoDate.getTime decimalNumber 2020 53).
  - by vm_compute.
  - by vm_compute.
  - lia.
  - by vm_compute.
Defined.

(** The year 300000. *)
Lemma isoWeekToDate_throws_witness :
  isoWeekToDate decimalNumber "300000-W01" = RangeError
  ∧ manualRowsReadyCount decimalNumber trimSpaces
      [ManualEntryRow.mk "k3x9" "300000-W01" "12"] = RangeError.
Proof.
  destruct (isoWeekToDate_throws decimalNumber trimSpaces "300000-W01"
              "300000" "01" [] 300000
              [ManualEntryRow.mk "k3x9" "300000-W01" "12"]
              (ManualEntryRow.mk "k3x9" "300000-W01" "12"))
    as [Hthrow Hcount].
  - reflexivity.
  - by vm_compute.
  - by vm_compute.
  - by vm_compute.
  - left. lia.
  - split; [exact Hthrow|]. apply Hcount; [|reflexivity].
    apply list_elem_of_here.
Defined.

(** The year 50 is 1950. *)
Lemma isoWeekToDate_two_digit_year_witness :
  isoWeekToDate decimalNumber "50-W10" = isoWeekToDate decimalNumber "1950-W10".
Proof.
  apply (isoWeekToDate_two_digit_year decimalNumber "50-W10" "1950-W10"
           "50" "1950" "10" [] [] 50).
  - reflexivity.
  - reflexivity.
  - by vm_compute.
  - by vm_compute.
  - lia.
Defined.

(** A year alone. *)
Lemma isoWeekToDate_needs_separator_witness :
  isoWeekToDate decimalNumber "2024" = Normal None.
Proof.
  apply (isoWeekToDate_needs_separator decimalNumber "2024").
  - reflexivity.
  - by_evaluation.
Defined.

(** Two rows that drew the same identifier are removed together, and the
    form is left without a row: the invariant of the form needs distinct
    identifiers. *)
Example equal_ids_empty_the_form :
  manualRows
    (removeManualRow "k3x9"
       (mkForm [createManualEntryRow "k3x9"; createManualEntryRow "k3x9"]
          None None))
  = [].
Proof. reflexivity. Qed.
